(** * srt-go: policy compilation and enforcement, verified against the source

    A shallow embedding of the parts of [sammcj/srt-go] that compile a
    resolved policy into a Seatbelt profile, filter domains, validate
    profiles, classify violations and build the child environment,
    and of the code around them: merging and validating
    configurations, normalising path lists, the mandatory deny paths,
    what the proxies ask the filter, and the macOS version check.

    Go strings are byte sequences: a [string] below is a sequence of
    bytes and an [ascii] is one byte.  Errors are values of [error];
    a fallible function returns a [result]. *)

From Stdlib Require Import String Ascii List ZArith Lia Bool Arith.
From Stdlib Require Import Numbers.DecimalString.
From stdpp Require Import base option gmap strings.
Import ListNotations.

Open Scope string_scope.

Set Default Proof Using "Type".

(** ** Errors and results *)

(** [fmt.Errorf] with a fixed message, and [fmt.Errorf("...: %w", err)]
    wrapping a cause.  [WrapQ] is the form that also prints a quoted
    operand ([%q]) before the cause. *)
Inductive error : Type :=
| Errorf (msg : string)
| Wrap (msg : string) (cause : error)
| WrapQ (msg : string) (operand : string) (cause : error).

Inductive result (A : Type) : Type :=
| Ok (a : A)
| Err (e : error).
Arguments Ok {A} a.
Arguments Err {A} e.

Definition isOk {A} (r : result A) : bool :=
  match r with Ok _ => true | Err _ => false end.

Definition bindR {A B} (r : result A) (k : A -> result B) : result B :=
  match r with
  | Ok a => k a
  | Err e => Err e
  end.

Definition wrapErr {A} (msg : string) (r : result A) : result A :=
  match r with
  | Ok a => Ok a
  | Err e => Err (Wrap msg e)
  end.

#[global] Instance result_ret : MRet result := fun A a => Ok a.
#[global] Instance result_bind : MBind result := fun A B k r => bindR r k.

(** ** The [strings] package of the Go library, on byte strings *)

Module GoStrings.

(** Single bytes that the source names by a character literal. *)
Definition LF : ascii := ascii_of_nat 10.
Definition DQUOTE : ascii := ascii_of_nat 34.
Definition nl : string := String LF EmptyString.
Definition dq : string := String DQUOTE EmptyString.

(** [s[n:]] and [s[:n]]. *)
Fixpoint drop (n : nat) (s : string) : string :=
  match n, s with
  | O, _ => s
  | S n', String _ s' => drop n' s'
  | S _, EmptyString => EmptyString
  end.

Fixpoint take (n : nat) (s : string) : string :=
  match n, s with
  | O, _ => EmptyString
  | S n', String c s' => String c (take n' s')
  | S _, EmptyString => EmptyString
  end.

Definition HasPrefix (s pre : string) : bool := String.prefix pre s.

Definition HasSuffix (s suf : string) : bool :=
  (String.length suf <=? String.length s)%nat
  && String.eqb (drop (String.length s - String.length suf) s) suf.

Definition TrimPrefix (s pre : string) : string :=
  if HasPrefix s pre then drop (String.length pre) s else s.

Definition TrimSuffix (s suf : string) : string :=
  if HasSuffix s suf then take (String.length s - String.length suf) s else s.

(** [strings.Contains]: some suffix of [s] starts with [substr]. *)
Fixpoint Contains (s substr : string) : bool :=
  String.prefix substr s
  || match s with
     | EmptyString => false
     | String _ s' => Contains s' substr
     end.

Fixpoint mem (c : ascii) (chars : string) : bool :=
  match chars with
  | EmptyString => false
  | String d chars' => Ascii.eqb c d || mem c chars'
  end.

(** [strings.ContainsAny] for a set of single-byte characters. *)
Fixpoint ContainsAny (s chars : string) : bool :=
  match s with
  | EmptyString => false
  | String c s' => mem c chars || ContainsAny s' chars
  end.

(** [strings.LastIndex]: the last position at which [substr] starts,
    [-1] when there is none. *)
Fixpoint lastIndexFrom (i : nat) (s substr : string) : option nat :=
  let here := if String.prefix substr s then Some i else None in
  match s with
  | EmptyString => here
  | String _ s' =>
      match lastIndexFrom (S i) s' substr with
      | Some j => Some j
      | None => here
      end
  end.

Definition LastIndex (s substr : string) : Z :=
  match lastIndexFrom 0 s substr with
  | Some j => Z.of_nat j
  | None => (-1)%Z
  end.

(** [strings.Split] with a one-byte separator: always at least one
    part, the separators themselves dropped. *)
Fixpoint Split (s : string) (sep : ascii) : list string :=
  match s with
  | EmptyString => [EmptyString]
  | String c s' =>
      if Ascii.eqb c sep then EmptyString :: Split s' sep
      else match Split s' sep with
           | [] => [String c EmptyString]
           | p :: ps => String c p :: ps
           end
  end.

(** [strings.Join]. *)
Fixpoint Join (parts : list string) (sep : string) : string :=
  match parts with
  | [] => EmptyString
  | [p] => p
  | p :: ps => p ++ sep ++ Join ps sep
  end.

(** The white space of [strings.Fields] on ASCII text. *)
Definition isSpace (c : ascii) : bool :=
  let n := nat_of_ascii c in
  ((9 <=? n) && (n <=? 13) || (n =? 32))%nat.

(** [strings.Fields]: the maximal runs of non-space bytes, in order.
    [cur] is the field being read, if one is open. *)
Fixpoint fieldsFrom (cur : option string) (s : string) : list string :=
  match s with
  | EmptyString => match cur with Some f => [f] | None => [] end
  | String c s' =>
      if isSpace c then
        match cur with
        | Some f => f :: fieldsFrom None s'
        | None => fieldsFrom None s'
        end
      else
        match cur with
        | Some f => fieldsFrom (Some (f ++ String c EmptyString)) s'
        | None => fieldsFrom (Some (String c EmptyString)) s'
        end
  end.

Definition Fields (s : string) : list string := fieldsFrom None s.

(** [%d] of [fmt.Sprintf]. *)
Definition itoa (n : Z) : string := NilEmpty.string_of_int (Z.to_int n).

End GoStrings.

Import GoStrings.

(** ** internal/filesystem: paths *)

Module Filesystem.

(** The operating-system calls behind [NormalisePath]: the home
    directory, [filepath.Join], [filepath.Abs], [filepath.EvalSymlinks]
    and [os.IsNotExist].  They depend on the machine, so they are
    taken as given. *)
Record Env : Type := {
  UserHomeDir : result string;
  filepath_Join : string -> string -> string;
  filepath_Abs : string -> result string;
  filepath_EvalSymlinks : string -> result string;
  os_IsNotExist : error -> bool
}.

(** [NormalisePath] expands [~], makes the path absolute and resolves
    symlinks when the path exists. *)
Definition NormalisePath (env : Env) (path : string) : result string :=
  path ← (if HasPrefix path "~" then
            home ← wrapErr "failed to get home directory" (UserHomeDir env);
            Ok (filepath_Join env home (drop 1 path))
          else Ok path);
  absPath ← wrapErr "failed to make path absolute" (filepath_Abs env path);
  match filepath_EvalSymlinks env absPath with
  | Ok resolvedPath => Ok resolvedPath
  | Err err =>
      if os_IsNotExist env err then Ok absPath
      else Err (Wrap "failed to resolve symlinks" err)
  end.

(** [ContainsGlob]: any of the bytes [*], [?], [[] and [{]. *)
Definition ContainsGlob (path : string) : bool := ContainsAny path "*?[{".

(** [NormalisePaths]: tilde expansion for every entry, the full
    normalisation only for entries without glob characters. *)
Fixpoint NormalisePaths (env : Env) (paths : list string) : result (list string) :=
  match paths with
  | [] => Ok []
  | path :: rest =>
      path ← (if HasPrefix path "~" then
                home ← wrapErr "failed to get home directory" (UserHomeDir env);
                Ok (filepath_Join env home (drop 1 path))
              else Ok path);
      entry ← (if ContainsGlob path then Ok path
               else match NormalisePath env path with
                    | Ok normPath => Ok normPath
                    | Err err => Err (WrapQ "failed to normalise" path err)
                    end);
      normalised ← NormalisePaths env rest;
      Ok (entry :: normalised)
  end.

(** *** internal/filesystem: globs *)

(** The scan of a character class: the text up to the first [']'] and
    what follows it; [None] when there is no [']']. *)
Fixpoint scanClass (s : string) : option (string * string) :=
  match s with
  | EmptyString => None
  | String c s' =>
      if Ascii.eqb c "]" then Some (EmptyString, s')
      else match scanClass s' with
           | Some (cls, rest) => Some (String c cls, rest)
           | None => None
           end
  end.

(** The scan of a brace group, entered with the nesting [depth] after
    the opening brace: the text up to the brace that brings the depth
    to zero and what follows it; [None] when the depth never reaches
    zero. *)
Fixpoint scanBrace (depth : nat) (s : string) : option (string * string) :=
  match s with
  | EmptyString => None
  | String c s' =>
      let depth' := if Ascii.eqb c "{" then S depth
                    else if Ascii.eqb c "}" then Nat.pred depth
                    else depth in
      match depth' with
      | O => Some (EmptyString, s')
      | S _ =>
          match scanBrace depth' s' with
          | Some (inner, rest) => Some (String c inner, rest)
          | None => None
          end
      end
  end.

(** The bytes escaped with a backslash. *)
Definition isRegexSpecial (ch : ascii) : bool := mem ch ".+^$()|\".

(** A call that may not return: [None] stands for a recursion that
    never ends, [Some r] for a call that returns [r]. *)
Definition emit (out : string) (k : option (result string)) : option (result string) :=
  match k with
  | Some (Ok rest) => Some (Ok (out ++ rest))
  | other => other
  end.

(** The alternatives of a brace group: each one converted by [self]
    (the recursive call of [GlobToRegex]), its anchors stripped, and
    the results separated by [|]. *)
Fixpoint convertParts (self : string -> option (result string))
         (idx : nat) (parts : list string) : option (result string) :=
  match parts with
  | [] => Some (Ok EmptyString)
  | part :: rest =>
      match self part with
      | None => None
      | Some (Err err) => Some (Err err)
      | Some (Ok converted) =>
          let converted := TrimPrefix converted "^" in
          let converted := TrimSuffix converted "$" in
          emit ((if (0 <? idx)%nat then "|" else EmptyString) ++ converted)
               (convertParts self (S idx) rest)
      end
  end.

(** The main loop of [GlobToRegex] over [pattern[i:]].  Every turn
    consumes at least one byte, so [n] turns are enough for a string
    of [n] bytes. *)
Fixpoint convertLoop (self : string -> option (result string))
         (n : nat) (s : string) : option (result string) :=
  match s with
  | EmptyString => Some (Ok EmptyString)
  | String ch rest =>
      match n with
      | O => None
      | S n' =>
          if Ascii.eqb ch "*" then
            if HasPrefix rest "*" then
              let rest := drop 1 rest in
              let rest := if HasPrefix rest "/" then drop 1 rest else rest in
              emit ".*" (convertLoop self n' rest)
            else
              emit "[^/]*" (convertLoop self n' rest)
          else if Ascii.eqb ch "?" then
            emit "[^/]" (convertLoop self n' rest)
          else if Ascii.eqb ch "[" then
            match scanClass rest with
            | None => Some (Err (Errorf "unclosed character class in pattern"))
            | Some (cls, rest') =>
                emit ("[" ++ cls ++ "]") (convertLoop self n' rest')
            end
          else if Ascii.eqb ch "{" then
            match scanBrace 1 rest with
            | None => Some (Err (Errorf "unclosed brace in pattern"))
            | Some (inner, rest') =>
                match convertParts self 0 (Split inner ",") with
                | None => None
                | Some (Err err) => Some (Err err)
                | Some (Ok alts) =>
                    emit ("(" ++ alts ++ ")") (convertLoop self n' rest')
                end
            end
          else if isRegexSpecial ch then
            emit ("\" ++ String ch EmptyString) (convertLoop self n' rest)
          else
            emit (String ch EmptyString) (convertLoop self n' rest)
      end
  end.

(** [GlobToRegex] with a bound [depth] on the nesting of its recursive
    calls. *)
Fixpoint GlobToRegexN (env : Env) (depth : nat) (pattern : string)
  : option (result string) :=
  match depth with
  | O => None
  | S depth' =>
      match (if ContainsGlob pattern then Ok pattern
             else NormalisePath env pattern) with
      | Err err => Some (Err err)
      | Ok pattern =>
          match convertLoop (GlobToRegexN env depth')
                            (String.length pattern) pattern with
          | None => None
          | Some (Err err) => Some (Err err)
          | Some (Ok body) => Some (Ok ("^" ++ body ++ "$"))
          end
      end
  end.

(** [GlobToRegex].  A recursive call is made on an alternative of a
    brace group, a strictly shorter string, unless a normalised path
    itself has brace groups; the bound below is then the only thing
    that stops the recursion, and the answer is [None]. *)
Definition GlobToRegex (env : Env) (pattern : string) : option (result string) :=
  GlobToRegexN env (S (String.length pattern)) pattern.

End Filesystem.

(** ** The regular expressions that [GlobToRegex] emits

    [MatchGlob] hands the converted pattern to [regexp.MatchString] of
    the Go library.  This is a model of that call on the fragment of
    the syntax the conversion produces: literal bytes, [\] before a
    punctuation byte, [.], bracket classes of bytes and ranges, groups,
    [|], [*], [^] as the first byte and [$] as the last.  A regular
    expression outside the fragment has no parse here.  Text is matched
    byte by byte. *)

Module Regexp.

Inductive regex : Type :=
| Never
| Eps
| Lit (c : ascii)
| Dot
| Class (neg : bool) (items : list (ascii * ascii))
| Cat (r1 r2 : regex)
| Alt (r1 r2 : regex)
| Star (r : regex).

Definition byte_le (a b : ascii) : bool := (nat_of_ascii a <=? nat_of_ascii b)%nat.

Definition inItems (c : ascii) (items : list (ascii * ascii)) : bool :=
  existsb (fun it => byte_le (fst it) c && byte_le c (snd it)) items.

(** One byte against an atom: [.] takes every byte but the line feed,
    a class its members, a negated class every other byte (the line
    feed too). *)
Definition dotMatches (c : ascii) : bool := negb (Ascii.eqb c LF).
Definition classMatches (neg : bool) (items : list (ascii * ascii)) (c : ascii) : bool :=
  xorb neg (inItems c items).

Fixpoint nullable (r : regex) : bool :=
  match r with
  | Never => false
  | Eps => true
  | Lit _ => false
  | Dot => false
  | Class _ _ => false
  | Cat r1 r2 => nullable r1 && nullable r2
  | Alt r1 r2 => nullable r1 || nullable r2
  | Star _ => true
  end.

Fixpoint deriv (c : ascii) (r : regex) : regex :=
  match r with
  | Never => Never
  | Eps => Never
  | Lit d => if Ascii.eqb c d then Eps else Never
  | Dot => if dotMatches c then Eps else Never
  | Class neg items => if classMatches neg items c then Eps else Never
  | Cat r1 r2 =>
      if nullable r1 then Alt (Cat (deriv c r1) r2) (deriv c r2)
      else Cat (deriv c r1) r2
  | Alt r1 r2 => Alt (deriv c r1) (deriv c r2)
  | Star r1 => Cat (deriv c r1) (Star r1)
  end.

(** The whole of [s] is in the language of [r]. *)
Fixpoint matches (r : regex) (s : string) : bool :=
  match s with
  | EmptyString => nullable r
  | String c s' => matches (deriv c r) s'
  end.

(** *** Parsing *)

(** A group being read: the alternatives already closed by [|] and
    the atoms of the current one, the last atom first. *)
Record frame : Type := Frame {
  f_alts : list regex;
  f_cur : list regex
}.

Definition catl (atoms : list regex) : regex := fold_right Cat Eps atoms.
Definition altl (rs : list regex) : regex := fold_right Alt Never rs.

Definition closeFrame (f : frame) : regex :=
  altl (f_alts f ++ [catl (rev (f_cur f))]).

Inductive cstate : Type :=
| CNone (first : bool)
| CLo (lo : ascii)
| CDash (lo : ascii).

Inductive mode : Type :=
| MNormal
| MEscape
| MClassOpen
| MClass (neg : bool) (items : list (ascii * ascii)) (st : cstate)
| MEnd.

Record pstate : Type := PState {
  ps_mode : mode;
  ps_stack : list frame;
  ps_top : frame;
  ps_rep : bool;
  ps_bol : bool;
  ps_eol : bool;
  ps_fresh : bool
}.

Definition initial : pstate :=
  PState MNormal [] (Frame [] []) false false false true.

Definition pushAtom (st : pstate) (a : regex) : pstate :=
  PState MNormal (ps_stack st)
         (Frame (f_alts (ps_top st)) (a :: f_cur (ps_top st)))
         true (ps_bol st) (ps_eol st) false.

(** ASCII punctuation: the bytes that [\] turns into themselves. *)
Definition isPunct (c : ascii) : bool :=
  let n := nat_of_ascii c in
  ((33 <=? n) && (n <=? 47) || (58 <=? n) && (n <=? 64)
   || (91 <=? n) && (n <=? 96) || (123 <=? n) && (n <=? 126))%nat.

Definition stepNormal (st : pstate) (c : ascii) : option pstate :=
  if Ascii.eqb c "\" then
    Some (PState MEscape (ps_stack st) (ps_top st) false (ps_bol st) (ps_eol st) false)
  else if Ascii.eqb c "." then Some (pushAtom st Dot)
  else if Ascii.eqb c "[" then
    Some (PState MClassOpen (ps_stack st) (ps_top st) false (ps_bol st) (ps_eol st) false)
  else if Ascii.eqb c "(" then
    Some (PState MNormal (ps_top st :: ps_stack st) (Frame [] []) false
                 (ps_bol st) (ps_eol st) false)
  else if Ascii.eqb c ")" then
    match ps_stack st with
    | [] => None
    | outer :: stack =>
        Some (PState MNormal stack
                     (Frame (f_alts outer) (closeFrame (ps_top st) :: f_cur outer))
                     true (ps_bol st) (ps_eol st) false)
    end
  else if Ascii.eqb c "|" then
    Some (PState MNormal (ps_stack st)
                 (Frame (f_alts (ps_top st) ++ [catl (rev (f_cur (ps_top st)))])%list [])
                 false (ps_bol st) (ps_eol st) false)
  else if Ascii.eqb c "*" then
    match ps_rep st, f_cur (ps_top st) with
    | true, a :: atoms =>
        Some (PState MNormal (ps_stack st)
                     (Frame (f_alts (ps_top st)) (Star a :: atoms))
                     false (ps_bol st) (ps_eol st) false)
    | _, _ => None
    end
  else if Ascii.eqb c "^" then
    if ps_fresh st then
      Some (PState MNormal (ps_stack st) (ps_top st) false true (ps_eol st) false)
    else None
  else if Ascii.eqb c "$" then
    match ps_stack st with
    | [] => Some (PState MEnd [] (ps_top st) false (ps_bol st) true false)
    | _ => None
    end
  else if Ascii.eqb c "+" || Ascii.eqb c "?" || Ascii.eqb c "{" then None
  else Some (pushAtom st (Lit c)).

Definition stepClass (st : pstate) (neg : bool) (items : list (ascii * ascii))
           (cs : cstate) (c : ascii) : option pstate :=
  let continue cs' items' :=
    Some (PState (MClass neg items' cs') (ps_stack st) (ps_top st) false
                 (ps_bol st) (ps_eol st) false) in
  let close items' := Some (pushAtom st (Class neg items')) in
  if Ascii.eqb c "\" || Ascii.eqb c "[" then None
  else
    match cs with
    | CNone first =>
        if Ascii.eqb c "]" && negb first then close items
        else continue (CLo c) items
    | CLo lo =>
        if Ascii.eqb c "]" then close (items ++ [(lo, lo)])%list
        else if Ascii.eqb c "-" then continue (CDash lo) items
        else continue (CLo c) (items ++ [(lo, lo)])%list
    | CDash lo =>
        if Ascii.eqb c "]" then close (items ++ [(lo, lo); ("-"%char, "-"%char)])%list
        else if byte_le lo c then continue (CNone false) (items ++ [(lo, c)])%list
        else None
    end.

Definition step (st : pstate) (c : ascii) : option pstate :=
  match ps_mode st with
  | MNormal => stepNormal st c
  | MEscape => if isPunct c then Some (pushAtom st (Lit c)) else None
  | MClassOpen =>
      if Ascii.eqb c "^" then
        Some (PState (MClass true [] (CNone true)) (ps_stack st) (ps_top st) false
                     (ps_bol st) (ps_eol st) false)
      else stepClass st false [] (CNone true) c
  | MClass neg items cs => stepClass st neg items cs c
  | MEnd => None
  end.

Fixpoint run (st : pstate) (s : string) : option pstate :=
  match s with
  | EmptyString => Some st
  | String c s' =>
      match step st c with
      | Some st' => run st' s'
      | None => None
      end
  end.

(** A parsed regular expression: the body and whether it is anchored
    at the start and at the end of the text. *)
Record parsed : Type := Parsed {
  p_bol : bool;
  p_body : regex;
  p_eol : bool
}.

Definition finish (st : pstate) : option parsed :=
  match ps_mode st, ps_stack st with
  | MNormal, [] | MEnd, [] =>
      Some (Parsed (ps_bol st) (closeFrame (ps_top st)) (ps_eol st))
  | _, _ => None
  end.

Definition parse (re : string) : option parsed :=
  match run initial re with
  | Some st => finish st
  | None => None
  end.

Definition anyText : regex := Star (Class true []).

(** An unanchored end lets any text through on that side. *)
Definition search (p : parsed) : regex :=
  Cat (if p_bol p then Eps else anyText)
      (Cat (p_body p) (if p_eol p then Eps else anyText)).

(** [regexp.MatchString]: [None] when [re] has no parse in the
    fragment. *)
Definition MatchString (re s : string) : option bool :=
  match parse re with
  | Some p => Some (matches (search p) s)
  | None => None
  end.

End Regexp.

Module Globs.
Import Filesystem.

(** [MatchGlob]: [None] when the conversion does not return or the
    converted pattern lies outside the modelled fragment of
    [regexp]. *)
Definition MatchGlob (env : Env) (pattern path : string) : option (result bool) :=
  match GlobToRegex env pattern with
  | None => None
  | Some (Err err) => Some (Err err)
  | Some (Ok regex) =>
      match Regexp.MatchString regex path with
      | Some matched => Some (Ok matched)
      | None => None
      end
  end.

(** An environment for running examples: home [/home/user], working
    directory [/work], no symlinks and no file that exists. *)
Definition notExist : error := Errorf "no such file or directory".

Definition exampleEnv : Env := {|
  UserHomeDir := Ok "/home/user";
  filepath_Join := fun a b => a ++ b;
  filepath_Abs := fun p => if HasPrefix p "/" then Ok p else Ok ("/work/" ++ p);
  filepath_EvalSymlinks := fun _ => Err notExist;
  os_IsNotExist := fun _ => true
|}.

(** The same machine with a working directory whose name has a [*]. *)
Definition starEnv : Env := {|
  UserHomeDir := Ok "/home/user";
  filepath_Join := fun a b => a ++ b;
  filepath_Abs := fun p => if HasPrefix p "/" then Ok p else Ok ("/tmp/a*b/" ++ p);
  filepath_EvalSymlinks := fun _ => Err notExist;
  os_IsNotExist := fun _ => true
|}.

End Globs.

(** ** internal/network: the domain filter *)

Module Network.

(** What the filter takes from libraries: [strings.ToLower] and
    [strings.TrimSpace] (Unicode tables) and [glob.Compile] of
    gobwas/glob, whose result is used through its [Match] method. *)
Record Lib : Type := {
  ToLower : string -> string;
  TrimSpace : string -> string;
  glob_Compile : string -> result (string -> bool)
}.

Record DomainPattern : Type := {
  pattern : string;
  isGlob : bool;
  compiled : option (string -> bool)
}.

Record DomainFilter : Type := {
  allowed : list DomainPattern;
  denied : list DomainPattern;
  defaultPolicy : string
}.

Definition normaliseDomain (L : Lib) (domain : string) : string :=
  let idx := LastIndex domain ":" in
  let domain := if (idx =? -1)%Z then domain else take (Z.to_nat idx) domain in
  ToLower L (TrimSpace L domain).

Definition compileDomainPattern (L : Lib) (pattern : string) : result DomainPattern :=
  let pattern := ToLower L (TrimSpace L pattern) in
  if Contains pattern "*" then
    compiled ← glob_Compile L pattern;
    Ok {| pattern := pattern; isGlob := true; compiled := Some compiled |}
  else
    Ok {| pattern := pattern; isGlob := false; compiled := None |}.

(** The two compile loops of [NewDomainFilter]. *)
Fixpoint compileAll (L : Lib) (domains : list string) (acc : list DomainPattern)
  : result (list DomainPattern) :=
  match domains with
  | [] => Ok acc
  | domain :: rest =>
      pattern ← compileDomainPattern L domain;
      compileAll L rest (acc ++ [pattern])%list
  end.

Definition NewDomainFilter (L : Lib) (defaultPolicy : string)
           (allowedDomains deniedDomains : list string) : result DomainFilter :=
  let defaultPolicy :=
    if negb (String.eqb defaultPolicy "allow") && negb (String.eqb defaultPolicy "deny")
    then "allow" else defaultPolicy in
  allowed ← compileAll L allowedDomains [];
  denied ← compileAll L deniedDomains [];
  Ok {| allowed := allowed; denied := denied; defaultPolicy := defaultPolicy |}.

(** [compiled] is [nil] only in a pattern that is not a glob, where
    it is not called. *)
Definition Matches (L : Lib) (p : DomainPattern) (domain : string) : bool :=
  let domain := normaliseDomain L domain in
  if isGlob p then
    match compiled p with
    | Some g => g domain
    | None => false
    end
  else String.eqb domain (pattern p).

(** A [for] loop over patterns that returns at the first match. *)
Fixpoint firstMatch (L : Lib) (patterns : list DomainPattern) (domain : string) : bool :=
  match patterns with
  | [] => false
  | p :: rest => if Matches L p domain then true else firstMatch L rest domain
  end.

Definition IsAllowed (L : Lib) (f : DomainFilter) (domain : string) : bool :=
  let domain := normaliseDomain L domain in
  if firstMatch L (denied f) domain then false
  else if firstMatch L (allowed f) domain then true
  else String.eqb (defaultPolicy f) "allow".

(** A library instance for running examples: ASCII lower case, ASCII
    white space, and a glob in which [*] stands for any run of
    bytes. *)
Definition lowerByte (c : ascii) : ascii :=
  let n := nat_of_ascii c in
  if ((65 <=? n) && (n <=? 90))%nat then ascii_of_nat (n + 32) else c.

Fixpoint asciiToLower (s : string) : string :=
  match s with
  | EmptyString => EmptyString
  | String c s' => String (lowerByte c) (asciiToLower s')
  end.

Fixpoint trimLeft (s : string) : string :=
  match s with
  | EmptyString => EmptyString
  | String c s' => if isSpace c then trimLeft s' else s
  end.

Fixpoint revString (s acc : string) : string :=
  match s with
  | EmptyString => acc
  | String c s' => revString s' (String c acc)
  end.

Definition asciiTrimSpace (s : string) : string :=
  revString (trimLeft (revString (trimLeft s) EmptyString)) EmptyString.

Fixpoint starMatch (n : nat) (pat s : string) : bool :=
  match n with
  | O => false
  | S n' =>
      match pat with
      | EmptyString => String.eqb s EmptyString
      | String p pat' =>
          if Ascii.eqb p "*" then
            starMatch n' pat' s
            || match s with
               | EmptyString => false
               | String _ s' => starMatch n' pat s'
               end
          else match s with
               | EmptyString => false
               | String c s' => Ascii.eqb p c && starMatch n' pat' s'
               end
      end
  end.

Definition exampleLib : Lib := {|
  ToLower := asciiToLower;
  TrimSpace := asciiTrimSpace;
  glob_Compile := fun pat =>
    Ok (fun s => starMatch (S (String.length pat + String.length s)) pat s)
|}.

End Network.

(** ** internal/sandbox: the Seatbelt profile *)

Module Seatbelt.
Import Filesystem.

(** The rule loop shared by the four path lists: a [regex] rule for
    an entry with glob characters, a [subpath] rule otherwise.  [sb]
    is the text written so far. *)
Fixpoint writeRules (env : Env) (action : string) (paths : list string) (sb : string)
  : option (result string) :=
  match paths with
  | [] => Some (Ok sb)
  | path :: rest =>
      if ContainsGlob path then
        match GlobToRegex env path with
        | None => None
        | Some (Err err) => Some (Err (WrapQ "failed to convert glob" path err))
        | Some (Ok regex) =>
            writeRules env action rest
              (sb ++ "(" ++ action ++ " (regex #" ++ dq ++ regex ++ dq ++ "))" ++ nl)
        end
      else
        writeRules env action rest
          (sb ++ "(" ++ action ++ " (subpath " ++ dq ++ path ++ dq ++ "))" ++ nl)
  end.

(** [if len(paths) > 0 { comment; rules; blank line }]. *)
Definition writeGroup (env : Env) (comment action : string) (paths : list string)
           (sb : string) : option (result string) :=
  match paths with
  | [] => Some (Ok sb)
  | _ :: _ =>
      match writeRules env action paths (sb ++ comment ++ nl) with
      | Some (Ok sb) => Some (Ok (sb ++ nl))
      | other => other
      end
  end.

Definition andThen (r : option (result string))
           (k : string -> option (result string)) : option (result string) :=
  match r with
  | Some (Ok sb) => k sb
  | other => other
  end.

Definition GenerateSeatbeltProfile (env : Env)
           (httpProxyPort socksProxyPort : Z) (enableProxy : bool)
           (denyReadPaths allowWritePaths denyWritePaths allowUnlinkPaths : list string)
           (allowFork allowSysctlRead allowMachLookup allowPosixShm : bool)
  : option (result string) :=
  let sb := EmptyString in
  let sb := sb ++ "(version 1)" ++ nl ++ nl in
  let sb := sb ++ "; Process operations" ++ nl in
  let sb := sb ++ "(allow process-exec*)" ++ nl in
  let sb := if allowFork then sb ++ "(allow process-fork)" ++ nl else sb in
  let sb := if allowSysctlRead then sb ++ "(allow sysctl-read)" ++ nl else sb in
  let sb := if allowMachLookup then sb ++ "(allow mach-lookup)" ++ nl else sb in
  let sb := if allowPosixShm then sb ++ "(allow ipc-posix-shm*)" ++ nl else sb in
  let sb := sb ++ nl in
  let sb :=
    if enableProxy then
      let sb := sb ++ "; Network - deny all except proxies" ++ nl in
      let sb := sb ++ "(deny network*)" ++ nl in
      let sb := sb ++ "(allow network* (remote ip " ++ dq ++ "localhost:"
                   ++ itoa httpProxyPort ++ dq ++ "))" ++ nl in
      let sb := sb ++ "(allow network* (remote ip " ++ dq ++ "localhost:"
                   ++ itoa socksProxyPort ++ dq ++ "))" ++ nl in
      sb ++ nl
    else
      let sb := sb ++ "; Network - deny all" ++ nl in
      sb ++ "(deny network*)" ++ nl ++ nl in
  let sb := sb ++ "; Filesystem reads - allow by default" ++ nl in
  let sb := sb ++ "(allow file-read*)" ++ nl ++ nl in
  andThen (writeGroup env "; Deny specific read paths" "deny file-read*"
                        denyReadPaths sb) (fun sb =>
  let sb := sb ++ "; Filesystem writes - deny by default" ++ nl in
  let sb := sb ++ "(deny file-write*)" ++ nl ++ nl in
  andThen (writeGroup env "; Allow writes to specific paths" "allow file-write*"
                        allowWritePaths sb) (fun sb =>
  andThen (writeGroup env "; Deny specific writes within allowed paths"
                        "deny file-write*" denyWritePaths sb) (fun sb =>
  let sb := sb ++ "; File unlink/deletion - deny by default" ++ nl in
  let sb := sb ++ "(deny file-write-unlink)" ++ nl ++ nl in
  andThen (writeGroup env "; Allow unlink in specific paths"
                        "allow file-write-unlink" allowUnlinkPaths sb) (fun sb =>
  Some (Ok sb))))).

(** [hasBalancedParentheses]: one counter, which must never go below
    zero and must end at zero. *)
Fixpoint balancedFrom (count : Z) (s : string) : bool :=
  match s with
  | EmptyString => (count =? 0)%Z
  | String ch s' =>
      if Ascii.eqb ch "(" then balancedFrom (count + 1) s'
      else if Ascii.eqb ch ")" then
        let count := (count - 1)%Z in
        if (count <? 0)%Z then false else balancedFrom count s'
      else balancedFrom count s'
  end.

Definition hasBalancedParentheses (s : string) : bool := balancedFrom 0 s.

(** Running a command: its output and its error, if any. *)
Definition Exec : Type := list string -> string * option error.

(** What [ValidateProfile] did: the commands it ran, in order, and
    the error it returned ([None] for [nil]). *)
Record Validation : Type := {
  ran : list (list string);
  verdict : option error
}.

Definition sandboxExecTest (profilePath : string) : list string :=
  ["sandbox-exec"; "-f"; profilePath; "/usr/bin/true"].

(** The output of the failed live test is kept in the error. *)
Definition liveTestError (err : error) (output : string) : error :=
  WrapQ "profile validation failed (sandbox-exec test)" output err.

Definition ValidateProfile (exec : Exec) (profilePath : string) : Validation :=
  let cat := ["cat"; profilePath] in
  match exec cat with
  | (_, Some err) =>
      {| ran := [cat]; verdict := Some (Wrap "failed to read profile" err) |}
  | (content, None) =>
      let profileStr := content in
      if negb (Contains profileStr "(version 1)") then
        {| ran := [cat];
           verdict := Some (Errorf "profile missing (version 1) declaration") |}
      else if negb (hasBalancedParentheses profileStr) then
        {| ran := [cat];
           verdict := Some (Errorf "profile has unbalanced parentheses") |}
      else
        let hasDeny := Contains profileStr "(deny " in
        let hasAllow := Contains profileStr "(allow " in
        if negb hasDeny && negb hasAllow then
          {| ran := [cat];
             verdict := Some (Errorf "profile missing deny/allow statements") |}
        else
          let cmd := sandboxExecTest profilePath in
          match exec cmd with
          | (output, Some err) =>
              {| ran := [cat; cmd]; verdict := Some (liveTestError err output) |}
          | (_, None) => {| ran := [cat; cmd]; verdict := None |}
          end
  end.

(** The three static checks of [ValidateProfile], on the text. *)
Definition staticChecks (profileStr : string) : bool :=
  Contains profileStr "(version 1)"
  && hasBalancedParentheses profileStr
  && (Contains profileStr "(deny " || Contains profileStr "(allow ").

End Seatbelt.

(** ** internal/sandbox: violations *)

Module Violations.

(** [Timestamp] is a [time.Time]; only its identity matters here. *)
Record Violation : Type := {
  Process : string;
  Message : string;
  Timestamp : Z;
  Target : string;
  Operation : string
}.

(** [parts[len(parts)-1]]. *)
Fixpoint lastPart (parts : list string) : option string :=
  match parts with
  | [] => None
  | [p] => Some p
  | _ :: rest => lastPart rest
  end.

(** [parseViolation] updates the violation in place; the updated
    value is returned. *)
Definition parseViolation (v : Violation) : Violation :=
  let msg := Message v in
  let operation :=
    if Contains msg "file-read" then "file-read"
    else if Contains msg "file-write" then "file-write"
    else if Contains msg "network" then "network"
    else Operation v in
  let parts := Fields msg in
  let target :=
    match lastPart parts with
    | Some p => p
    | None => Target v
    end in
  {| Process := Process v; Message := Message v; Timestamp := Timestamp v;
     Target := target; Operation := operation |}.


(** The loop [for _, pattern := range patterns] that returns on the
    first pattern contained in the target. *)
Fixpoint anyContained (target : string) (patterns : list string) : bool :=
  match patterns with
  | [] => false
  | pattern :: rest =>
      if Contains target pattern then true else anyContained target rest
  end.

Definition ShouldIgnoreViolation (v : Violation) (ignoreMap : gmap string (list string))
  : bool :=
  if match ignoreMap !! Process v with
     | Some patterns => anyContained (Target v) patterns
     | None => false
     end
  then true
  else if match ignoreMap !! "*" with
          | Some patterns => anyContained (Target v) patterns
          | None => false
          end
  then true
  else false.

End Violations.

(** ** internal/config and the sandbox manager *)

Module Manager.
Import Filesystem Network Seatbelt Violations.

Record NetworkConfig : Type := {
  DefaultPolicy : string;
  AllowedDomains : list string;
  DeniedDomains : list string;
  AllowUnixSockets : list string;
  AllowLocalBinding : bool;
  HTTPProxyPort : Z;
  SOCKSProxyPort : Z
}.

Record FilesystemConfig : Type := {
  DenyRead : list string;
  AllowWrite : list string;
  DenyWrite : list string;
  AllowUnlink : list string
}.

Record ProcessConfig : Type := {
  AllowFork : bool;
  AllowSysctlRead : bool;
  AllowMachLookup : bool;
  AllowPosixShm : bool
}.

Record Config : Type := {
  Net : NetworkConfig;
  Fs : FilesystemConfig;
  Proc : ProcessConfig;
  ScanAndBlockFiles : list string;
  ScanAndBlockDirs : list string;
  IgnoreViolations : gmap string (list string);
  Verbose : bool
}.

(** A proxy that holds its listener: the port it serves and the
    filter it consults. *)
Record Proxy : Type := {
  port : Z;
  filter : DomainFilter
}.

(** The machine as the manager sees it. *)
Record World : Type := {
  w_env : Env;
  w_lib : Lib;
  (** [net.Listen] on the loopback address: the port bound. *)
  listenHTTP : Z -> result Z;
  listenSOCKS : Z -> result Z;
  (** [os.Environ()]. *)
  environ : list string;
  (** [generateCommandID()]. *)
  commandID : string;
  (** [os.TempDir()] joined with the profile file name. *)
  profileFile : string;
  (** [os.WriteFile] of the profile. *)
  writeFile : string -> string -> option error;
  (** [packagemanager.DetectPackageManagersCached]. *)
  detectedPaths : list string;
  (** [filesystem.GetMandatoryDenyPaths]. *)
  mandatoryDeny : list string -> result (list string);
  (** The live test of a profile text: output and error. *)
  sandboxTest : string -> string * option error
}.

Record Manager : Type := {
  config : Config;
  httpProxy : option Proxy;
  socksProxy : option Proxy;
  managerID : string
}.

Definition NewHTTPProxy (w : World) (filter : DomainFilter) (port : Z) : result Proxy :=
  actual ← wrapErr "failed to create listener" (listenHTTP w port);
  Ok {| port := if (port =? 0)%Z then actual else port; filter := filter |}.

Definition NewSOCKSProxy (w : World) (filter : DomainFilter) (port : Z) : result Proxy :=
  actual ← wrapErr "failed to create listener" (listenSOCKS w port);
  Ok {| port := if (port =? 0)%Z then actual else port; filter := filter |}.

Definition needsNetworkProxy (cfg : Config) : bool :=
  if (0 <? List.length (AllowedDomains (Net cfg)))%nat then true
  else if String.eqb (DefaultPolicy (Net cfg)) "allow" then true
  else false.

Definition setHTTPProxyPort (cfg : Config) (p : Z) : Config :=
  let n := Net cfg in
  {| Net := {| DefaultPolicy := DefaultPolicy n; AllowedDomains := AllowedDomains n;
               DeniedDomains := DeniedDomains n; AllowUnixSockets := AllowUnixSockets n;
               AllowLocalBinding := AllowLocalBinding n;
               HTTPProxyPort := p; SOCKSProxyPort := SOCKSProxyPort n |};
     Fs := Fs cfg; Proc := Proc cfg; ScanAndBlockFiles := ScanAndBlockFiles cfg;
     ScanAndBlockDirs := ScanAndBlockDirs cfg;
     IgnoreViolations := IgnoreViolations cfg; Verbose := Verbose cfg |}.

Definition setSOCKSProxyPort (cfg : Config) (p : Z) : Config :=
  let n := Net cfg in
  {| Net := {| DefaultPolicy := DefaultPolicy n; AllowedDomains := AllowedDomains n;
               DeniedDomains := DeniedDomains n; AllowUnixSockets := AllowUnixSockets n;
               AllowLocalBinding := AllowLocalBinding n;
               HTTPProxyPort := HTTPProxyPort n; SOCKSProxyPort := p |};
     Fs := Fs cfg; Proc := Proc cfg; ScanAndBlockFiles := ScanAndBlockFiles cfg;
     ScanAndBlockDirs := ScanAndBlockDirs cfg;
     IgnoreViolations := IgnoreViolations cfg; Verbose := Verbose cfg |}.

(** [NewManager]: the proxies are created exactly when
    [needsNetworkProxy] says so, and the configuration is updated
    with the ports they bound. *)
Definition NewManager (w : World) (cfg : Config) : result Manager :=
  let needsProxy := needsNetworkProxy cfg in
  if needsProxy then
    filter ← wrapErr "failed to create domain filter"
               (NewDomainFilter (w_lib w) (DefaultPolicy (Net cfg))
                  (AllowedDomains (Net cfg)) (DeniedDomains (Net cfg)));
    http ← wrapErr "failed to create HTTP proxy"
             (NewHTTPProxy w filter (HTTPProxyPort (Net cfg)));
    let cfg := setHTTPProxyPort cfg (port http) in
    socks ← wrapErr "failed to create SOCKS5 proxy"
              (NewSOCKSProxy w filter (SOCKSProxyPort (Net cfg)));
    let cfg := setSOCKSProxyPort cfg (port socks) in
    Ok {| config := cfg; httpProxy := Some http; socksProxy := Some socks;
          managerID := commandID w |}
  else
    Ok {| config := cfg; httpProxy := None; socksProxy := None;
          managerID := commandID w |}.

(** The command that [Execute] runs: [sandbox-exec] with these
    arguments and this environment. *)
Record Cmd : Type := {
  args : list string;
  cmdEnv : list string
}.

(** The variables [Execute] appends to the inherited environment. *)
Definition commandIDVar (id : string) : string := "SRT_COMMAND_ID=" ++ id.

Definition proxyVars (httpPort socksPort : Z) : list string :=
  [ "HTTP_PROXY=http://localhost:" ++ itoa httpPort;
    "HTTPS_PROXY=http://localhost:" ++ itoa httpPort;
    "ALL_PROXY=socks5://localhost:" ++ itoa socksPort ].

Definition liftR {A} (msg : string) (r : result A) : option (result A) :=
  Some (wrapErr msg r).

Definition bindO {A B} (r : option (result A)) (k : A -> option (result B))
  : option (result B) :=
  match r with
  | Some (Ok a) => k a
  | Some (Err e) => Some (Err e)
  | None => None
  end.

(** [Execute] up to the start of the child: the command it builds, or
    the error that stops it before. *)
Definition Execute (w : World) (m : Manager) (command : list string)
  : option (result Cmd) :=
  match command with
  | [] => Some (Err (Errorf "no command specified"))
  | _ :: _ =>
      let cfg := config m in
      let detected := detectedPaths w in
      let allowWrite := (AllowWrite (Fs cfg) ++ detected)%list in
      let allowUnlink := (AllowUnlink (Fs cfg) ++ detected)%list in
      bindO (liftR "failed to normalise deny read paths"
               (NormalisePaths (w_env w) (DenyRead (Fs cfg)))) (fun denyReadPaths =>
      bindO (liftR "failed to normalise allow write paths"
               (NormalisePaths (w_env w) allowWrite)) (fun allowWritePaths =>
      bindO (liftR "failed to normalise deny write paths"
               (NormalisePaths (w_env w) (DenyWrite (Fs cfg)))) (fun denyWritePaths =>
      bindO (liftR "failed to normalise allow unlink paths"
               (NormalisePaths (w_env w) allowUnlink)) (fun allowUnlinkPaths =>
      let denyWritePaths :=
        match mandatoryDeny w allowWritePaths with
        | Ok extra => (denyWritePaths ++ extra)%list
        | Err _ => denyWritePaths
        end in
      let proxyEnabled :=
        match httpProxy m, socksProxy m with
        | Some _, Some _ => true
        | _, _ => false
        end in
      bindO (match GenerateSeatbeltProfile (w_env w)
                     (HTTPProxyPort (Net cfg)) (SOCKSProxyPort (Net cfg)) proxyEnabled
                     denyReadPaths allowWritePaths denyWritePaths allowUnlinkPaths
                     (AllowFork (Proc cfg)) (AllowSysctlRead (Proc cfg))
                     (AllowMachLookup (Proc cfg)) (AllowPosixShm (Proc cfg)) with
             | Some r => liftR "failed to generate Seatbelt profile" r
             | None => None
             end) (fun profile =>
      let profilePath := profileFile w in
      match writeFile w profilePath profile with
      | Some err => Some (Err (Wrap "failed to write profile" err))
      | None =>
          let exec : Exec := fun cmd =>
            if decide (cmd = ["cat"; profilePath]) then (profile, None)
            else sandboxTest w profile in
          match verdict (ValidateProfile exec profilePath) with
          | Some err => Some (Err (Wrap "profile validation failed" err))
          | None =>
              let args := ("-f" :: profilePath :: command)%list in
              let env := (environ w ++ [commandIDVar (managerID m)])%list in
              let env :=
                if proxyEnabled then
                  (env ++ proxyVars (HTTPProxyPort (Net cfg))
                                    (SOCKSProxyPort (Net cfg)))%list
                else env in
              Some (Ok {| args := args; cmdEnv := env |})
          end
      end)))))
  end.

(** A machine for running examples: every call succeeds, a requested
    port 0 is bound to a fixed free port, and the child inherits
    [inherited]. *)
Definition exampleWorld (inherited : list string) : World := {|
  w_env := Globs.exampleEnv;
  w_lib := Network.exampleLib;
  listenHTTP := fun p => Ok (if (p =? 0)%Z then 49152%Z else p);
  listenSOCKS := fun p => Ok (if (p =? 0)%Z then 49153%Z else p);
  environ := inherited;
  commandID := "c3J0LTQyNDI=";
  profileFile := "/tmp/srt-profile-4242.sb";
  writeFile := fun _ _ => None;
  detectedPaths := [];
  mandatoryDeny := fun _ => Ok [];
  sandboxTest := fun _ => (EmptyString, None)
|}.

Definition exampleConfig (policy : string) (allowedDomains : list string) : Config := {|
  Net := {| DefaultPolicy := policy; AllowedDomains := allowedDomains;
            DeniedDomains := []; AllowUnixSockets := []; AllowLocalBinding := false;
            HTTPProxyPort := 0; SOCKSProxyPort := 0 |};
  Fs := {| DenyRead := ["~/.ssh/**"]; AllowWrite := ["."]; DenyWrite := [];
           AllowUnlink := [] |};
  Proc := {| AllowFork := true; AllowSysctlRead := false; AllowMachLookup := false;
             AllowPosixShm := false |};
  ScanAndBlockFiles := []; ScanAndBlockDirs := [];
  IgnoreViolations := ∅; Verbose := false
|}.

End Manager.

(** ** Notions used in the statements *)

Module Spec.

(** Opening minus closing parentheses of a text. *)
Fixpoint parenBalance (s : string) : Z :=
  match s with
  | EmptyString => 0%Z
  | String ch s' =>
      ((if Ascii.eqb ch "(" then 1 else if Ascii.eqb ch ")" then -1 else 0)
       + parenBalance s')%Z
  end.

(** Balanced text: no prefix closes more than it opens, and the whole
    closes all it opens. *)
Definition Balanced (s : string) : Prop :=
  parenBalance s = 0%Z /\ forall n, (0 <= parenBalance (take n s))%Z.

(** The number of positions of [s] at which [sub] occurs. *)
Fixpoint countOcc (sub s : string) : nat :=
  (if String.prefix sub s then 1 else 0)
  + match s with
    | EmptyString => 0
    | String _ s' => countOcc sub s'
    end.

(** An environment list holds a variable of that name. *)
Definition hasVar (name : string) (env : list string) : bool :=
  existsb (fun entry => HasPrefix entry (name ++ "=")) env.



(** *** The glob syntax *)

(** Opening minus closing braces of a text. *)
Fixpoint braceBalance (s : string) : Z :=
  match s with
  | EmptyString => 0%Z
  | String ch s' =>
      ((if Ascii.eqb ch "{" then 1 else if Ascii.eqb ch "}" then -1 else 0)
       + braceBalance s')%Z
  end.

(** The text of a brace group: its own braces are balanced, and none
    of them closes more than was opened inside. *)
Definition GroupBody (inner : string) : Prop :=
  braceBalance inner = 0%Z /\ forall n, (0 <= braceBalance (take n inner))%Z.

(** The text after an opening brace that never closes it. *)
Definition NeverCloses (rest : string) : Prop :=
  forall n, (0 <= braceBalance (take n rest))%Z.

(** A pattern with an unclosed bracket class or an unclosed brace
    group.  Reading from the left: a bracket opens a class that runs to
    the next [']'], a brace opens a group that runs to the brace that
    matches it, and any other byte stands alone.  The pattern is
    unclosed when a bracket has no [']'] after it, when a brace is never
    matched, when what follows a class, a group or a byte is unclosed,
    or when an alternative of a group (the group text split at commas)
    is unclosed. *)
Inductive Unclosed : string -> Prop :=
| UnclosedBracket (rest : string) :
    mem "]" rest = false -> Unclosed (String "[" rest)
| UnclosedBrace (rest : string) :
    NeverCloses rest -> Unclosed (String "{" rest)
| UnclosedAfterClass (cls rest : string) :
    mem "]" cls = false -> Unclosed rest ->
    Unclosed (String "[" (cls ++ String "]" rest))
| UnclosedAfterGroup (inner rest : string) :
    GroupBody inner -> Unclosed rest ->
    Unclosed (String "{" (inner ++ String "}" rest))
| UnclosedInGroup (inner rest part : string) :
    GroupBody inner -> In part (Split inner ",") -> Unclosed part ->
    Unclosed (String "{" (inner ++ String "}" rest))
| UnclosedAfterByte (ch : ascii) (rest : string) :
    ch <> "["%char -> ch <> "{"%char -> Unclosed rest ->
    Unclosed (String ch rest).

(** A call that gives no regular expression: it fails with an error or
    does not return. *)
Definition noRegex (k : option (result string)) : Prop :=
  forall r, k <> Some (Ok r).

(** Normalising a path free of glob characters gives a path free of
    them: the home directory, the working directory and the targets of
    symlinks have none. *)
Definition PlainPaths (env : Filesystem.Env) : Prop :=
  forall p q,
    Filesystem.ContainsGlob p = false ->
    Filesystem.NormalisePath env p = Ok q ->
    Filesystem.ContainsGlob q = false.

(** *** What a pattern matches *)

(** The language of a regular expression: the texts it matches from
    the first byte to the last. *)
Inductive lang : Regexp.regex -> string -> Prop :=
| LangEps : lang Regexp.Eps EmptyString
| LangLit (c : ascii) : lang (Regexp.Lit c) (String c EmptyString)
| LangDot (c : ascii) :
    Regexp.dotMatches c = true -> lang Regexp.Dot (String c EmptyString)
| LangClass (neg : bool) (items : list (ascii * ascii)) (c : ascii) :
    Regexp.classMatches neg items c = true ->
    lang (Regexp.Class neg items) (String c EmptyString)
| LangCat (r1 r2 : Regexp.regex) (s1 s2 : string) :
    lang r1 s1 -> lang r2 s2 -> lang (Regexp.Cat r1 r2) (s1 ++ s2)
| LangAltL (r1 r2 : Regexp.regex) (s : string) :
    lang r1 s -> lang (Regexp.Alt r1 r2) s
| LangAltR (r1 r2 : Regexp.regex) (s : string) :
    lang r2 s -> lang (Regexp.Alt r1 r2) s
| LangStarNil (r : Regexp.regex) : lang (Regexp.Star r) EmptyString
| LangStarApp (r : Regexp.regex) (s1 s2 : string) :
    lang r s1 -> lang (Regexp.Star r) s2 -> lang (Regexp.Star r) (s1 ++ s2).



(** Every byte of a text satisfies [P]. *)
Fixpoint allBytes (P : ascii -> bool) (s : string) : bool :=
  match s with
  | EmptyString => true
  | String c s' => P c && allBytes P s'
  end.


(** *** The sections of a profile *)

Definition concatAll (pieces : list string) : string :=
  fold_right String.append EmptyString pieces.

Definition regexRule (action regex : string) : string :=
  "(" ++ action ++ " (regex #" ++ dq ++ regex ++ dq ++ "))" ++ nl.

Definition subpathRule (action path : string) : string :=
  "(" ++ action ++ " (subpath " ++ dq ++ path ++ dq ++ "))" ++ nl.

(** The rule of one path entry: a regex rule with the converted
    pattern when the entry has glob syntax, a literal subpath rule
    otherwise. *)
Inductive RuleFor (env : Filesystem.Env) (action path : string) : string -> Prop :=
| RuleRegex (regex : string) :
    Filesystem.ContainsGlob path = true ->
    Filesystem.GlobToRegex env path = Some (Ok regex) ->
    RuleFor env action path (regexRule action regex)
| RuleSubpath :
    Filesystem.ContainsGlob path = false ->
    RuleFor env action path (subpathRule action path).

(** A list of rules under its comment line and before a blank line;
    nothing at all for an empty list. *)
Definition block (comment : string) (rules : list string) : string :=
  (match rules with [] => EmptyString | _ :: _ => comment ++ nl end)
  ++ concatAll rules
  ++ (match rules with [] => EmptyString | _ :: _ => nl end).

Definition versionLine : string := "(version 1)" ++ nl ++ nl.

Definition processSection (allowFork allowSysctlRead allowMachLookup allowPosixShm : bool)
  : string :=
  "; Process operations" ++ nl
  ++ "(allow process-exec*)" ++ nl
  ++ (if allowFork then "(allow process-fork)" ++ nl else EmptyString)
  ++ (if allowSysctlRead then "(allow sysctl-read)" ++ nl else EmptyString)
  ++ (if allowMachLookup then "(allow mach-lookup)" ++ nl else EmptyString)
  ++ (if allowPosixShm then "(allow ipc-posix-shm*)" ++ nl else EmptyString)
  ++ nl.

Definition loopbackRule (port : Z) : string :=
  "(allow network* (remote ip " ++ dq ++ "localhost:" ++ itoa port ++ dq ++ "))" ++ nl.

Definition networkSection (enableProxy : bool) (httpProxyPort socksProxyPort : Z)
  : string :=
  (if enableProxy then "; Network - deny all except proxies" else "; Network - deny all")
  ++ nl
  ++ "(deny network*)" ++ nl
  ++ (if enableProxy then loopbackRule httpProxyPort ++ loopbackRule socksProxyPort
      else EmptyString)
  ++ nl.

Definition readSection (denyRules : list string) : string :=
  "; Filesystem reads - allow by default" ++ nl
  ++ "(allow file-read*)" ++ nl ++ nl
  ++ block "; Deny specific read paths" denyRules.

Definition writeSection (allowRules denyRules : list string) : string :=
  "; Filesystem writes - deny by default" ++ nl
  ++ "(deny file-write*)" ++ nl ++ nl
  ++ block "; Allow writes to specific paths" allowRules
  ++ block "; Deny specific writes within allowed paths" denyRules.

Definition unlinkSection (allowRules : list string) : string :=
  "; File unlink/deletion - deny by default" ++ nl
  ++ "(deny file-write-unlink)" ++ nl ++ nl
  ++ block "; Allow unlink in specific paths" allowRules.

(** *** Profiles that pass the static checks *)

(** No parenthesis in a text. *)
Definition noParens (s : string) : bool := negb (mem "(" s) && negb (mem ")" s).

(** Normalising a path without parentheses gives an absolute path
    without parentheses: the home directory, the working directory and
    the targets of symlinks have none. *)
Definition TamePaths (env : Filesystem.Env) : Prop :=
  forall p q,
    noParens p = true ->
    Filesystem.NormalisePath env p = Ok q ->
    noParens q = true /\ HasPrefix q "/" = true.

Definition versionDecl : string := "(version 1)".

(** Looking for the version declaration byte by byte: [k] bytes of it
    have just been read; [None] once it has been read in full.  The
    declaration has its only [(] in front, so a mismatch falls back to
    one byte read (on a [(]) or to none. *)
Fixpoint scanDecl (k : nat) (s : string) : option nat :=
  match s with
  | EmptyString => Some k
  | String c s' =>
      if Ascii.eqb c "(" then scanDecl 1 s'
      else match String.get k versionDecl with
           | Some d =>
               if Ascii.eqb c d then
                 if (k =? 10)%nat then None else scanDecl (S k) s'
               else scanDecl 0 s'
           | None => scanDecl 0 s'
           end
  end.

(** A piece of text that keeps the parentheses balanced and, read
    outside the version declaration, neither holds it nor leaves it
    half read. *)
Definition Quiet (b : string) : Prop :=
  Seatbelt.hasBalancedParentheses b = true /\ scanDecl 0 b = Some 0%nat.

(** A quiet piece that also ends any reading of the declaration begun
    before it. *)
Definition Resets (b : string) : Prop :=
  Quiet b /\ forall k, scanDecl k b = Some 0%nat.

(** An action name that has no parenthesis and does not go on with the
    declaration after a [(]: the actions of the four path lists. *)
Definition tameAction (action : string) : Prop :=
  noParens action = true /\ scanDecl 1 action = Some 0%nat.

(** What the loop leaves of a converted alternative. *)
Definition stripAnchors (converted : string) : string :=
  TrimSuffix (TrimPrefix converted "^") "$".

End Spec.

(** ** internal/config: merging and validating configurations *)

Module Configuration.
Import Manager.

Record RipgrepConfig : Type := {
  Command : string;
  Args : list string
}.

(** The whole [Config] struct, with the ripgrep settings that the
    manager's part of it leaves out. *)
Record Config : Type := {
  Network : NetworkConfig;
  Filesystem : FilesystemConfig;
  Process : ProcessConfig;
  ScanAndBlockFiles : list string;
  ScanAndBlockDirs : list string;
  Violations : gmap string (list string);
  Ripgrep : RipgrepConfig;
  Verbose : bool
}.

(** [len(x) > 0] of a slice, [x != ""] of a string, [x != 0] of an
    int and [len(m) > 0] of a map. *)
Definition nonEmpty {A} (l : list A) : bool := (0 <? List.length l)%nat.
Definition nonBlank (s : string) : bool := negb (String.eqb s EmptyString).
Definition nonZero (n : Z) : bool := negb (n =? 0)%Z.
Definition nonEmptyMap (m : gmap string (list string)) : bool := (0 <? size m)%nat.

(** [if set(other.X) { c.X = other.X }]. *)
Definition override {A} (set : A -> bool) (mine theirs : A) : A :=
  if set theirs then theirs else mine.

Definition anyProcess (p : ProcessConfig) : bool :=
  AllowFork p || AllowSysctlRead p || AllowMachLookup p || AllowPosixShm p.

(** [c.Merge(other)]: the receiver after the call.  Each [if] of the
    source assigns one field of [c] from the same field of [other];
    [AllowLocalBinding] and [Verbose] have no [if]. *)
Definition Merge (c other : Config) : Config :=
  let cn := Network c in
  let onet := Network other in
  let cf := Filesystem c in
  let ofs := Filesystem other in
  {| Network :=
       {| DefaultPolicy := override nonBlank (DefaultPolicy cn) (DefaultPolicy onet);
          AllowedDomains := override nonEmpty (AllowedDomains cn) (AllowedDomains onet);
          DeniedDomains := override nonEmpty (DeniedDomains cn) (DeniedDomains onet);
          AllowUnixSockets := override nonEmpty (AllowUnixSockets cn) (AllowUnixSockets onet);
          AllowLocalBinding := AllowLocalBinding cn;
          HTTPProxyPort := override nonZero (HTTPProxyPort cn) (HTTPProxyPort onet);
          SOCKSProxyPort := override nonZero (SOCKSProxyPort cn) (SOCKSProxyPort onet) |};
     Filesystem :=
       {| DenyRead := override nonEmpty (DenyRead cf) (DenyRead ofs);
          AllowWrite := override nonEmpty (AllowWrite cf) (AllowWrite ofs);
          DenyWrite := override nonEmpty (DenyWrite cf) (DenyWrite ofs);
          AllowUnlink := override nonEmpty (AllowUnlink cf) (AllowUnlink ofs) |};
     Process :=
       if anyProcess (Process other) then
         {| AllowFork := AllowFork (Process other);
            AllowSysctlRead := AllowSysctlRead (Process other);
            AllowMachLookup := AllowMachLookup (Process other);
            AllowPosixShm := AllowPosixShm (Process other) |}
       else Process c;
     ScanAndBlockFiles := override nonEmpty (ScanAndBlockFiles c) (ScanAndBlockFiles other);
     ScanAndBlockDirs := override nonEmpty (ScanAndBlockDirs c) (ScanAndBlockDirs other);
     Violations := override nonEmptyMap (Violations c) (Violations other);
     Ripgrep :=
       {| Command := override nonBlank (Command (Ripgrep c)) (Command (Ripgrep other));
          Args := override nonEmpty (Args (Ripgrep c)) (Args (Ripgrep other)) |};
     Verbose := Verbose c |}.

(** The zero value of [Config], as [var cfg Config] declares it. *)
Definition zeroConfig : Config := {|
  Network := {| DefaultPolicy := EmptyString; AllowedDomains := []; DeniedDomains := [];
                AllowUnixSockets := []; AllowLocalBinding := false;
                HTTPProxyPort := 0; SOCKSProxyPort := 0 |};
  Filesystem := {| DenyRead := []; AllowWrite := []; DenyWrite := []; AllowUnlink := [] |};
  Process := {| AllowFork := false; AllowSysctlRead := false; AllowMachLookup := false;
                AllowPosixShm := false |};
  ScanAndBlockFiles := []; ScanAndBlockDirs := [];
  Violations := ∅;
  Ripgrep := {| Command := EmptyString; Args := [] |};
  Verbose := false
|}.

(** *** The validator *)

(** [r{0,n}]. *)
Fixpoint upTo (n : nat) (r : Regexp.regex) : Regexp.regex :=
  match n with
  | O => Regexp.Eps
  | S n' => Regexp.Alt Regexp.Eps (Regexp.Cat r (upTo n' r))
  end.

(** [r?]. *)
Definition opt (r : Regexp.regex) : Regexp.regex := Regexp.Alt Regexp.Eps r.

(** [[a-zA-Z0-9]] and [[a-zA-Z0-9-]]. *)
Definition alnum : Regexp.regex :=
  Regexp.Class false [("a", "z"); ("A", "Z"); ("0", "9")]%char.
Definition alnumHyphen : Regexp.regex :=
  Regexp.Class false [("a", "z"); ("A", "Z"); ("0", "9"); ("-", "-")]%char.

(** [[a-zA-Z0-9]([a-zA-Z0-9-]{0,61}[a-zA-Z0-9])?]. *)
Definition label : Regexp.regex :=
  Regexp.Cat alnum (opt (Regexp.Cat (upTo 61 alnumHyphen) alnum)).

(** [domainPattern], between its [^] and [$]:
    [(\*\.)?] label [(\.] label [)*]. *)
Definition domainPattern : Regexp.regex :=
  Regexp.Cat (opt (Regexp.Cat (Regexp.Lit "*") (Regexp.Lit ".")))
    (Regexp.Cat label (Regexp.Star (Regexp.Cat (Regexp.Lit ".") label))).

(** [validateDomain]: [None] is [nil]. *)
Definition validateDomain (domain : string) : option error :=
  if String.eqb domain EmptyString then Some (Errorf "domain cannot be empty")
  else if String.eqb domain "*" || String.eqb domain "*.*" then
    Some (Errorf "overly broad pattern")
  else if HasPrefix domain "*."
          && (List.length (Split (drop 2 domain) ".") =? 1)%nat then
    Some (Errorf "TLD-only wildcards not allowed")
  else if negb (Regexp.matches domainPattern domain) then
    Some (Errorf "invalid domain format")
  else None.

(** The loop [for _, domain := range domains] with its early
    return. *)
Fixpoint validateDomains (msg : string) (domains : list string) : option error :=
  match domains with
  | [] => None
  | domain :: rest =>
      match validateDomain domain with
      | Some err => Some (WrapQ msg domain err)
      | None => validateDomains msg rest
      end
  end.

Definition badPort (port : Z) : bool := (port <? 0)%Z || (65535 <? port)%Z.

Definition validateNetwork (nc : NetworkConfig) : option error :=
  match validateDomains "invalid allowed domain" (AllowedDomains nc) with
  | Some err => Some err
  | None =>
      match validateDomains "invalid denied domain" (DeniedDomains nc) with
      | Some err => Some err
      | None =>
          if badPort (HTTPProxyPort nc) then
            Some (Errorf ("invalid HTTP proxy port: " ++ itoa (HTTPProxyPort nc)))
          else if badPort (SOCKSProxyPort nc) then
            Some (Errorf ("invalid SOCKS proxy port: " ++ itoa (SOCKSProxyPort nc)))
          else None
      end
  end.

(** The loop [for _, path := range paths] with its early return. *)
Fixpoint noEmptyPath (msg : string) (paths : list string) : option error :=
  match paths with
  | [] => None
  | path :: rest =>
      if String.eqb path EmptyString then Some (Errorf msg)
      else noEmptyPath msg rest
  end.

Definition validateFilesystem (fc : FilesystemConfig) : option error :=
  match noEmptyPath "deny read path cannot be empty" (DenyRead fc) with
  | Some err => Some err
  | None =>
      match noEmptyPath "allow write path cannot be empty" (AllowWrite fc) with
      | Some err => Some err
      | None => noEmptyPath "deny write path cannot be empty" (DenyWrite fc)
      end
  end.

Definition Validate (cfg : Config) : option error :=
  match validateNetwork (Network cfg) with
  | Some err => Some (Wrap "network config" err)
  | None =>
      match validateFilesystem (Filesystem cfg) with
      | Some err => Some (Wrap "filesystem config" err)
      | None => None
      end
  end.

End Configuration.

(** ** internal/filesystem: blocked files in the write-allowed paths *)

Module Block.
Import Filesystem.

(** What the detector finds on the machine: whether [rgCommand] is
    on the path, the two searches, and [os.Stat] followed by
    [os.IsNotExist]. *)
Record Detector : Type := {
  useRipgrep : bool;
  findWithRipgrep : string -> result (list string);
  findWithWalk : string -> result (list string);
  statNotExist : string -> bool
}.

Definition Find (env : Env) (d : Detector) (root : string) : result (list string) :=
  normRoot ← NormalisePath env root;
  if useRipgrep d then findWithRipgrep d normRoot else findWithWalk d normRoot.

(** The loop of [GetMandatoryDenyPaths]; [allBlocks] is the slice
    built so far. *)
Fixpoint collectBlocks (env : Env) (d : Detector) (allowWritePaths allBlocks : list string)
  : list string :=
  match allowWritePaths with
  | [] => allBlocks
  | path :: rest =>
      if ContainsGlob path then collectBlocks env d rest allBlocks
      else if statNotExist d path then collectBlocks env d rest allBlocks
      else match Find env d path with
           | Err _ => collectBlocks env d rest allBlocks
           | Ok block => collectBlocks env d rest (allBlocks ++ block)%list
           end
  end.

Definition GetMandatoryDenyPaths (env : Env) (d : Detector) (allowWritePaths : list string)
  : result (list string) :=
  Ok (collectBlocks env d allowWritePaths []).

End Block.

(** ** internal/platform: the macOS version *)

Module Platform.

Record Version : Type := {
  Major : Z;
  Minor : Z;
  Patch : Z;
  Full : string
}.

(** The machine: [runtime.GOOS], the output of [sw_vers
    -productVersion], and the library calls [strings.TrimSpace] and
    [strconv.Atoi] (the number and the error it returns). *)
Record Host : Type := {
  GOOS : string;
  sw_vers : result string;
  TrimSpace : string -> string;
  Atoi : string -> Z * option error
}.

Definition GetMacOSVersion (h : Host) : result Version :=
  match sw_vers h with
  | Err err => Err (Wrap "failed to execute sw_vers" err)
  | Ok output =>
      let versionStr := TrimSpace h output in
      let parts := Split versionStr "." in
      match parts with
      | [] => Err (Errorf ("invalid version format: " ++ versionStr))
      | part0 :: _ =>
          match Atoi h part0 with
          | (_, Some _) => Err (Errorf ("invalid major version: " ++ part0))
          | (major, None) =>
              let minor :=
                match parts with
                | _ :: part1 :: _ => fst (Atoi h part1)
                | _ => 0%Z
                end in
              let patch :=
                match parts with
                | _ :: _ :: part2 :: _ => fst (Atoi h part2)
                | _ => 0%Z
                end in
              Ok {| Major := major; Minor := minor; Patch := patch; Full := versionStr |}
          end
      end
  end.

Definition CheckSystemRequirements (h : Host) : option error :=
  if negb (String.eqb (GOOS h) "darwin") then
    Some (Errorf ("macOS required, got: " ++ GOOS h))
  else
    match GetMacOSVersion h with
    | Err err => Some (Wrap "failed to detect macOS version" err)
    | Ok version =>
        if (Major version <? 26)%Z then
          Some (Errorf ("macOS 26 (Tahoe) or newer required, got: " ++ Full version))
        else None
    end.

(** A host for running examples: [Atoi] reads unsigned decimal
    numbers and fails on anything else. *)
Fixpoint digits (acc : Z) (s : string) : option Z :=
  match s with
  | EmptyString => Some acc
  | String c s' =>
      let n := nat_of_ascii c in
      if ((48 <=? n) && (n <=? 57))%nat then digits (10 * acc + Z.of_nat (n - 48)) s'
      else None
  end.

Definition exampleAtoi (s : string) : Z * option error :=
  match s with
  | EmptyString => (0%Z, Some (Errorf "invalid syntax"))
  | _ => match digits 0 s with
         | Some n => (n, None)
         | None => (0%Z, Some (Errorf "invalid syntax"))
         end
  end.

Definition exampleHost (output : string) : Host := {|
  GOOS := "darwin";
  sw_vers := Ok output;
  TrimSpace := Network.asciiTrimSpace;
  Atoi := exampleAtoi
|}.

End Platform.

(** ** internal/network: what the proxies ask the filter *)

Module Proxies.
Import Network.

(** The parts of an [http.Request] that [handleRequest] reads. *)
Record Request : Type := {
  Host : string;
  URLHost : string;
  Method : string
}.

(** What [handleRequest] does with a request: answer 403 itself, or
    hand it to [handleConnect] or to [handleHTTP]. *)
Inductive Handling : Type :=
| Forbidden (header value body : string)
| HandleConnect
| HandleHTTP.

(** [strings.Split(host, ":")[0]]. *)
Definition firstPart (host : string) : string :=
  match Split host ":" with
  | part :: _ => part
  | [] => EmptyString
  end.

Definition handleRequest (L : Lib) (filter : DomainFilter) (r : Request) : Handling :=
  let host := Host r in
  let host := if String.eqb host EmptyString then URLHost r else host in
  let domain := firstPart host in
  if negb (IsAllowed L filter domain) then
    Forbidden "X-Proxy-Error" "blocked-by-allowlist" "Domain not allowed by sandbox policy"
  else if String.eqb (Method r) "CONNECT" then HandleConnect
  else HandleHTTP.

(** [socks5.AddrSpec]: [IP] holds the text of [IP.String()] when the
    address is not nil. *)
Record AddrSpec : Type := {
  FQDN : string;
  IP : option string
}.

(** [domainRuleSet.Allow], for a request with this [DestAddr]. *)
Definition Allow (L : Lib) (filter : DomainFilter) (DestAddr : option AddrSpec) : bool :=
  let domain :=
    match DestAddr with
    | Some addr =>
        if negb (String.eqb (FQDN addr) EmptyString) then FQDN addr
        else match IP addr with
             | Some ip => ip
             | None => EmptyString
             end
    | None => EmptyString
    end in
  IsAllowed L filter domain.

End Proxies.

(** *** The HTTP proxy: hop-by-hop headers *)

Module Headers.

(** An [http.Header]: the values of each header under its canonical
    name.  [h.Del(key)] deletes the entry of the canonical form of
    [key]; each key that [removeHopByHopHeaders] passes is written in
    its canonical form. *)
Definition Header : Type := gmap string (list string).

Definition Del (key : string) (h : Header) : Header := delete key h.

Definition removeHopByHopHeaders (h : Header) : Header :=
  let h := Del "Connection" h in
  let h := Del "Keep-Alive" h in
  let h := Del "Proxy-Authenticate" h in
  let h := Del "Proxy-Authorization" h in
  let h := Del "Te" h in
  let h := Del "Trailers" h in
  let h := Del "Transfer-Encoding" h in
  Del "Upgrade" h.

(** The names that [removeHopByHopHeaders] deletes. *)
Definition hopByHop : list string :=
  ["Connection"; "Keep-Alive"; "Proxy-Authenticate"; "Proxy-Authorization";
   "Te"; "Trailers"; "Transfer-Encoding"; "Upgrade"].

End Headers.

(** ** Notions used in the statements of the further properties *)

Module Props.

(** The bytes that the strings of a regular expression are made of. *)
Fixpoint alphabet (r : Regexp.regex) (c : ascii) : bool :=
  match r with
  | Regexp.Never => false
  | Regexp.Eps => false
  | Regexp.Lit d => Ascii.eqb c d
  | Regexp.Dot => Regexp.dotMatches c
  | Regexp.Class neg items => Regexp.classMatches neg items c
  | Regexp.Cat r1 r2 => alphabet r1 c || alphabet r2 c
  | Regexp.Alt r1 r2 => alphabet r1 c || alphabet r2 c
  | Regexp.Star r1 => alphabet r1 c
  end.

(** An ASCII letter or digit, a hyphen or a dot. *)
Definition hostByte (c : ascii) : bool :=
  Regexp.inItems c [("a", "z"); ("A", "Z"); ("0", "9")]%char
  || Ascii.eqb c "-" || Ascii.eqb c ".".

(** A configuration whose ports are in range. *)
Definition portInRange (port : Z) : Prop := (0 <= port <= 65535)%Z.

(** The tilde expansion at the head of [NormalisePath] and of the loop
    of [NormalisePaths]. *)
Definition TildeExpanded (env : Filesystem.Env) (path expanded : string) : Prop :=
  (HasPrefix path "~" = true
   /\ exists home, Filesystem.UserHomeDir env = Ok home
                   /\ expanded = Filesystem.filepath_Join env home (drop 1 path))
  \/ (HasPrefix path "~" = false /\ expanded = path).

(** The entry that [NormalisePaths] gives for a path: the path with
    its tilde expanded when that has a glob character, and what
    [NormalisePath] makes of it otherwise. *)
Inductive Normalised (env : Filesystem.Env) (path : string) : string -> Prop :=
| NormalisedGlob (expanded : string) :
    TildeExpanded env path expanded ->
    Filesystem.ContainsGlob expanded = true ->
    Normalised env path expanded
| NormalisedPlain (expanded normPath : string) :
    TildeExpanded env path expanded ->
    Filesystem.ContainsGlob expanded = false ->
    Filesystem.NormalisePath env expanded = Ok normPath ->
    Normalised env path normPath.

(** What one write-allowed path adds to the mandatory deny paths. *)
Definition contribution (env : Filesystem.Env) (d : Block.Detector) (path : string)
  : list string :=
  if Filesystem.ContainsGlob path then []
  else if Block.statNotExist d path then []
  else match Block.Find env d path with
       | Ok block => block
       | Err _ => []
       end.

End Props.

(** * Properties *)

#[local] Arguments String.append !s1 s2 : simpl nomatch.

(** ** Byte strings *)

Section StringFacts.

Lemma prefix_empty (s : string) : String.prefix EmptyString s = true.
Proof. destruct s; reflexivity. Qed.

Lemma Contains_empty (s : string) : Contains s EmptyString = true.
Proof. destruct s; reflexivity. Qed.

Lemma append_empty_r (s : string) : s ++ EmptyString = s.
Proof. induction s as [|c s IH]; simpl; [reflexivity | now rewrite IH]. Qed.

Lemma append_assoc (a b c : string) : (a ++ b) ++ c = a ++ (b ++ c).
Proof. induction a as [|x a IH]; simpl; [reflexivity | now rewrite IH]. Qed.

Lemma length_append (a b : string) :
  String.length (a ++ b) = String.length a + String.length b.
Proof. induction a as [|x a IH]; simpl; [reflexivity | now rewrite IH]. Qed.

Lemma prefix_cons (c d : ascii) (p s : string) :
  String.prefix (String c p) (String d s) = Ascii.eqb c d && String.prefix p s.
Proof.
  simpl. destruct (ascii_dec c d) as [->|Hne].
  - now rewrite Ascii.eqb_refl.
  - apply Ascii.eqb_neq in Hne. now rewrite Hne.
Qed.

Lemma prefix_append (p s : string) : String.prefix p (p ++ s) = true.
Proof.
  induction p as [|c p IH]; simpl; [apply prefix_empty|].
  destruct (ascii_dec c c); [exact IH | congruence].
Qed.

Lemma prefix_true_split (p s : string) :
  String.prefix p s = true -> exists t, s = p ++ t.
Proof.
  revert s. induction p as [|c p IH]; intros s H.
  - exists s. reflexivity.
  - destruct s as [|d s]; [discriminate|].
    rewrite prefix_cons in H. apply andb_true_iff in H as [Hc Hp].
    apply Ascii.eqb_eq in Hc as ->.
    destruct (IH _ Hp) as [t ->]. exists t. reflexivity.
Qed.

Lemma Contains_nil (sub : string) :
  Contains EmptyString sub = String.prefix sub EmptyString || false.
Proof. reflexivity. Qed.

Lemma Contains_cons (c : ascii) (s sub : string) :
  Contains (String c s) sub = String.prefix sub (String c s) || Contains s sub.
Proof. reflexivity. Qed.

(** [Contains] is the existence of an occurrence. *)
Lemma Contains_spec (s sub : string) :
  Contains s sub = true <-> exists a b, s = a ++ sub ++ b.
Proof.
  split.
  - induction s as [|c s IH]; intros H.
    + rewrite Contains_nil, orb_false_r in H. destruct sub; [|discriminate].
      exists EmptyString, EmptyString. reflexivity.
    + rewrite Contains_cons in H. apply orb_true_iff in H as [H|H].
      * destruct (prefix_true_split _ _ H) as [t Ht].
        exists EmptyString, t. exact Ht.
      * destruct (IH H) as (a & b & ->). exists (String c a), b. reflexivity.
  - intros (a & b & ->). induction a as [|c a IH].
    + change (EmptyString ++ sub ++ b) with (sub ++ b).
      destruct (sub ++ b) as [|c t] eqn:E.
      * destruct sub; [reflexivity | discriminate].
      * rewrite Contains_cons, <- E, prefix_append. reflexivity.
    + change (String c a ++ sub ++ b) with (String c (a ++ sub ++ b)).
      rewrite Contains_cons, IH. apply orb_true_r.
Qed.

Lemma Contains_app_l (a b sub : string) :
  Contains a sub = true -> Contains (a ++ b) sub = true.
Proof.
  rewrite !Contains_spec. intros (x & y & ->).
  exists x, (y ++ b). now rewrite !append_assoc.
Qed.

Lemma Contains_app_r (a b sub : string) :
  Contains b sub = true -> Contains (a ++ b) sub = true.
Proof.
  rewrite !Contains_spec. intros (x & y & ->).
  exists (a ++ x), y. now rewrite !append_assoc.
Qed.

End StringFacts.

(** ** The domain filter *)

Section DomainFilterFacts.
Import Network.

Variable L : Lib.

Lemma firstMatch_existsb (patterns : list DomainPattern) (domain : string) :
  firstMatch L patterns domain = existsb (fun p => Matches L p domain) patterns.
Proof.
  induction patterns as [|p rest IH]; simpl; [reflexivity|].
  rewrite IH. destruct (Matches L p domain); reflexivity.
Qed.

Lemma compileAll_length (domains : list string) (acc out : list DomainPattern) :
  compileAll L domains acc = Ok out ->
  List.length out = (List.length acc + List.length domains)%nat.
Proof.
  revert acc. induction domains as [|d rest IH]; simpl; intros acc H.
  - injection H as <-. lia.
  - unfold mbind, result_bind, bindR in H.
    destruct (compileDomainPattern L d) as [p|e]; [|discriminate].
    apply IH in H. rewrite H, length_app. simpl. lia.
Qed.

Lemma NewDomainFilter_fields (policy : string) (allowedDomains deniedDomains : list string)
      (f : DomainFilter) :
  NewDomainFilter L policy allowedDomains deniedDomains = Ok f ->
  List.length (allowed f) = List.length allowedDomains
  /\ List.length (denied f) = List.length deniedDomains
  /\ defaultPolicy f =
     (if negb (String.eqb policy "allow") && negb (String.eqb policy "deny")
      then "allow" else policy).
Proof.
  unfold NewDomainFilter, mbind, result_bind, bindR.
  destruct (compileAll L allowedDomains []) as [al|e] eqn:Ea; [|discriminate].
  destruct (compileAll L deniedDomains []) as [de|e] eqn:Ed; [|discriminate].
  intros H. injection H as <-. simpl.
  apply compileAll_length in Ea. apply compileAll_length in Ed.
  simpl in Ea, Ed. auto.
Qed.

(** C1.  [IsAllowed] decides in a fixed order, on the normalised
    domain: a match in the denied patterns gives [false]; otherwise a
    match in the allowed patterns gives [true]; otherwise the answer
    is the default policy.  For a filter built by [NewDomainFilter]
    with policy [deny] and no allowed domain the answer is [false]
    for every domain, and with policy [allow] and no denied domain it
    is [true] for every domain. *)
Theorem IsAllowed_precedence
        (policy : string) (allowedDomains deniedDomains : list string)
        (f : DomainFilter) (d : string) :
  NewDomainFilter L policy allowedDomains deniedDomains = Ok f ->
  let matches p := Matches L p (normaliseDomain L d) in
  IsAllowed L f d =
    (if existsb matches (denied f) then false
     else if existsb matches (allowed f) then true
     else String.eqb (defaultPolicy f) "allow")
  /\ ((exists p, In p (denied f) /\ matches p = true) -> IsAllowed L f d = false)
  /\ ((forall p, In p (denied f) -> matches p = false) ->
      (exists p, In p (allowed f) /\ matches p = true) -> IsAllowed L f d = true)
  /\ ((forall p, In p (denied f) -> matches p = false) ->
      (forall p, In p (allowed f) -> matches p = false) ->
      IsAllowed L f d = String.eqb (defaultPolicy f) "allow")
  /\ (policy = "deny" -> allowedDomains = [] -> IsAllowed L f d = false)
  /\ (policy = "allow" -> deniedDomains = [] -> IsAllowed L f d = true).
Proof.
  intros Hnew matches.
  assert (Heq : IsAllowed L f d =
    (if existsb matches (denied f) then false
     else if existsb matches (allowed f) then true
     else String.eqb (defaultPolicy f) "allow")).
  { unfold IsAllowed. now rewrite !firstMatch_existsb. }
  destruct (NewDomainFilter_fields _ _ _ _ Hnew) as (Hal & Hde & Hpol).
  split; [exact Heq|]. rewrite Heq. repeat split.
  - intros (p & Hin & Hm).
    assert (existsb matches (denied f) = true) as ->; [|reflexivity].
    apply existsb_exists. eauto.
  - intros Hno (p & Hin & Hm).
    assert (existsb matches (denied f) = false) as ->.
    { apply not_true_is_false. intros (q & Hq & Hmq)%existsb_exists.
      rewrite (Hno q Hq) in Hmq. discriminate. }
    assert (existsb matches (allowed f) = true) as ->; [|reflexivity].
    apply existsb_exists. eauto.
  - intros Hnod Hnoa.
    assert (existsb matches (denied f) = false) as ->.
    { apply not_true_is_false. intros (q & Hq & Hmq)%existsb_exists.
      rewrite (Hnod q Hq) in Hmq. discriminate. }
    assert (existsb matches (allowed f) = false) as ->; [|reflexivity].
    apply not_true_is_false. intros (q & Hq & Hmq)%existsb_exists.
    rewrite (Hnoa q Hq) in Hmq. discriminate.
  - intros -> ->. simpl in Hal, Hpol.
    destruct (allowed f); [|discriminate]. rewrite Hpol. simpl.
    destruct (existsb matches (denied f)); reflexivity.
  - intros -> ->. simpl in Hde, Hpol.
    destruct (denied f); [|discriminate]. rewrite Hpol. simpl.
    destruct (existsb matches (allowed f)); reflexivity.
Qed.

End DomainFilterFacts.

Lemma IsAllowed_precedence_witness :
  exists f,
    Network.NewDomainFilter Network.exampleLib "deny" [] ["bad.example.com"] = Ok f
    /\ Network.IsAllowed Network.exampleLib f "Example.com:443" = false.
Proof.
  eexists. split; [reflexivity|].
  pose proof (IsAllowed_precedence Network.exampleLib "deny" [] ["bad.example.com"]
                _ "Example.com:443" eq_refl) as H.
  apply H; reflexivity.
Defined.

(** ** Ignored violations *)

Section IgnoreFacts.
Import Violations.

Lemma anyContained_empty (target : string) (patterns : list string) :
  In EmptyString patterns -> anyContained target patterns = true.
Proof.
  induction patterns as [|p rest IH]; simpl; [tauto|].
  intros [->|Hin].
  - now rewrite Contains_empty.
  - rewrite (IH Hin). now destruct (Contains target p).
Qed.

(** C10.  If the list under the process name of the violation, or
    the list under the key ["*"], holds the empty string, then
    [ShouldIgnoreViolation] is [true] whatever the target. *)
Theorem ShouldIgnoreViolation_empty_pattern
        (v : Violation) (ignoreMap : gmap string (list string))
        (patterns : list string) :
  ignoreMap !! Process v = Some patterns \/ ignoreMap !! "*" = Some patterns ->
  In EmptyString patterns ->
  ShouldIgnoreViolation v ignoreMap = true.
Proof.
  intros Hkey Hin. unfold ShouldIgnoreViolation.
  destruct Hkey as [Hk|Hk].
  - rewrite Hk, (anyContained_empty _ _ Hin). reflexivity.
  - rewrite Hk, (anyContained_empty _ _ Hin).
    now destruct (match ignoreMap !! Process v with
                  | Some ps => anyContained (Target v) ps
                  | None => false
                  end).
Qed.

End IgnoreFacts.

Lemma ShouldIgnoreViolation_empty_pattern_witness :
  let v := {| Violations.Process := "ssh"; Violations.Message := "deny file-read /usr/bin/ssh-agent";
              Violations.Timestamp := 0%Z; Violations.Target := "/usr/bin/ssh-agent";
              Violations.Operation := "file-read" |} in
  let ignoreMap : gmap string (list string) := {[ "*" := ["/opt"; EmptyString] ]} in
  (ignoreMap !! Violations.Process v = Some ["/opt"; EmptyString]
   \/ ignoreMap !! "*" = Some ["/opt"; EmptyString])
  /\ In EmptyString ["/opt"; EmptyString]
  /\ Violations.ShouldIgnoreViolation v ignoreMap = true.
Proof.
  intros v ignoreMap.
  assert (Hkey : ignoreMap !! Violations.Process v = Some ["/opt"; EmptyString]
                 \/ ignoreMap !! "*" = Some ["/opt"; EmptyString]).
  { right. reflexivity. }
  assert (Hin : In EmptyString ["/opt"; EmptyString]).
  { right. left. reflexivity. }
  split; [exact Hkey|]. split; [exact Hin|].
  exact (ShouldIgnoreViolation_empty_pattern v ignoreMap _ Hkey Hin).
Defined.

(** ** The profile validator *)

Section ValidatorFacts.
Import Seatbelt Spec.

Lemma take_nil (n : nat) : take n EmptyString = EmptyString.
Proof. destruct n; reflexivity. Qed.

Lemma balancedFrom_spec (s : string) (k : Z) :
  (0 <= k)%Z ->
  balancedFrom k s = true <->
  (k + parenBalance s = 0)%Z /\ forall n, (0 <= k + parenBalance (take n s))%Z.
Proof.
  revert k. induction s as [|ch s IH]; intros k Hk.
  - simpl. rewrite Z.eqb_eq. split.
    + intros ->. split; [reflexivity|]. intros n. rewrite take_nil. simpl. lia.
    + intros [H _]. lia.
  - cbn [balancedFrom parenBalance].
    destruct (Ascii.eqb ch "(") eqn:Eo.
    + rewrite IH by lia. split.
      * intros [H1 H2]. split; [lia|]. intros [|n]; cbn [take parenBalance].
        -- lia.
        -- rewrite Eo. specialize (H2 n). lia.
      * intros [H1 H2]. split; [lia|]. intros n.
        specialize (H2 (S n)). cbn [take parenBalance] in H2. rewrite Eo in H2. lia.
    + destruct (Ascii.eqb ch ")") eqn:Ec.
      * destruct (k - 1 <? 0)%Z eqn:Hneg.
        -- apply Z.ltb_lt in Hneg. split; [discriminate|].
           intros [_ H2]. specialize (H2 1%nat).
           cbn [take parenBalance] in H2. rewrite Eo, Ec in H2. simpl in H2. lia.
        -- apply Z.ltb_ge in Hneg. rewrite IH by lia. split.
           ++ intros [H1 H2]. split; [lia|]. intros [|n]; cbn [take parenBalance].
              ** lia.
              ** rewrite Eo, Ec. specialize (H2 n). lia.
           ++ intros [H1 H2]. split; [lia|]. intros n.
              specialize (H2 (S n)). cbn [take parenBalance] in H2.
              rewrite Eo, Ec in H2. lia.
      * rewrite IH by lia. split.
        -- intros [H1 H2]. split; [lia|]. intros [|n]; cbn [take parenBalance].
           ++ lia.
           ++ rewrite Eo, Ec. specialize (H2 n). lia.
        -- intros [H1 H2]. split; [lia|]. intros n.
           specialize (H2 (S n)). cbn [take parenBalance] in H2.
           rewrite Eo, Ec in H2. lia.
Qed.

Lemma hasBalancedParentheses_spec (s : string) :
  hasBalancedParentheses s = true <-> Balanced s.
Proof.
  unfold hasBalancedParentheses, Balanced.
  rewrite balancedFrom_spec by lia. simpl. reflexivity.
Qed.

(** C3.  With the profile text read, the static phase rejects a text
    without the version declaration, a text whose parentheses are not
    balanced (the counter goes below zero at some prefix or does not
    end at zero) and a text with neither an allow nor a deny statement;
    in each case the only command run is the [cat] that read the file,
    so the live test with [sandbox-exec] is not run.  A text that
    passes the three checks goes on to the live test. *)
Theorem ValidateProfile_static_phase
        (exec : Exec) (profilePath content : string) :
  exec ["cat"; profilePath] = (content, None) ->
  let v := ValidateProfile exec profilePath in
  (hasBalancedParentheses content = true <-> Balanced content)
  /\ (Contains content "(version 1)" = false
      \/ ~ Balanced content
      \/ (Contains content "(allow " = false /\ Contains content "(deny " = false) ->
      verdict v <> None
      /\ ran v = [["cat"; profilePath]]
      /\ ~ In (sandboxExecTest profilePath) (ran v))
  /\ (staticChecks content = true ->
      ran v = [["cat"; profilePath]; sandboxExecTest profilePath]).
Proof.
  intros Hcat v. split; [apply hasBalancedParentheses_spec|].
  subst v. unfold ValidateProfile. rewrite Hcat.
  assert (Hnot : ~ In (sandboxExecTest profilePath) [["cat"; profilePath]]).
  { intros [H|[]]. discriminate. }
  split.
  - intros Hfail.
    destruct (Contains content "(version 1)") eqn:Ev; simpl.
    2:{ repeat split; [discriminate | exact Hnot]. }
    destruct (hasBalancedParentheses content) eqn:Eb; simpl.
    2:{ repeat split; [discriminate | exact Hnot]. }
    destruct Hfail as [H|[H|[Ha Hd]]].
    + discriminate.
    + exfalso. apply H. now apply hasBalancedParentheses_spec.
    + rewrite Ha, Hd. simpl. repeat split; [discriminate | exact Hnot].
  - unfold staticChecks. intros H.
    apply andb_true_iff in H as [H Had]. apply andb_true_iff in H as [Hv Hb].
    rewrite Hv, Hb. simpl.
    assert (negb (Contains content "(deny ") && negb (Contains content "(allow ") = false)
      as ->.
    { apply orb_true_iff in Had as [->| ->]; simpl; [reflexivity|apply andb_false_r]. }
    now destruct (exec (sandboxExecTest profilePath)) as [out [e|]].
Qed.

End ValidatorFacts.

Lemma ValidateProfile_static_phase_witness :
  let content := "(version 1)" ++ nl ++ "(deny default" ++ nl ++ "(allow file-read*)" in
  let exec : Seatbelt.Exec := fun _ => (content, None) in
  let v := Seatbelt.ValidateProfile exec "/tmp/srt-profile-1.sb" in
  exec ["cat"; "/tmp/srt-profile-1.sb"] = (content, None)
  /\ ~ Spec.Balanced content
  /\ Seatbelt.verdict v <> None
  /\ Seatbelt.ran v = [["cat"; "/tmp/srt-profile-1.sb"]].
Proof.
  intros content exec v.
  pose proof (ValidateProfile_static_phase exec "/tmp/srt-profile-1.sb" content eq_refl)
    as (Hbal & Hrej & _).
  assert (Hnb : ~ Spec.Balanced content).
  { intros Hb. apply Hbal in Hb. vm_compute in Hb. discriminate. }
  destruct (Hrej (or_intror (or_introl Hnb))) as (Hv & Hr & _).
  repeat split; assumption.
Defined.

(** ** Classification of violations *)

Section ViolationFacts.
Import Violations Spec.









End ViolationFacts.



(** ** The child environment *)

Section EnvironmentFacts.
Import Manager Spec.

Lemma needsNetworkProxy_spec (cfg : Config) :
  needsNetworkProxy cfg = true <->
  AllowedDomains (Net cfg) <> [] \/ DefaultPolicy (Net cfg) = "allow".
Proof.
  unfold needsNetworkProxy.
  destruct (AllowedDomains (Net cfg)) as [|a l]; simpl.
  - destruct (String.eqb (DefaultPolicy (Net cfg)) "allow") eqn:E.
    + apply String.eqb_eq in E. tauto.
    + apply String.eqb_neq in E. split; [discriminate|]. intros [H|H]; congruence.
  - split; [|reflexivity]. intros _. left. discriminate.
Qed.

(** The proxies of a manager exist together, and exactly when the
    configuration needs them. *)
Lemma NewManager_proxies (w : World) (cfg : Config) (m : Manager) :
  NewManager w cfg = Ok m ->
  managerID m = commandID w
  /\ if needsNetworkProxy cfg
     then exists http socks, httpProxy m = Some http /\ socksProxy m = Some socks
     else httpProxy m = None /\ socksProxy m = None.
Proof.
  unfold NewManager. destruct (needsNetworkProxy cfg).
  - unfold mbind, result_bind, bindR, wrapErr.
    destruct (Network.NewDomainFilter _ _ _ _) as [f|e]; [|discriminate].
    destruct (NewHTTPProxy w f _) as [http|e]; [|discriminate].
    destruct (NewSOCKSProxy w f _) as [socks|e]; [|discriminate].
    intros H. injection H as <-. simpl. eauto.
  - intros H. injection H as <-. simpl. auto.
Qed.

(** The environment of the command that [Execute] builds. *)
Lemma Execute_environment (w : World) (m : Manager) (command : list string) (cmd : Cmd) :
  Execute w m command = Some (Ok cmd) ->
  cmdEnv cmd =
    (environ w ++ [commandIDVar (managerID m)]
     ++ match httpProxy m, socksProxy m with
        | Some _, Some _ =>
            proxyVars (HTTPProxyPort (Net (config m))) (SOCKSProxyPort (Net (config m)))
        | _, _ => []
        end)%list.
Proof.
  unfold Execute. destruct command as [|c0 command]; [discriminate|].
  unfold bindO, liftR, wrapErr.
  destruct (Filesystem.NormalisePaths _ (DenyRead _)) as [dr|e]; [|discriminate].
  destruct (Filesystem.NormalisePaths _ (AllowWrite _ ++ _)) as [aw|e]; [|discriminate].
  destruct (Filesystem.NormalisePaths _ (DenyWrite _)) as [dw|e]; [|discriminate].
  destruct (Filesystem.NormalisePaths _ (AllowUnlink _ ++ _)) as [au|e]; [|discriminate].
  destruct (Seatbelt.GenerateSeatbeltProfile _ _ _ _ _ _ _ _ _ _ _ _) as [[profile|e]|];
    [|discriminate|discriminate].
  destruct (writeFile w _ _); [discriminate|].
  destruct (Seatbelt.verdict _); [discriminate|].
  intros H. injection H as <-. cbn [cmdEnv].
  destruct (httpProxy m), (socksProxy m); rewrite <- ?app_assoc; simpl;
    rewrite ?app_nil_r; reflexivity.
Qed.

Lemma hasVar_app (name : string) (a b : list string) :
  hasVar name (a ++ b) = hasVar name a || hasVar name b.
Proof. unfold hasVar. apply existsb_app. Qed.

(** C9, as the code has it.  For a manager made by [NewManager] from
    a configuration, the command that [Execute] builds has the
    inherited environment, then the command identifier, then the three
    proxy variables exactly when the allowed-domains list is not empty
    or the default policy is [allow].  When neither holds no proxy is
    created and [Execute] adds no proxy variable: each of the three is
    in the child environment exactly when the inherited environment
    already has it. *)
Theorem Execute_proxy_environment
        (w : World) (cfg : Config) (m : Manager) (command : list string) (cmd : Cmd) :
  NewManager w cfg = Ok m ->
  Execute w m command = Some (Ok cmd) ->
  let active := needsNetworkProxy cfg in
  (active = true <->
   AllowedDomains (Net cfg) <> [] \/ DefaultPolicy (Net cfg) = "allow")
  /\ cmdEnv cmd =
       (environ w ++ [commandIDVar (commandID w)]
        ++ (if active
            then proxyVars (HTTPProxyPort (Net (config m)))
                           (SOCKSProxyPort (Net (config m)))
            else []))%list
  /\ (active = true ->
      hasVar "HTTP_PROXY" (cmdEnv cmd) = true
      /\ hasVar "HTTPS_PROXY" (cmdEnv cmd) = true
      /\ hasVar "ALL_PROXY" (cmdEnv cmd) = true)
  /\ (active = false ->
      httpProxy m = None /\ socksProxy m = None
      /\ hasVar "HTTP_PROXY" (cmdEnv cmd) = hasVar "HTTP_PROXY" (environ w)
      /\ hasVar "HTTPS_PROXY" (cmdEnv cmd) = hasVar "HTTPS_PROXY" (environ w)
      /\ hasVar "ALL_PROXY" (cmdEnv cmd) = hasVar "ALL_PROXY" (environ w)).
Proof.
  intros Hnew Hexec active.
  destruct (NewManager_proxies _ _ _ Hnew) as [Hid Hprox].
  pose proof (Execute_environment _ _ _ _ Hexec) as Henv.
  rewrite Hid in Henv. subst active.
  split; [apply needsNetworkProxy_spec|].
  destruct (needsNetworkProxy cfg).
  - destruct Hprox as (http & socks & Hh & Hs). rewrite Hh, Hs in Henv.
    split; [exact Henv|]. split; [|discriminate].
    intros _. rewrite Henv, !hasVar_app.
    repeat split; apply orb_true_iff; right; apply orb_true_iff; right;
      unfold proxyVars, hasVar, existsb, HasPrefix;
      rewrite ?prefix_append; simpl; rewrite ?orb_true_r; reflexivity.
  - destruct Hprox as [Hh Hs]. rewrite Hh in Henv.
    split; [exact Henv|]. split; [discriminate|].
    intros _. rewrite Henv, !hasVar_app. simpl.
    rewrite !orb_false_r. auto.
Qed.

End EnvironmentFacts.

Lemma Execute_proxy_environment_witness :
  let w := Manager.exampleWorld ["PATH=/usr/bin"] in
  let cfg := Manager.exampleConfig "deny" ["github.com"] in
  exists m cmd,
    Manager.NewManager w cfg = Ok m
    /\ Manager.Execute w m ["/bin/ls"] = Some (Ok cmd)
    /\ Manager.cmdEnv cmd =
         ["PATH=/usr/bin"; "SRT_COMMAND_ID=c3J0LTQyNDI=";
          "HTTP_PROXY=http://localhost:49152"; "HTTPS_PROXY=http://localhost:49152";
          "ALL_PROXY=socks5://localhost:49153"].
Proof.
  intros w cfg.
  destruct (Manager.NewManager w cfg) as [m|e] eqn:Hnew; [|vm_compute in Hnew; discriminate].
  destruct (Manager.Execute w m ["/bin/ls"]) as [[cmd|e]|] eqn:Hexec.
  - exists m, cmd. split; [reflexivity|]. split; [exact Hexec|].
    destruct (Execute_proxy_environment w cfg m ["/bin/ls"] cmd Hnew Hexec)
      as (_ & Henv & _).
    rewrite Henv. vm_compute in Hnew. injection Hnew as <-. reflexivity.
  - exfalso. vm_compute in Hnew. injection Hnew as <-.
    vm_compute in Hexec. discriminate.
  - exfalso. vm_compute in Hnew. injection Hnew as <-.
    vm_compute in Hexec. discriminate.
Defined.

(** C9 as stated fails: with the network fully blocked the child still
    has [HTTP_PROXY] when the parent's environment has it, because the
    child's environment starts from [os.Environ()]. *)
Lemma Execute_proxy_environment_counterexample :
  let w := Manager.exampleWorld ["PATH=/usr/bin"; "HTTP_PROXY=http://proxy.corp:3128"] in
  let cfg := Manager.exampleConfig "deny" [] in
  exists m cmd,
    Manager.NewManager w cfg = Ok m
    /\ Manager.Execute w m ["/bin/ls"] = Some (Ok cmd)
    /\ Manager.needsNetworkProxy cfg = false
    /\ Manager.httpProxy m = None /\ Manager.socksProxy m = None
    /\ In "HTTP_PROXY=http://proxy.corp:3128" (Manager.cmdEnv cmd)
    /\ Spec.hasVar "HTTP_PROXY" (Manager.cmdEnv cmd) = true.
Proof.
  intros w cfg. eexists. eexists.
  split; [vm_compute; reflexivity|].
  split; [vm_compute; reflexivity|].
  split; [reflexivity|]. split; [reflexivity|]. split; [reflexivity|].
  split; [right; left; reflexivity | reflexivity].
Qed.

(** ** The pattern compiler: scanning *)

Section ScanFacts.
Import Filesystem Spec.

Lemma mem_app (c : ascii) (a b : string) : mem c (a ++ b) = mem c a || mem c b.
Proof.
  induction a as [|x a IH]; simpl; [reflexivity|].
  rewrite IH. now rewrite orb_assoc.
Qed.

(** [mem c s] reads: the byte [c] occurs in [s]. *)
Lemma mem_cons (c x : ascii) (s : string) :
  mem c (String x s) = Ascii.eqb c x || mem c s.
Proof. reflexivity. Qed.

Lemma ContainsAny_app (a b chars : string) :
  ContainsAny (a ++ b) chars = ContainsAny a chars || ContainsAny b chars.
Proof.
  induction a as [|x a IH]; simpl; [reflexivity|].
  rewrite IH. now rewrite orb_assoc.
Qed.

Lemma ContainsGlob_app (a b : string) :
  ContainsGlob (a ++ b) = ContainsGlob a || ContainsGlob b.
Proof. apply ContainsAny_app. Qed.

Lemma ContainsGlob_cons (c : ascii) (s : string) :
  ContainsGlob (String c s) = mem c "*?[{" || ContainsGlob s.
Proof. reflexivity. Qed.

Lemma ContainsGlob_drop (n : nat) (s : string) :
  ContainsGlob s = false -> ContainsGlob (drop n s) = false.
Proof.
  revert s. induction n as [|n IH]; intros s H; [exact H|].
  destruct s as [|c s]; [reflexivity|]. simpl.
  rewrite ContainsGlob_cons in H. apply orb_false_iff in H as [_ H]. now apply IH.
Qed.

Lemma scanClass_none (s : string) : mem "]" s = false -> scanClass s = None.
Proof.
  induction s as [|c s IH]; [reflexivity|].
  rewrite mem_cons. intros H. apply orb_false_iff in H as [Hc Hs].
  simpl. rewrite Ascii.eqb_sym, Hc, (IH Hs). reflexivity.
Qed.

Lemma scanClass_split (cls rest : string) :
  mem "]" cls = false -> scanClass (cls ++ String "]" rest) = Some (cls, rest).
Proof.
  induction cls as [|c cls IH]; [reflexivity|].
  rewrite mem_cons. intros H. apply orb_false_iff in H as [Hc Hs].
  simpl. rewrite Ascii.eqb_sym, Hc, (IH Hs). reflexivity.
Qed.

Lemma scanBrace_never (s : string) :
  forall d, (forall n, (0 < Z.of_nat d + braceBalance (take n s))%Z) ->
            scanBrace d s = None.
Proof.
  induction s as [|c s IH]; intros d H; [reflexivity|].
  cbn [scanBrace].
  set (d' := if Ascii.eqb c "{" then S d
             else if Ascii.eqb c "}" then Nat.pred d else d).
  assert (Hd0 : (0 < Z.of_nat d)%Z) by (specialize (H 0%nat); simpl in H; lia).
  assert (Hd' : (Z.of_nat d' = Z.of_nat d
                  + (if Ascii.eqb c "{" then 1 else if Ascii.eqb c "}" then -1 else 0))%Z).
  { subst d'. destruct (Ascii.eqb c "{"); [lia|]. destruct (Ascii.eqb c "}"); lia. }
  assert (Hnext : forall n, (0 < Z.of_nat d' + braceBalance (take n s))%Z).
  { intros n. specialize (H (S n)). cbn [take braceBalance] in H. lia. }
  destruct d' as [|d'']; [specialize (Hnext 0%nat); simpl in Hnext; lia|].
  rewrite (IH _ Hnext). reflexivity.
Qed.

Lemma scanBrace_split (inner rest : string) :
  forall d, (Z.of_nat d + braceBalance inner = 1)%Z ->
            (forall n, (0 < Z.of_nat d + braceBalance (take n inner))%Z) ->
            scanBrace d (inner ++ String "}" rest) = Some (inner, rest).
Proof.
  induction inner as [|c inner IH]; intros d Hd H.
  - simpl in Hd. assert (d = 1%nat) as -> by lia. reflexivity.
  - change (String c inner ++ String "}" rest)
      with (String c (inner ++ String "}" rest)).
    cbn [scanBrace].
    set (d' := if Ascii.eqb c "{" then S d
               else if Ascii.eqb c "}" then Nat.pred d else d).
    assert (Hd0 : (0 < Z.of_nat d)%Z) by (specialize (H 0%nat); simpl in H; lia).
    assert (Hd' : (Z.of_nat d' = Z.of_nat d
                    + (if Ascii.eqb c "{" then 1 else if Ascii.eqb c "}" then -1 else 0))%Z).
    { subst d'. destruct (Ascii.eqb c "{"); [lia|]. destruct (Ascii.eqb c "}"); lia. }
    assert (Hnext : forall n, (0 < Z.of_nat d' + braceBalance (take n inner))%Z).
    { intros n. specialize (H (S n)). cbn [take braceBalance] in H. lia. }
    assert (Hsum : (Z.of_nat d' + braceBalance inner = 1)%Z).
    { cbn [braceBalance] in Hd. lia. }
    destruct d' as [|d'']; [specialize (Hnext 0%nat); simpl in Hnext; lia|].
    rewrite (IH _ Hsum Hnext). reflexivity.
Qed.

Lemma scanBrace_GroupBody (inner rest : string) :
  GroupBody inner -> scanBrace 1 (inner ++ String "}" rest) = Some (inner, rest).
Proof.
  intros [H0 Hp]. apply scanBrace_split.
  - rewrite H0. reflexivity.
  - intros n. specialize (Hp n). lia.
Qed.

Lemma scanBrace_NeverCloses (rest : string) :
  NeverCloses rest -> scanBrace 1 rest = None.
Proof.
  intros H. apply scanBrace_never. intros n. specialize (H n). lia.
Qed.

Lemma emit_Ok_inv (out : string) (k : option (result string)) (r : string) :
  emit out k = Some (Ok r) -> exists r', k = Some (Ok r') /\ r = out ++ r'.
Proof.
  destruct k as [[r'|e]|]; simpl; intros H; try discriminate.
  injection H as <-. eauto.
Qed.

Lemma emit_noRegex (out : string) (k : option (result string)) :
  noRegex k -> noRegex (emit out k).
Proof.
  intros Hk r H. apply emit_Ok_inv in H as (r' & H & _). exact (Hk _ H).
Qed.

Lemma Unclosed_glob (s : string) : Unclosed s -> ContainsGlob s = true.
Proof.
  induction 1 as [rest H|rest H|cls rest Hc Hu IH|inner rest Hg Hu IH
                 |inner rest part Hg Hin Hu IH|ch rest H1 H2 Hu IH];
    try reflexivity.
  rewrite ContainsGlob_cons, IH. apply orb_true_r.
Qed.

Lemma Unclosed_byte (ch : ascii) (rest : string) :
  Unclosed (String ch rest) -> ch <> "["%char -> ch <> "{"%char -> Unclosed rest.
Proof. intros H H1 H2. inversion H; subst; congruence. Qed.

Lemma Unclosed_bracket (rest : string) :
  Unclosed (String "[" rest) ->
  scanClass rest = None
  \/ exists cls rest', scanClass rest = Some (cls, rest') /\ Unclosed rest'.
Proof.
  intros H. inversion H; subst; try congruence.
  - left. now apply scanClass_none.
  - right. eexists _, _. split; [now apply scanClass_split | assumption].
Qed.

Lemma Unclosed_brace (rest : string) :
  Unclosed (String "{" rest) ->
  scanBrace 1 rest = None
  \/ exists inner rest',
       scanBrace 1 rest = Some (inner, rest')
       /\ (Unclosed rest' \/ exists part, In part (Split inner ",") /\ Unclosed part).
Proof.
  intros H. inversion H; subst; try congruence.
  - left. now apply scanBrace_NeverCloses.
  - right. eexists _, _. split; [now apply scanBrace_GroupBody | now left].
  - right. eexists _, _. split; [now apply scanBrace_GroupBody | right; eauto].
Qed.

End ScanFacts.

(** ** The pattern compiler: errors *)

Section GlobErrors.
Import Filesystem Spec.

Lemma convertParts_noRegex (self : string -> option (result string))
      (parts : list string) (part : string) :
  In part parts -> noRegex (self part) ->
  forall idx, noRegex (convertParts self idx parts).
Proof.
  induction parts as [|p parts IH]; intros Hin Hno idx; [destruct Hin|].
  cbn [convertParts]. destruct Hin as [->|Hin].
  - destruct (self part) as [[c|e]|] eqn:E; intros r H; try discriminate.
    exact (Hno c eq_refl).
  - destruct (self p) as [[c|e]|]; try (intros r H; discriminate).
    apply emit_noRegex, IH; assumption.
Qed.

Lemma HasPrefix_byte (c d : ascii) (s : string) :
  HasPrefix (String c s) (String d EmptyString) = Ascii.eqb d c.
Proof.
  unfold HasPrefix. rewrite prefix_cons, prefix_empty. apply andb_true_r.
Qed.


(** The loop gives no regular expression on an unclosed pattern, as
    long as the recursive call gives none on one. *)
Lemma convertLoop_unclosed (self : string -> option (result string)) :
  (forall part, Unclosed part -> noRegex (self part)) ->
  forall n s, Unclosed s -> noRegex (convertLoop self n s).
Proof.
  intros Hself. induction n as [|n IH]; intros s Hu.
  - destruct s; [inversion Hu|]. intros r H. discriminate.
  - destruct s as [|ch rest]; [inversion Hu|].
    cbn [convertLoop].
    destruct (Ascii.eqb ch "*") eqn:E1.
    { apply Ascii.eqb_eq in E1. subst ch.
      assert (Hrest : Unclosed rest) by (apply (Unclosed_byte _ _ Hu); discriminate).
      destruct rest as [|c2 rest2].
      - inversion Hrest.
      - rewrite HasPrefix_byte. destruct (Ascii.eqb "*" c2) eqn:E2.
        + apply Ascii.eqb_eq in E2. subst c2.
          assert (Hrest2 : Unclosed rest2)
            by (apply (Unclosed_byte _ _ Hrest); discriminate).
          cbn [drop]. destruct rest2 as [|c3 rest3]; [inversion Hrest2|].
          rewrite HasPrefix_byte. destruct (Ascii.eqb "/" c3) eqn:E3.
          * apply Ascii.eqb_eq in E3. subst c3. cbn [drop].
            apply emit_noRegex, IH. apply (Unclosed_byte _ _ Hrest2); discriminate.
          * apply emit_noRegex, IH, Hrest2.
        + apply emit_noRegex, IH, Hrest. }
    destruct (Ascii.eqb ch "?") eqn:E2.
    { apply Ascii.eqb_eq in E2. subst ch.
      apply emit_noRegex, IH. apply (Unclosed_byte _ _ Hu); discriminate. }
    destruct (Ascii.eqb ch "[") eqn:E3.
    { apply Ascii.eqb_eq in E3. subst ch.
      destruct (Unclosed_bracket _ Hu) as [->|(cls & rest' & -> & Hu')].
      - intros r H. discriminate.
      - apply emit_noRegex, IH, Hu'. }
    destruct (Ascii.eqb ch "{") eqn:E4.
    { apply Ascii.eqb_eq in E4. subst ch.
      destruct (Unclosed_brace _ Hu) as [->|(inner & rest' & -> & Hcase)].
      - intros r H. discriminate.
      - destruct Hcase as [Hu'|(part & Hin & Hpart)].
        + destruct (convertParts self 0 (Split inner ",")) as [[alts|e]|];
            try (intros r H; discriminate).
          apply emit_noRegex, IH, Hu'.
        + pose proof (convertParts_noRegex self _ part Hin (Hself _ Hpart) 0%nat) as Hno.
          destruct (convertParts self 0 (Split inner ",")) as [[alts|e]|];
            try (intros r H; discriminate).
          exfalso. exact (Hno alts eq_refl). }
    apply Ascii.eqb_neq in E3, E4.
    assert (Hrest : Unclosed rest) by (apply (Unclosed_byte _ _ Hu); assumption).
    destruct (isRegexSpecial ch); apply emit_noRegex, IH, Hrest.
Qed.

Lemma GlobToRegexN_unclosed (env : Env) (depth : nat) :
  forall pattern, Unclosed pattern -> noRegex (GlobToRegexN env depth pattern).
Proof.
  induction depth as [|depth IH]; intros pattern Hu r H; [discriminate|].
  cbn [GlobToRegexN] in H. rewrite (Unclosed_glob _ Hu) in H.
  pose proof (convertLoop_unclosed _ IH (String.length pattern) pattern Hu) as Hno.
  destruct (convertLoop _ _ pattern) as [[body|e]|]; try discriminate.
  exact (Hno body eq_refl).
Qed.

(** *** The conversion returns *)

Lemma scanClass_length (s cls rest : string) :
  scanClass s = Some (cls, rest) ->
  String.length s = (String.length cls + 1 + String.length rest)%nat.
Proof.
  revert cls. induction s as [|c s IH]; intros cls H; [discriminate|].
  simpl in H. destruct (Ascii.eqb c "]").
  - injection H as <- <-. simpl. lia.
  - destruct (scanClass s) as [[cls' rest']|]; [|discriminate].
    injection H as <- <-. simpl. rewrite (IH cls' eq_refl). lia.
Qed.

Lemma scanBrace_length (s : string) :
  forall d inner rest,
    scanBrace d s = Some (inner, rest) ->
    String.length s = (String.length inner + 1 + String.length rest)%nat.
Proof.
  induction s as [|c s IH]; intros d inner rest H; [discriminate|].
  cbn [scanBrace] in H.
  destruct (if Ascii.eqb c "{" then S d
            else if Ascii.eqb c "}" then Nat.pred d else d) as [|d'].
  - injection H as <- <-. simpl. lia.
  - destruct (scanBrace (S d') s) as [[inner' rest']|] eqn:E; [|discriminate].
    injection H as <- <-. simpl. rewrite (IH _ _ _ E). lia.
Qed.

Lemma Split_length (s : string) (sep : ascii) (part : string) :
  In part (Split s sep) -> (String.length part <= String.length s)%nat.
Proof.
  revert part. induction s as [|c s IH]; intros part Hin.
  - destruct Hin as [<-|[]]. simpl. lia.
  - simpl in Hin. destruct (Ascii.eqb c sep).
    + destruct Hin as [<-|Hin]; simpl; [lia|]. specialize (IH _ Hin). lia.
    + destruct (Split s sep) as [|p ps] eqn:E.
      * destruct Hin as [<-|[]]. simpl. lia.
      * destruct Hin as [<-|Hin]; simpl.
        -- specialize (IH p (or_introl eq_refl)). lia.
        -- specialize (IH part (or_intror Hin)). lia.
Qed.

Lemma emit_returns (out : string) (k : option (result string)) :
  k <> None -> emit out k <> None.
Proof. destruct k as [[r|e]|]; simpl; congruence. Qed.

Lemma convertParts_returns (self : string -> option (result string))
      (parts : list string) :
  (forall part, In part parts -> self part <> None) ->
  forall idx, convertParts self idx parts <> None.
Proof.
  induction parts as [|p parts IH]; intros Hself idx; [discriminate|].
  cbn [convertParts].
  pose proof (Hself p (or_introl eq_refl)) as Hp.
  destruct (self p) as [[c|e]|]; [|discriminate|congruence].
  apply emit_returns, IH. intros part Hin. apply Hself. now right.
Qed.

(** The loop returns when it has a turn for every byte and the
    recursive call returns on every shorter string. *)
Lemma convertLoop_returns (self : string -> option (result string)) :
  forall n s,
    (String.length s <= n)%nat ->
    (forall part, (String.length part < String.length s)%nat -> self part <> None) ->
    convertLoop self n s <> None.
Proof.
  induction n as [|n IH]; intros s Hn Hself.
  - destruct s; [discriminate | simpl in Hn; lia].
  - destruct s as [|ch rest]; [discriminate|].
    simpl in Hn.
    assert (Hnext : forall t, (String.length t <= String.length rest)%nat ->
                              convertLoop self n t <> None).
    { intros t Ht. apply IH; [lia|]. intros part Hp. apply Hself. simpl. lia. }
    cbn [convertLoop].
    destruct (Ascii.eqb ch "*").
    { destruct (HasPrefix rest "*").
      - apply emit_returns, Hnext.
        destruct rest as [|c2 rest2]; [simpl; lia|]. cbn [drop].
        destruct (HasPrefix rest2 "/"); [|simpl; lia].
        destruct rest2; simpl; lia.
      - apply emit_returns, Hnext. lia. }
    destruct (Ascii.eqb ch "?"); [apply emit_returns, Hnext; lia|].
    destruct (Ascii.eqb ch "[").
    { destruct (scanClass rest) as [[cls rest']|] eqn:E; [|discriminate].
      apply scanClass_length in E. apply emit_returns, Hnext. lia. }
    destruct (Ascii.eqb ch "{").
    { destruct (scanBrace 1 rest) as [[inner rest']|] eqn:E; [|discriminate].
      apply scanBrace_length in E.
      assert (Hparts : convertParts self 0 (Split inner ",") <> None).
      { apply convertParts_returns. intros part Hin. apply Hself.
        apply Split_length in Hin. simpl. lia. }
      destruct (convertParts self 0 (Split inner ",")) as [[alts|e]|];
        [|discriminate|congruence].
      apply emit_returns, Hnext. lia. }
    destruct (isRegexSpecial ch); apply emit_returns, Hnext; lia.
Qed.

(** Without glob characters the loop makes no recursive call. *)
Lemma convertLoop_plain_returns (self : string -> option (result string)) :
  forall n s,
    (String.length s <= n)%nat -> ContainsGlob s = false ->
    convertLoop self n s <> None.
Proof.
  induction n as [|n IH]; intros s Hn Hg.
  - destruct s; [discriminate | simpl in Hn; lia].
  - destruct s as [|ch rest]; [discriminate|].
    simpl in Hn. rewrite ContainsGlob_cons in Hg.
    apply orb_false_iff in Hg as [Hch Hrest].
    simpl in Hch. repeat (apply orb_false_iff in Hch as [? Hch]).
    cbn [convertLoop].
    repeat match goal with H : Ascii.eqb ch _ = false |- _ => rewrite H; clear H end.
    destruct (isRegexSpecial ch); apply emit_returns, IH; solve [lia | assumption].
Qed.

Lemma GlobToRegexN_returns (env : Env) :
  PlainPaths env ->
  forall depth pattern,
    (String.length pattern < depth)%nat ->
    GlobToRegexN env depth pattern <> None.
Proof.
  intros Henv. induction depth as [|depth IH]; intros pattern Hd; [lia|].
  cbn [GlobToRegexN].
  destruct (ContainsGlob pattern) eqn:Hg.
  - assert (H : convertLoop (GlobToRegexN env depth) (String.length pattern) pattern
                <> None).
    { apply convertLoop_returns; [lia|]. intros part Hp. apply IH. lia. }
    destruct (convertLoop _ _ pattern) as [[body|e]|]; congruence.
  - destruct (NormalisePath env pattern) as [q|e] eqn:Eq; [|discriminate].
    assert (H : convertLoop (GlobToRegexN env depth) (String.length q) q <> None).
    { apply convertLoop_plain_returns; [lia|]. exact (Henv _ _ Hg Eq). }
    destruct (convertLoop _ _ q) as [[body|e]|]; congruence.
Qed.

Lemma GlobToRegex_returns (env : Env) (pattern : string) :
  PlainPaths env -> GlobToRegex env pattern <> None.
Proof. intros Henv. apply GlobToRegexN_returns; [exact Henv | lia]. Qed.

(** C7.  A pattern with an unclosed bracket class or an unclosed brace
    group never yields a regular expression, at any depth of the
    recursion; and where normalising a plain path introduces no glob
    character, so that the conversion returns, it returns an error. *)
Theorem GlobToRegex_unclosed_fails (env : Env) (pattern : string) :
  Unclosed pattern ->
  (forall depth, noRegex (GlobToRegexN env depth pattern))
  /\ noRegex (GlobToRegex env pattern)
  /\ (PlainPaths env -> exists err, GlobToRegex env pattern = Some (Err err)).
Proof.
  intros Hu. split; [|split].
  - intros depth. now apply GlobToRegexN_unclosed.
  - now apply GlobToRegexN_unclosed.
  - intros Henv.
    pose proof (GlobToRegex_returns env pattern Henv) as Hret.
    pose proof (GlobToRegexN_unclosed env (S (String.length pattern)) _ Hu) as Hno.
    unfold GlobToRegex in *.
    destruct (GlobToRegexN env _ pattern) as [[r|e]|]; [|eauto|congruence].
    exfalso. exact (Hno r eq_refl).
Qed.

End GlobErrors.

Lemma exampleEnv_NormalisePath (p : string) :
  Filesystem.NormalisePath Globs.exampleEnv p =
  Ok (let t := if HasPrefix p "~" then "/home/user" ++ drop 1 p else p in
      if HasPrefix t "/" then t else "/work/" ++ t).
Proof.
  unfold Filesystem.NormalisePath, Globs.exampleEnv.
  cbn [Filesystem.UserHomeDir Filesystem.filepath_Join Filesystem.filepath_Abs
       Filesystem.filepath_EvalSymlinks Filesystem.os_IsNotExist].
  unfold mbind, result_bind, bindR, wrapErr.
  destruct (HasPrefix p "~"); cbv beta zeta;
    match goal with |- context [HasPrefix ?t "/"] => destruct (HasPrefix t "/") end;
    reflexivity.
Qed.

Lemma exampleEnv_PlainPaths : Spec.PlainPaths Globs.exampleEnv.
Proof.
  intros p q Hp. rewrite exampleEnv_NormalisePath. cbv zeta.
  set (t := if HasPrefix p "~" then "/home/user" ++ drop 1 p else p).
  assert (Ht : Filesystem.ContainsGlob t = false).
  { subst t. destruct (HasPrefix p "~"); [|exact Hp].
    rewrite ContainsGlob_app, (ContainsGlob_drop 1 p Hp). reflexivity. }
  destruct (HasPrefix t "/"); intros H; injection H as <-; [exact Ht|].
  change (Filesystem.ContainsGlob ("/work/" ++ t) = false).
  rewrite ContainsGlob_app, Ht. reflexivity.
Qed.

Lemma GroupBody_example : Spec.GroupBody "a,b[c".
Proof.
  split; [reflexivity|]. intros n.
  do 6 (destruct n as [|n]; [simpl; lia|]). simpl. lia.
Qed.

Lemma GlobToRegex_unclosed_fails_witness :
  Spec.Unclosed "src/{a,b[c}.go"
  /\ Spec.PlainPaths Globs.exampleEnv
  /\ exists err, Filesystem.GlobToRegex Globs.exampleEnv "src/{a,b[c}.go" = Some (Err err).
Proof.
  assert (Hu : Spec.Unclosed "src/{a,b[c}.go").
  { do 4 (apply Spec.UnclosedAfterByte; [discriminate | discriminate |]).
    apply (Spec.UnclosedInGroup "a,b[c" ".go" "b[c").
    - exact GroupBody_example.
    - right. left. reflexivity.
    - apply Spec.UnclosedAfterByte; [discriminate | discriminate |].
      apply Spec.UnclosedBracket. reflexivity. }
  split; [exact Hu|]. split; [exact exampleEnv_PlainPaths|].
  exact (proj2 (proj2 (GlobToRegex_unclosed_fails Globs.exampleEnv _ Hu))
               exampleEnv_PlainPaths).
Defined.

(** ** Regular expressions: the matcher decides the language *)

Section RegexFacts.
Import Regexp Spec.

Lemma append_nil_inv (a b : string) :
  a ++ b = EmptyString -> a = EmptyString /\ b = EmptyString.
Proof. destruct a; [auto | discriminate]. Qed.

Lemma nullable_lang (r : regex) : nullable r = true <-> lang r EmptyString.
Proof.
  split.
  - induction r as [| |c| |neg items|r1 IH1 r2 IH2|r1 IH1 r2 IH2|r IH]; simpl;
      intros H; try discriminate.
    + constructor.
    + apply andb_true_iff in H as [H1 H2].
      change EmptyString with (EmptyString ++ EmptyString). constructor; auto.
    + apply orb_true_iff in H as [H|H]; [apply LangAltL | apply LangAltR]; auto.
    + constructor.
  - intros H. remember EmptyString as s eqn:Hs.
    induction H as [|c|c Hc|neg items c Hc|r1 r2 s1 s2 H1 IH1 H2 IH2
                   |r1 r2 s H IH|r1 r2 s H IH|r|r s1 s2 H1 IH1 H2 IH2];
      simpl; try discriminate; try reflexivity.
    + apply append_nil_inv in Hs as [-> ->]. now rewrite IH1, IH2.
    + now rewrite IH.
    + rewrite IH by assumption. apply orb_true_r.
Qed.

Lemma lang_star_cons (r : regex) (c : ascii) (s : string) :
  lang (Star r) (String c s) ->
  exists s1 s2, s = s1 ++ s2 /\ lang r (String c s1) /\ lang (Star r) s2.
Proof.
  intros H. remember (Star r) as rr eqn:Hr. remember (String c s) as t eqn:Ht.
  revert c s Ht.
  induction H as [|d|d Hd|neg items d Hd|r1 r2 s1 s2 H1 IH1 H2 IH2
                 |r1 r2 s0 H IH|r1 r2 s0 H IH|r0|r0 s1 s2 H1 IH1 H2 IH2];
    intros c s Ht; try discriminate.
  injection Hr as ->. destruct s1 as [|c1 s1].
  - simpl in Ht. exact (IH2 eq_refl c s Ht).
  - injection Ht as -> <-. exists s1, s2. auto.
Qed.

Lemma deriv_sound (r : regex) :
  forall c s, lang (deriv c r) s -> lang r (String c s).
Proof.
  induction r as [| |d| |neg items|r1 IH1 r2 IH2|r1 IH1 r2 IH2|r IH];
    intros c s H; simpl in H.
  - inversion H.
  - inversion H.
  - destruct (Ascii.eqb c d) eqn:E; inversion H; subst.
    apply Ascii.eqb_eq in E. subst. constructor.
  - destruct (dotMatches c) eqn:E; inversion H; subst. now constructor.
  - destruct (classMatches neg items c) eqn:E; inversion H; subst. now constructor.
  - assert (Hcat : forall t, lang (Cat (deriv c r1) r2) t -> lang (Cat r1 r2) (String c t)).
    { intros t Ht. inversion Ht; subst.
      change (String c (s1 ++ s2)) with (String c s1 ++ s2). constructor; auto. }
    destruct (nullable r1) eqn:En; [|now apply Hcat].
    inversion H; subst; [now apply Hcat|].
    change (String c s) with (EmptyString ++ String c s).
    constructor; [now apply nullable_lang | auto].
  - inversion H; subst; [apply LangAltL | apply LangAltR]; auto.
  - inversion H; subst.
    change (String c (s1 ++ s2)) with (String c s1 ++ s2). constructor; auto.
Qed.

Lemma deriv_complete (r : regex) (t : string) :
  lang r t -> forall c s, t = String c s -> lang (deriv c r) s.
Proof.
  induction 1 as [|d|d Hd|neg items d Hd|r1 r2 s1 s2 H1 IH1 H2 IH2
                 |r1 r2 s0 H IH|r1 r2 s0 H IH|r0|r0 s1 s2 H1 IH1 H2 IH2];
    intros c s Ht; try discriminate.
  - injection Ht as -> <-. simpl. rewrite Ascii.eqb_refl. constructor.
  - injection Ht as -> <-. simpl. rewrite Hd. constructor.
  - injection Ht as -> <-. simpl. rewrite Hd. constructor.
  - simpl. destruct s1 as [|c1 s1].
    + simpl in Ht. apply nullable_lang in H1. rewrite H1.
      apply LangAltR. now apply IH2.
    + injection Ht as -> <-.
      assert (Hc : lang (Cat (deriv c r1) r2) (s1 ++ s2)).
      { constructor; [now apply IH1 | assumption]. }
      destruct (nullable r1); [now apply LangAltL | assumption].
  - simpl. apply LangAltL. now apply IH.
  - simpl. apply LangAltR. now apply IH.
  - destruct s1 as [|c1 s1].
    + simpl in Ht. now apply IH2.
    + injection Ht as -> <-. simpl. constructor; [now apply IH1 | assumption].
Qed.

Lemma matches_lang (s : string) : forall r, matches r s = true <-> lang r s.
Proof.
  induction s as [|c s IH]; intros r; simpl.
  - apply nullable_lang.
  - rewrite IH. split.
    + apply deriv_sound.
    + intros H. exact (deriv_complete _ _ H c s eq_refl).
Qed.

(** *** The languages of the pieces *)



Lemma lang_Class (neg : bool) (items : list (ascii * ascii)) (t : string) :
  lang (Class neg items) t <->
  exists c, t = String c EmptyString /\ classMatches neg items c = true.
Proof.
  split.
  - intros H. inversion H; subst. eauto.
  - intros (c & -> & Hc). now constructor.
Qed.

Lemma lang_Lit (c : ascii) (t : string) : lang (Lit c) t <-> t = String c EmptyString.
Proof.
  split.
  - intros H. now inversion H.
  - intros ->. constructor.
Qed.

Lemma lang_Cat (r1 r2 : regex) (t : string) :
  lang (Cat r1 r2) t <-> exists s1 s2, t = s1 ++ s2 /\ lang r1 s1 /\ lang r2 s2.
Proof.
  split.
  - intros H. inversion H; subst. eauto.
  - intros (s1 & s2 & -> & H1 & H2). now constructor.
Qed.

Lemma lang_Eps (t : string) : lang Eps t <-> t = EmptyString.
Proof.
  split.
  - intros H. now inversion H.
  - intros ->. constructor.
Qed.


Lemma allBytes_ext (P Q : ascii -> bool) (s : string) :
  (forall c, P c = Q c) -> allBytes P s = allBytes Q s.
Proof. intros H. induction s as [|c s IH]; simpl; [reflexivity | now rewrite H, IH]. Qed.

Lemma byte_le_antisym (a c : ascii) :
  byte_le a c && byte_le c a = Ascii.eqb a c.
Proof.
  unfold byte_le. destruct (Ascii.eqb a c) eqn:E.
  - apply Ascii.eqb_eq in E. subst. rewrite Nat.leb_refl. reflexivity.
  - apply Ascii.eqb_neq in E.
    destruct (nat_of_ascii a <=? nat_of_ascii c)%nat eqn:E1; [|reflexivity].
    destruct (nat_of_ascii c <=? nat_of_ascii a)%nat eqn:E2; [|reflexivity].
    apply Nat.leb_le in E1, E2. exfalso. apply E.
    rewrite <- (ascii_nat_embedding a), <- (ascii_nat_embedding c).
    f_equal. lia.
Qed.





End RegexFacts.

(** ** Parsing what the compiler emits *)

Section ParseFacts.
Import Regexp Spec.













(** *** Reading [GlobMatches] by the head of the pattern *)










End ParseFacts.

(** ** The pattern compiler: what the result matches *)

Section GlobMatching.
Import Filesystem Globs Regexp Spec.









End GlobMatching.



(** ** Brace groups *)

Section BraceFacts.
Import Filesystem Globs Spec.

Lemma GroupBody_nested : GroupBody "a,{b,c}".
Proof.
  split; [reflexivity|]. intros n.
  do 8 (destruct n as [|n]; [simpl; lia|]). simpl. lia.
Qed.

Lemma Unclosed_nested : Unclosed "{a,{b,c}}".
Proof.
  apply (UnclosedInGroup "a,{b,c}" EmptyString "{b").
  - exact GroupBody_nested.
  - right. left. reflexivity.
  - apply UnclosedBrace. intros n. do 2 (destruct n as [|n]; [simpl; lia|]). simpl. lia.
Qed.

(** C6 at the failing input.  The group of [{a,{b,c}}] is found with
    its nesting, but its text is then split at every comma, the nested
    one too: the alternatives are [a], [{b] and [c}], the second has a
    brace that never closes, and the conversion gives no regular
    expression in any environment; in the example environment it fails
    with the unclosed-brace error.  (An alternative without glob
    characters is moreover normalised as a path of its own.) *)
Theorem GlobToRegex_nested_braces (env : Env) :
  scanBrace 1 "a,{b,c}}" = Some ("a,{b,c}", EmptyString)
  /\ Split "a,{b,c}" "," = ["a"; "{b"; "c}"]
  /\ noRegex (GlobToRegex env "{a,{b,c}}")
  /\ GlobToRegex exampleEnv "{a,{b,c}}" = Some (Err (Errorf "unclosed brace in pattern"))
  /\ GlobToRegex exampleEnv "*.{js,ts}" = Some (Ok "^[^/]*\.(/work/js|/work/ts)$")
  /\ MatchGlob exampleEnv "*.{js,ts}" "main.js" = Some (Ok false).
Proof.
  split; [reflexivity|]. split; [reflexivity|].
  split; [apply GlobToRegexN_unclosed, Unclosed_nested|].
  repeat split; vm_compute; reflexivity.
Qed.

End BraceFacts.

(** ** The profile generator: sections *)

Ltac norm_append :=
  repeat first [ rewrite append_assoc | rewrite append_empty_r
               | progress cbn [String.append] ].

Section ProfileSections.
Import Filesystem Seatbelt Spec.

Lemma writeRules_rules (env : Env) (action : string) (paths : list string) :
  forall sb out,
    writeRules env action paths sb = Some (Ok out) ->
    exists rules, Forall2 (RuleFor env action) paths rules
                  /\ out = sb ++ concatAll rules.
Proof.
  induction paths as [|path rest IH]; intros sb out H.
  - injection H as <-. exists []. split; [constructor|].
    simpl. now rewrite append_empty_r.
  - cbn [writeRules] in H. destruct (ContainsGlob path) eqn:Hg.
    + destruct (GlobToRegex env path) as [[regex|e]|] eqn:Hr; try discriminate.
      apply IH in H as (rules & Hrules & ->).
      exists (regexRule action regex :: rules). split.
      * constructor; [now apply RuleRegex | assumption].
      * unfold regexRule, concatAll, nl, dq. cbn [fold_right]. norm_append. reflexivity.
    + apply IH in H as (rules & Hrules & ->).
      exists (subpathRule action path :: rules). split.
      * constructor; [now apply RuleSubpath | assumption].
      * unfold subpathRule, concatAll, nl, dq. cbn [fold_right]. norm_append. reflexivity.
Qed.

Lemma writeGroup_block (env : Env) (comment action : string) (paths : list string) :
  forall sb out,
    writeGroup env comment action paths sb = Some (Ok out) ->
    exists rules, Forall2 (RuleFor env action) paths rules
                  /\ out = sb ++ block comment rules.
Proof.
  intros sb out H. unfold writeGroup in H. destruct paths as [|path rest].
  - injection H as <-. exists []. split; [constructor|].
    unfold block. simpl. now rewrite append_empty_r.
  - destruct (writeRules env action (path :: rest) (sb ++ comment ++ nl))
      as [[sb'|e]|] eqn:Hw; try discriminate.
    injection H as <-. apply writeRules_rules in Hw as (rules & Hrules & ->).
    exists rules. split; [assumption|].
    inversion Hrules; subst. unfold block. norm_append. reflexivity.
Qed.

Lemma andThen_Ok (r : option (result string)) (k : string -> option (result string))
      (out : string) :
  andThen r k = Some (Ok out) -> exists sb, r = Some (Ok sb) /\ k sb = Some (Ok out).
Proof. destruct r as [[sb|e]|]; simpl; intros H; try discriminate. eauto. Qed.

(** The text of a profile, section by section. *)
Lemma GenerateSeatbeltProfile_sections
      (env : Env) (httpProxyPort socksProxyPort : Z) (enableProxy : bool)
      (denyReadPaths allowWritePaths denyWritePaths allowUnlinkPaths : list string)
      (allowFork allowSysctlRead allowMachLookup allowPosixShm : bool)
      (profile : string) :
  GenerateSeatbeltProfile env httpProxyPort socksProxyPort enableProxy
    denyReadPaths allowWritePaths denyWritePaths allowUnlinkPaths
    allowFork allowSysctlRead allowMachLookup allowPosixShm = Some (Ok profile) ->
  exists readRules allowRules denyRules unlinkRules,
    Forall2 (RuleFor env "deny file-read*") denyReadPaths readRules
    /\ Forall2 (RuleFor env "allow file-write*") allowWritePaths allowRules
    /\ Forall2 (RuleFor env "deny file-write*") denyWritePaths denyRules
    /\ Forall2 (RuleFor env "allow file-write-unlink") allowUnlinkPaths unlinkRules
    /\ profile =
         versionLine
         ++ processSection allowFork allowSysctlRead allowMachLookup allowPosixShm
         ++ networkSection enableProxy httpProxyPort socksProxyPort
         ++ readSection readRules
         ++ writeSection allowRules denyRules
         ++ unlinkSection unlinkRules.
Proof.
  unfold GenerateSeatbeltProfile. intros H.
  apply andThen_Ok in H as (sb1 & H1 & H).
  apply andThen_Ok in H as (sb2 & H2 & H).
  apply andThen_Ok in H as (sb3 & H3 & H).
  apply andThen_Ok in H as (sb4 & H4 & H).
  injection H as <-.
  apply writeGroup_block in H1 as (readRules & Hr & ->).
  apply writeGroup_block in H2 as (allowRules & Ha & ->).
  apply writeGroup_block in H3 as (denyRules & Hd & ->).
  apply writeGroup_block in H4 as (unlinkRules & Hu & ->).
  exists readRules, allowRules, denyRules, unlinkRules.
  repeat (split; [assumption|]).
  unfold versionLine, processSection, networkSection, loopbackRule,
    readSection, writeSection, unlinkSection.
  destruct allowFork, allowSysctlRead, allowMachLookup, allowPosixShm, enableProxy;
    unfold nl, dq; norm_append; reflexivity.
Qed.

End ProfileSections.

(** C2.  A profile that [GenerateSeatbeltProfile] returns is, in this
    order: the version line; the process section (exec always, fork,
    sysctl-read, mach-lookup and shared memory each under its flag);
    the network section (deny all, then, only with the proxy enabled,
    the loopback host at the two proxy ports); the read section (allow
    all, then one deny rule per read-deny entry); the write section
    (deny all, then one allow rule per write-allow entry, then one deny
    rule per write-deny entry); the unlink section (deny all, then one
    allow rule per unlink-allow entry).  The rule of an entry is a
    regex rule when the entry has glob syntax and a subpath rule
    otherwise, and the write-deny rules all come after the write-allow
    rules. *)
Theorem GenerateSeatbeltProfile_order
        (env : Filesystem.Env) (httpProxyPort socksProxyPort : Z) (enableProxy : bool)
        (denyReadPaths allowWritePaths denyWritePaths allowUnlinkPaths : list string)
        (allowFork allowSysctlRead allowMachLookup allowPosixShm : bool)
        (profile : string) :
  Seatbelt.GenerateSeatbeltProfile env httpProxyPort socksProxyPort enableProxy
    denyReadPaths allowWritePaths denyWritePaths allowUnlinkPaths
    allowFork allowSysctlRead allowMachLookup allowPosixShm = Some (Ok profile) ->
  exists readRules allowRules denyRules unlinkRules,
    Forall2 (Spec.RuleFor env "deny file-read*") denyReadPaths readRules
    /\ Forall2 (Spec.RuleFor env "allow file-write*") allowWritePaths allowRules
    /\ Forall2 (Spec.RuleFor env "deny file-write*") denyWritePaths denyRules
    /\ Forall2 (Spec.RuleFor env "allow file-write-unlink") allowUnlinkPaths unlinkRules
    /\ profile =
         Spec.versionLine
         ++ Spec.processSection allowFork allowSysctlRead allowMachLookup allowPosixShm
         ++ Spec.networkSection enableProxy httpProxyPort socksProxyPort
         ++ Spec.readSection readRules
         ++ Spec.writeSection allowRules denyRules
         ++ Spec.unlinkSection unlinkRules
    /\ exists before between after,
         profile = before ++ Spec.concatAll allowRules ++ between
                          ++ Spec.concatAll denyRules ++ after.
Proof.
  intros H.
  destruct (GenerateSeatbeltProfile_sections _ _ _ _ _ _ _ _ _ _ _ _ _ H)
    as (readRules & allowRules & denyRules & unlinkRules & Hr & Ha & Hd & Hu & Hp).
  exists readRules, allowRules, denyRules, unlinkRules.
  repeat (split; [assumption|]).
  rewrite Hp. unfold Spec.writeSection, Spec.block.
  exists (Spec.versionLine
          ++ Spec.processSection allowFork allowSysctlRead allowMachLookup allowPosixShm
          ++ Spec.networkSection enableProxy httpProxyPort socksProxyPort
          ++ Spec.readSection readRules
          ++ "; Filesystem writes - deny by default" ++ nl
          ++ "(deny file-write*)" ++ nl ++ nl
          ++ match allowRules with
             | [] => EmptyString
             | _ :: _ => "; Allow writes to specific paths" ++ nl
             end),
    (match allowRules with [] => EmptyString | _ :: _ => nl end
     ++ match denyRules with
        | [] => EmptyString
        | _ :: _ => "; Deny specific writes within allowed paths" ++ nl
        end),
    (match denyRules with [] => EmptyString | _ :: _ => nl end
     ++ Spec.unlinkSection unlinkRules).
  norm_append. reflexivity.
Qed.

Lemma GenerateSeatbeltProfile_order_witness :
  exists profile,
    Seatbelt.GenerateSeatbeltProfile Globs.exampleEnv 8080 1080 true
      ["/home/user/.ssh"] ["/tmp"; "/work/build/**"] ["/tmp/.env*"] []
      true false false false = Some (Ok profile)
    /\ exists readRules allowRules denyRules,
         readRules = [Spec.subpathRule "deny file-read*" "/home/user/.ssh"]
         /\ allowRules = [Spec.subpathRule "allow file-write*" "/tmp";
                          Spec.regexRule "allow file-write*" "^/work/build/.*$"]
         /\ denyRules = [Spec.regexRule "deny file-write*" "^/tmp/\.env[^/]*$"]
         /\ profile =
              Spec.versionLine
              ++ Spec.processSection true false false false
              ++ Spec.networkSection true 8080 1080
              ++ Spec.readSection readRules
              ++ Spec.writeSection allowRules denyRules
              ++ Spec.unlinkSection [].
Proof.
  destruct (Seatbelt.GenerateSeatbeltProfile Globs.exampleEnv 8080 1080 true
              ["/home/user/.ssh"] ["/tmp"; "/work/build/**"] ["/tmp/.env*"] []
              true false false false) as [[profile|e]|] eqn:Hgen;
    [|vm_compute in Hgen; discriminate|vm_compute in Hgen; discriminate].
  exists profile. split; [reflexivity|].
  destruct (GenerateSeatbeltProfile_order _ _ _ _ _ _ _ _ _ _ _ _ _ Hgen)
    as (readRules & allowRules & denyRules & unlinkRules & Hr & Ha & Hd & Hu & Hp & _).
  vm_compute in Hgen. injection Hgen as <-.
  eexists _, _, _. repeat split.
Defined.

(** ** The profile generator: the static checks *)

Section QuietFacts.
Import Filesystem Seatbelt Spec.

Lemma balancedFrom_app (s : string) :
  forall j k b,
    (0 <= j)%Z -> (0 <= k)%Z -> balancedFrom j s = true ->
    balancedFrom (j + k) (s ++ b) = balancedFrom k b.
Proof.
  induction s as [|c s IH]; intros j k b Hj Hk H.
  - simpl in H. apply Z.eqb_eq in H. subst j. reflexivity.
  - change (String c s ++ b) with (String c (s ++ b)).
    cbn [balancedFrom] in H |- *.
    destruct (Ascii.eqb c "(").
    + replace (j + k + 1)%Z with ((j + 1) + k)%Z by lia. apply IH; [lia | lia | exact H].
    + destruct (Ascii.eqb c ")").
      * destruct (j - 1 <? 0)%Z eqn:E; [discriminate|]. apply Z.ltb_ge in E.
        assert ((j + k - 1 <? 0)%Z = false) as -> by (apply Z.ltb_ge; lia).
        replace (j + k - 1)%Z with ((j - 1) + k)%Z by lia. apply IH; [lia | lia | exact H].
      * apply IH; assumption.
Qed.

Lemma balanced_app (a b : string) :
  hasBalancedParentheses a = true -> hasBalancedParentheses b = true ->
  hasBalancedParentheses (a ++ b) = true.
Proof.
  unfold hasBalancedParentheses. intros Ha Hb.
  pose proof (balancedFrom_app a 0 0 b (Z.le_refl 0) (Z.le_refl 0) Ha) as H.
  change (0 + 0)%Z with 0%Z in H. now rewrite H.
Qed.

Lemma balanced_wrap (m : string) :
  hasBalancedParentheses m = true ->
  hasBalancedParentheses ("(" ++ m ++ ")") = true.
Proof.
  unfold hasBalancedParentheses. intros Hm.
  change ("(" ++ m ++ ")") with (String "(" (m ++ ")")).
  cbn [balancedFrom]. change (Ascii.eqb "(" "(") with true. cbv iota.
  change (0 + 1)%Z with (0 + 1)%Z.
  rewrite (balancedFrom_app m 0 1 ")"); [reflexivity | lia | lia | exact Hm].
Qed.

Lemma noParens_cons (c : ascii) (s : string) :
  noParens (String c s)
  = negb (Ascii.eqb c "(") && negb (Ascii.eqb c ")") && noParens s.
Proof.
  unfold noParens. rewrite !mem_cons, !negb_orb.
  rewrite (Ascii.eqb_sym "(" c), (Ascii.eqb_sym ")" c).
  destruct (Ascii.eqb c "("), (Ascii.eqb c ")"), (mem "(" s), (mem ")" s); reflexivity.
Qed.

Lemma noParens_app (a b : string) :
  noParens (a ++ b) = noParens a && noParens b.
Proof.
  unfold noParens. rewrite !mem_app, !negb_orb.
  destruct (mem "(" a), (mem ")" a), (mem "(" b), (mem ")" b); reflexivity.
Qed.

Lemma noParens_cons_inv (c : ascii) (s : string) :
  noParens (String c s) = true ->
  Ascii.eqb c "(" = false /\ Ascii.eqb c ")" = false /\ noParens s = true.
Proof.
  rewrite noParens_cons. intros H.
  apply andb_true_iff in H as [H Hs]. apply andb_true_iff in H as [H1 H2].
  apply negb_true_iff in H1, H2. auto.
Qed.

Lemma noParens_balancedFrom (s : string) (k : Z) :
  noParens s = true -> balancedFrom k s = (k =? 0)%Z.
Proof.
  revert k. induction s as [|c s IH]; intros k H; [reflexivity|].
  apply noParens_cons_inv in H as (H1 & H2 & Hs).
  cbn [balancedFrom]. rewrite H1, H2. now apply IH.
Qed.

Lemma noParens_balanced (s : string) :
  noParens s = true -> hasBalancedParentheses s = true.
Proof. intros H. unfold hasBalancedParentheses. now rewrite noParens_balancedFrom. Qed.

(** *** Looking for the version declaration *)

Lemma scanDecl_app (a b : string) :
  forall k, scanDecl k (a ++ b) = match scanDecl k a with
                                  | Some k' => scanDecl k' b
                                  | None => None
                                  end.
Proof.
  induction a as [|c a IH]; intros k; [reflexivity|].
  change (String c a ++ b) with (String c (a ++ b)). cbn [scanDecl].
  destruct (Ascii.eqb c "("); [apply IH|].
  destruct (String.get k versionDecl) as [d|]; [|apply IH].
  destruct (Ascii.eqb c d); [|apply IH].
  destruct (k =? 10)%nat; [reflexivity | apply IH].
Qed.

Lemma get_mem (s : string) :
  forall k d, String.get k s = Some d -> mem d s = true.
Proof.
  induction s as [|c s IH]; intros k d H; [destruct k; discriminate|].
  rewrite mem_cons. destruct k as [|k]; simpl in H.
  - injection H as ->. now rewrite Ascii.eqb_refl.
  - rewrite (IH _ _ H). apply orb_true_r.
Qed.

(** A byte that is not in the declaration ends any reading of it. *)
Lemma scanDecl_foreign (c : ascii) (s : string) (k : nat) :
  mem c versionDecl = false -> scanDecl k (String c s) = scanDecl 0 s.
Proof.
  intros Hc. cbn [scanDecl].
  assert (Ascii.eqb c "(" = false) as ->.
  { apply not_true_is_false. intros E. apply Ascii.eqb_eq in E. subst c. discriminate. }
  destruct (String.get k versionDecl) as [d|] eqn:Eg; [|reflexivity].
  assert (Ascii.eqb c d = false) as ->; [|reflexivity].
  apply not_true_is_false. intros E. apply Ascii.eqb_eq in E. subst d.
  apply get_mem in Eg. congruence.
Qed.

(** Outside a reading, a byte other than [(] starts none. *)
Lemma scanDecl_idle (c : ascii) (s : string) :
  Ascii.eqb c "(" = false -> scanDecl 0 (String c s) = scanDecl 0 s.
Proof.
  intros Hc. cbn [scanDecl]. rewrite Hc. simpl.
  rewrite Hc. reflexivity.
Qed.

Lemma noParens_scanDecl_idle (s : string) :
  noParens s = true -> scanDecl 0 s = Some 0%nat.
Proof.
  induction s as [|c s IH]; intros H; [reflexivity|].
  apply noParens_cons_inv in H as (H1 & _ & Hs).
  rewrite scanDecl_idle by exact H1. now apply IH.
Qed.

(** A byte that is no parenthesis never completes the declaration. *)
Lemma scanDecl_step (c : ascii) (s : string) (k : nat) :
  Ascii.eqb c "(" = false -> Ascii.eqb c ")" = false ->
  exists k', scanDecl k (String c s) = scanDecl k' s.
Proof.
  intros H1 H2. cbn [scanDecl]. rewrite H1.
  destruct (String.get k versionDecl) as [d|] eqn:Eg; [|eauto].
  destruct (Ascii.eqb c d) eqn:Ed; [|eauto].
  destruct (k =? 10)%nat eqn:Ek; [|eauto].
  apply Nat.eqb_eq in Ek. subst k. simpl in Eg. injection Eg as <-.
  congruence.
Qed.

Lemma Quiet_nil : Quiet EmptyString.
Proof. split; reflexivity. Qed.

Lemma Quiet_app (a b : string) : Quiet a -> Quiet b -> Quiet (a ++ b).
Proof.
  intros (Ba & Za) (Bb & Zb). split.
  - now apply balanced_app.
  - now rewrite scanDecl_app, Za.
Qed.

Lemma Resets_Quiet (a b : string) : Resets a -> Quiet b -> Resets (a ++ b).
Proof.
  intros [Qa Ra] Qb. split; [now apply Quiet_app|].
  intros k. rewrite scanDecl_app, Ra. apply Qb.
Qed.

Lemma noParens_Quiet (s : string) : noParens s = true -> Quiet s.
Proof.
  intros H. split; [now apply noParens_balanced | now apply noParens_scanDecl_idle].
Qed.

(** A foreign byte in front of a quiet piece. *)
Lemma Resets_foreign (c : ascii) (t : string) :
  mem c versionDecl = false -> Quiet t -> Resets (String c t).
Proof.
  intros Hc (Bt & Zt).
  assert (H1 : Ascii.eqb c "(" = false).
  { apply not_true_is_false. intros E. apply Ascii.eqb_eq in E. subst c. discriminate. }
  assert (H2 : Ascii.eqb c ")" = false).
  { apply not_true_is_false. intros E. apply Ascii.eqb_eq in E. subst c. discriminate. }
  assert (R : forall k, scanDecl k (String c t) = Some 0%nat).
  { intros k. now rewrite scanDecl_foreign. }
  split; [|exact R]. split; [|apply R].
  unfold hasBalancedParentheses in *. cbn [balancedFrom]. now rewrite H1, H2.
Qed.

(** A group: the alternatives between parentheses. *)
Lemma Resets_group (alts : string) : Resets alts -> Resets ("(" ++ alts ++ ")").
Proof.
  intros [(Ba & Za) Ra].
  assert (R : forall k, scanDecl k ("(" ++ alts ++ ")") = Some 0%nat).
  { intros k. change ("(" ++ alts ++ ")") with (String "(" (alts ++ ")")).
    cbn [scanDecl]. change (Ascii.eqb "(" "(") with true. cbv iota.
    now rewrite scanDecl_app, Ra. }
  split; [|exact R]. split; [now apply balanced_wrap | apply R].
Qed.

(** An ordinary byte in front of a piece. *)
Lemma Quiet_byte (c : ascii) (t : string) :
  Ascii.eqb c "(" = false -> Ascii.eqb c ")" = false ->
  Quiet t -> Quiet (String c t).
Proof.
  intros H1 H2 (Bt & Zt). split.
  - unfold hasBalancedParentheses in *. cbn [balancedFrom]. now rewrite H1, H2.
  - now rewrite scanDecl_idle.
Qed.

Lemma Resets_byte (c : ascii) (t : string) :
  Ascii.eqb c "(" = false -> Ascii.eqb c ")" = false ->
  Resets t -> Resets (String c t).
Proof.
  intros H1 H2 [Qt Rt]. split; [now apply Quiet_byte|].
  intros k. destruct (scanDecl_step c t k H1 H2) as [k' ->]. apply Rt.
Qed.

End QuietFacts.

Section QuietConversion.
Import Filesystem Seatbelt Spec.

Lemma scanClass_app_inv (s cls rest : string) :
  scanClass s = Some (cls, rest) -> s = cls ++ String "]" rest.
Proof.
  revert cls. induction s as [|c s IH]; intros cls H; [discriminate|].
  simpl in H. destruct (Ascii.eqb c "]") eqn:E.
  - injection H as <- <-. apply Ascii.eqb_eq in E. now subst c.
  - destruct (scanClass s) as [[cls' rest']|]; [|discriminate].
    injection H as <- <-. simpl. now rewrite (IH cls' eq_refl).
Qed.

Lemma scanBrace_app_inv (s : string) :
  forall d inner rest,
    scanBrace d s = Some (inner, rest) -> exists c, s = inner ++ String c rest.
Proof.
  induction s as [|c s IH]; intros d inner rest H; [discriminate|].
  cbn [scanBrace] in H.
  destruct (if Ascii.eqb c "{" then S d
            else if Ascii.eqb c "}" then Nat.pred d else d) as [|d'].
  - injection H as <- <-. exists c. reflexivity.
  - destruct (scanBrace (S d') s) as [[inner' rest']|] eqn:E; [|discriminate].
    injection H as <- <-. destruct (IH _ _ _ E) as [c' ->]. exists c'. reflexivity.
Qed.

Lemma Split_noParens (s : string) (sep : ascii) :
  noParens s = true -> forall part, In part (Split s sep) -> noParens part = true.
Proof.
  induction s as [|c s IH]; intros Hs part Hin.
  - destruct Hin as [<-|[]]. reflexivity.
  - apply noParens_cons_inv in Hs as (H1 & H2 & Hs). simpl in Hin.
    destruct (Ascii.eqb c sep).
    + destruct Hin as [<-|Hin]; [reflexivity | now apply IH].
    + destruct (Split s sep) as [|p ps] eqn:E.
      * destruct Hin as [<-|[]]. rewrite noParens_cons, H1, H2. reflexivity.
      * destruct Hin as [<-|Hin].
        -- rewrite noParens_cons, H1, H2. simpl. apply IH; [assumption | now left].
        -- apply IH; [assumption | now right].
Qed.

Lemma drop_app_length (a b : string) : drop (String.length a) (a ++ b) = b.
Proof. induction a as [|c a IH]; [reflexivity | exact IH]. Qed.

Lemma take_app_length (a b : string) : take (String.length a) (a ++ b) = a.
Proof. induction a as [|c a IH]; [reflexivity | simpl; now rewrite IH]. Qed.

Lemma stripAnchors_anchored (body : string) :
  stripAnchors ("^" ++ body ++ "$") = body.
Proof.
  unfold stripAnchors, TrimPrefix.
  change ("^" ++ body ++ "$") with (String "^" (body ++ "$")).
  rewrite HasPrefix_byte. change (Ascii.eqb "^" "^") with true. cbv iota.
  change (drop (String.length "^") (String "^" (body ++ "$"))) with (body ++ "$").
  unfold TrimSuffix, HasSuffix. rewrite length_append.
  change (String.length "$") with 1%nat.
  replace (String.length body + 1 - 1)%nat with (String.length body) by lia.
  rewrite drop_app_length, take_app_length.
  replace (1 <=? String.length body + 1)%nat with true
    by (symmetry; apply Nat.leb_le; lia).
  reflexivity.
Qed.

Lemma convertParts_Resets (self : string -> option (result string))
      (parts : list string) :
  (forall part r, In part parts -> self part = Some (Ok r) -> Resets (stripAnchors r)) ->
  forall idx alts,
    convertParts self idx parts = Some (Ok alts) ->
    Quiet alts /\ (parts <> [] -> Resets alts).
Proof.
  induction parts as [|part rest IH]; intros Hself idx alts H.
  - injection H as <-. split; [apply Quiet_nil | congruence].
  - cbn [convertParts] in H.
    destruct (self part) as [[conv|e]|] eqn:Es; try discriminate.
    apply emit_Ok_inv in H as (alts' & H & ->).
    assert (Hrest : Quiet alts').
    { assert (Hself' : forall p r, In p rest -> self p = Some (Ok r) ->
                                   Resets (stripAnchors r)).
      { intros p r Hin. apply Hself. now right. }
      exact (proj1 (IH Hself' _ _ H)). }
    assert (Hhead : Resets ((if (0 <? idx)%nat then "|" else EmptyString)
                            ++ TrimSuffix (TrimPrefix conv "^") "$")).
    { pose proof (Hself part conv (or_introl eq_refl) Es) as Hr.
      unfold stripAnchors in Hr. destruct (0 <? idx)%nat; [|exact Hr].
      apply Resets_foreign; [reflexivity | apply Hr]. }
    pose proof (Resets_Quiet _ _ Hhead Hrest) as Hall.
    split; [apply Hall | intros _; exact Hall].
Qed.

Lemma Split_nonempty (s : string) (sep : ascii) : Split s sep <> [].
Proof.
  destruct s as [|c s]; [discriminate|]. simpl.
  destruct (Ascii.eqb c sep); [discriminate|].
  destruct (Split s sep); discriminate.
Qed.

(** What the loop emits for a pattern without parentheses is quiet,
    and it resets when the pattern has a glob character or begins with
    [/]. *)
Lemma convertLoop_Quiet (self : string -> option (result string)) :
  (forall part r, noParens part = true -> self part = Some (Ok r) ->
                  Resets (stripAnchors r)) ->
  forall n s b,
    noParens s = true -> convertLoop self n s = Some (Ok b) ->
    Quiet b /\ (ContainsGlob s = true \/ HasPrefix s "/" = true -> Resets b).
Proof.
  intros Hself. induction n as [|n IH]; intros s b Hs H.
  - destruct s; [|discriminate]. injection H as <-.
    split; [apply Quiet_nil|]. intros [E|E]; discriminate.
  - destruct s as [|ch rest].
    { injection H as <-. split; [apply Quiet_nil|]. intros [E|E]; discriminate. }
    apply noParens_cons_inv in Hs as (Hp1 & Hp2 & Hrest).
    assert (Htok : forall tok t',
              Resets tok -> noParens t' = true ->
              emit tok (convertLoop self n t') = Some (Ok b) ->
              Quiet b /\ (ContainsGlob (String ch rest) = true
                          \/ HasPrefix (String ch rest) "/" = true -> Resets b)).
    { intros tok t' Htok Ht' He. apply emit_Ok_inv in He as (b' & Hb' & ->).
      destruct (IH _ _ Ht' Hb') as [Qb' _].
      pose proof (Resets_Quiet _ _ Htok Qb') as Hall.
      split; [apply Hall | intros _; exact Hall]. }
    cbn [convertLoop] in H.
    destruct (Ascii.eqb ch "*") eqn:E1.
    { destruct (HasPrefix rest "*") eqn:Hp.
      - refine (Htok ".*" _ _ _ H).
        + apply Resets_foreign; [reflexivity | now apply noParens_Quiet].
        + destruct rest as [|c2 rest2]; [discriminate|].
          apply noParens_cons_inv in Hrest as (_ & _ & Hrest2). cbn [drop].
          destruct (HasPrefix rest2 "/"); [|exact Hrest2].
          destruct rest2 as [|c3 rest3]; [reflexivity|].
          now apply noParens_cons_inv in Hrest2 as (_ & _ & Hrest3).
      - refine (Htok "[^/]*" rest _ Hrest H).
        apply Resets_foreign; [reflexivity | now apply noParens_Quiet]. }
    destruct (Ascii.eqb ch "?") eqn:E2.
    { refine (Htok "[^/]" rest _ Hrest H).
      apply Resets_foreign; [reflexivity | now apply noParens_Quiet]. }
    destruct (Ascii.eqb ch "[") eqn:E3.
    { destruct (scanClass rest) as [[cls rest']|] eqn:Ec; [|discriminate].
      pose proof (scanClass_app_inv _ _ _ Ec) as ->.
      rewrite noParens_app in Hrest. apply andb_true_iff in Hrest as [Hcls Hrest'].
      apply noParens_cons_inv in Hrest' as (_ & _ & Hrest').
      refine (Htok ("[" ++ cls ++ "]") rest' _ Hrest' H).
      apply Resets_foreign; [reflexivity|]. apply noParens_Quiet.
      rewrite noParens_app, Hcls. reflexivity. }
    destruct (Ascii.eqb ch "{") eqn:E4.
    { destruct (scanBrace 1 rest) as [[inner rest']|] eqn:Eb; [|discriminate].
      destruct (scanBrace_app_inv _ _ _ _ Eb) as [c ->].
      rewrite noParens_app in Hrest. apply andb_true_iff in Hrest as [Hinner Hrest'].
      apply noParens_cons_inv in Hrest' as (_ & _ & Hrest').
      destruct (convertParts self 0 (Split inner ",")) as [[alts|e]|] eqn:Ea;
        try discriminate.
      refine (Htok ("(" ++ alts ++ ")") rest' _ Hrest' H).
      apply Resets_group.
      assert (Hparts : forall part r, In part (Split inner ",") ->
                         self part = Some (Ok r) -> Resets (stripAnchors r)).
      { intros part r Hin. apply Hself. now apply (Split_noParens inner ","). }
      exact (proj2 (convertParts_Resets self _ Hparts _ _ Ea) (Split_nonempty _ _)). }
    destruct (isRegexSpecial ch) eqn:Es.
    { refine (Htok ("\" ++ String ch EmptyString) rest _ Hrest H).
      apply Resets_foreign; [reflexivity|]. apply noParens_Quiet.
      now rewrite noParens_cons, Hp1, Hp2. }
    apply emit_Ok_inv in H as (b' & Hb' & ->).
    destruct (IH _ _ Hrest Hb') as [Qb' Rb'].
    change (String ch EmptyString ++ b') with (String ch b').
    split; [now apply Quiet_byte|].
    rewrite ContainsGlob_cons, HasPrefix_byte.
    assert (mem ch "*?[{" = false) as ->.
    { simpl. rewrite E1, E2, E3, E4. reflexivity. }
    rewrite orb_false_l. intros [Hg|Hslash].
    + apply Resets_byte; auto.
    + apply Ascii.eqb_eq in Hslash. subst ch.
      apply Resets_foreign; [reflexivity | exact Qb'].
Qed.

Lemma GlobToRegexN_Resets (env : Env) :
  TamePaths env ->
  forall depth pattern regex,
    noParens pattern = true ->
    GlobToRegexN env depth pattern = Some (Ok regex) ->
    exists body, regex = "^" ++ body ++ "$" /\ Resets body.
Proof.
  intros Henv. induction depth as [|depth IH]; intros pattern regex Hp H; [discriminate|].
  assert (Hself : forall part r, noParens part = true ->
                    GlobToRegexN env depth part = Some (Ok r) -> Resets (stripAnchors r)).
  { intros part r Hpart Hr. destruct (IH _ _ Hpart Hr) as (body & -> & Hb).
    now rewrite stripAnchors_anchored. }
  cbn [GlobToRegexN] in H. destruct (ContainsGlob pattern) eqn:Hg.
  - destruct (convertLoop _ _ pattern) as [[body|e]|] eqn:Hc; try discriminate.
    injection H as <-. exists body. split; [reflexivity|].
    destruct (convertLoop_Quiet _ Hself _ _ _ Hp Hc) as [_ Hr]. apply Hr. now left.
  - destruct (NormalisePath env pattern) as [q|e] eqn:Hq; [|discriminate].
    destruct (Henv _ _ Hp Hq) as [Hqp Hqs].
    destruct (convertLoop _ _ q) as [[body|e]|] eqn:Hc; try discriminate.
    injection H as <-. exists body. split; [reflexivity|].
    destruct (convertLoop_Quiet _ Hself _ _ _ Hqp Hc) as [_ Hr]. apply Hr. now right.
Qed.

End QuietConversion.

Section StaticChecks.
Import Filesystem Seatbelt Spec.

(** *** Counting the version declaration *)

Lemma countOcc_cons (sub : string) (c : ascii) (s : string) :
  countOcc sub (String c s)
  = ((if String.prefix sub (String c s) then 1 else 0) + countOcc sub s)%nat.
Proof. reflexivity. Qed.

Lemma prefix_app_same (a b t : string) :
  String.prefix (a ++ b) (a ++ t) = String.prefix b t.
Proof.
  induction a as [|c a IH]; [reflexivity|].
  change (String c a ++ b) with (String c (a ++ b)).
  change (String c a ++ t) with (String c (a ++ t)).
  now rewrite prefix_cons, Ascii.eqb_refl, IH.
Qed.

Lemma take_drop (k : nat) (s : string) : take k s ++ drop k s = s.
Proof.
  revert s. induction k as [|k IH]; intros s; [reflexivity|].
  destruct s as [|c s]; [reflexivity|]. simpl. now rewrite IH.
Qed.

Lemma drop_get (s : string) :
  forall k d, String.get k s = Some d -> drop k s = String d (drop (S k) s).
Proof.
  induction s as [|c s IH]; intros k d H; [destruct k; discriminate|].
  destruct k as [|k]; simpl in H.
  - injection H as ->. reflexivity.
  - simpl. now apply IH.
Qed.

Lemma take_get (s : string) :
  forall k d t, String.get k s = Some d ->
                take k s ++ String d t = take (S k) s ++ t.
Proof.
  induction s as [|c s IH]; intros k d t H; [destruct k; discriminate|].
  destruct k as [|k]; simpl in H.
  - injection H as ->. reflexivity.
  - cbn [take]. change (String c (take k s) ++ String d t)
      with (String c (take k s ++ String d t)).
    rewrite (IH _ _ t H). reflexivity.
Qed.

(** A reading of the declaration that is under way: no occurrence
    begins in what was read, when none is completed. *)
Lemma prefix_versionDecl_partial (k : nat) (t : string) :
  String.prefix versionDecl (take k versionDecl ++ t)
  = String.prefix (drop k versionDecl) t.
Proof.
  rewrite <- (take_drop k versionDecl) at 1. apply prefix_app_same.
Qed.

Lemma get_versionDecl_not_open (k : nat) (d : ascii) :
  (1 <= k)%nat -> String.get k versionDecl = Some d -> Ascii.eqb d "(" = false.
Proof.
  intros Hk H. do 11 (destruct k as [|k]; [first [lia | injection H as <-; reflexivity]|]).
  discriminate.
Qed.

Lemma get_versionDecl_some (k : nat) :
  (k <= 10)%nat -> exists d, String.get k versionDecl = Some d.
Proof.
  intros Hk. do 11 (destruct k as [|k]; [eexists; reflexivity|]). lia.
Qed.

Lemma scanDecl_sound (s : string) :
  forall k,
    (k <= 10)%nat -> scanDecl k s <> None ->
    ((1 <= k)%nat -> String.prefix versionDecl (take k versionDecl ++ s) = false)
    /\ countOcc versionDecl s = 0%nat.
Proof.
  induction s as [|c s IH]; intros k Hk H.
  - split; [|reflexivity]. intros Hk1. rewrite append_empty_r.
    do 11 (destruct k as [|k]; [first [lia | reflexivity]|]). lia.
  - rewrite countOcc_cons. cbn [scanDecl] in H.
    destruct (get_versionDecl_some k Hk) as [d Hd]. rewrite Hd in H.
    assert (Hpart : forall t, String.prefix versionDecl (take k versionDecl ++ String c t)
                              = Ascii.eqb d c && String.prefix (drop (S k) versionDecl) t).
    { intros t. rewrite prefix_versionDecl_partial, (drop_get _ _ _ Hd).
      apply prefix_cons. }
    destruct (Ascii.eqb c "(") eqn:Eo.
    + apply Ascii.eqb_eq in Eo. subst c.
      destruct (IH 1%nat ltac:(lia) H) as [Hp Hc].
      specialize (Hp (Nat.le_refl 1)). change (take 1 versionDecl ++ s) with (String "(" s) in Hp.
      rewrite Hp, Hc. split; [|reflexivity].
      intros Hk1. rewrite Hpart, (get_versionDecl_not_open k d Hk1 Hd). reflexivity.
    + assert (Hhead : String.prefix versionDecl (String c s) = false).
      { unfold versionDecl. rewrite prefix_cons, Ascii.eqb_sym, Eo. reflexivity. }
      rewrite Hhead. destruct (Ascii.eqb c d) eqn:Ed.
      * apply Ascii.eqb_eq in Ed. subst d.
        destruct (k =? 10)%nat eqn:Ek; [congruence|]. apply Nat.eqb_neq in Ek.
        destruct (IH (S k) ltac:(lia) H) as [Hp Hc].
        split; [|exact Hc]. intros _. rewrite (take_get _ _ _ s Hd). apply Hp. lia.
      * destruct (IH 0%nat ltac:(lia) H) as [_ Hc].
        split; [|exact Hc]. intros _. rewrite Hpart, Ascii.eqb_sym, Ed. reflexivity.
Qed.

(** The declaration in front of a quiet text occurs once. *)
Lemma countOcc_versionDecl (rest : string) :
  scanDecl 0 rest = Some 0%nat ->
  countOcc versionDecl (versionDecl ++ rest) = 1%nat.
Proof.
  intros H. unfold versionDecl at 2.
  change ("(version 1)" ++ rest) with (String "(" ("version 1)" ++ rest)).
  rewrite countOcc_cons.
  change (String "(" ("version 1)" ++ rest)) with (versionDecl ++ rest).
  rewrite <- (append_empty_r versionDecl) at 1.
  rewrite prefix_app_same, prefix_empty.
  assert (Hs : scanDecl 0 ("version 1)" ++ rest) <> None).
  { rewrite scanDecl_app. change (scanDecl 0 "version 1)") with (Some 0%nat).
    cbv beta iota. rewrite H. discriminate. }
  destruct (scanDecl_sound _ 0%nat ltac:(lia) Hs) as [_ ->]. reflexivity.
Qed.

End StaticChecks.

Section QuietProfile.
Import Filesystem Seatbelt Spec.

Lemma noParens_string_of_uint (d : Decimal.uint) :
  noParens (NilEmpty.string_of_uint d) = true.
Proof. induction d as [|d IH|d IH|d IH|d IH|d IH|d IH|d IH|d IH|d IH|d IH];
         [reflexivity | cbn [NilEmpty.string_of_uint]; rewrite noParens_cons, IH; reflexivity ..].
Qed.

Lemma noParens_itoa (n : Z) : noParens (itoa n) = true.
Proof.
  unfold itoa. destruct (Z.to_int n) as [d|d]; cbn [NilEmpty.string_of_int].
  - apply noParens_string_of_uint.
  - rewrite noParens_cons, noParens_string_of_uint. reflexivity.
Qed.

(** A statement [(head(kw arg))] followed by a line feed. *)
Lemma Quiet_statement (head kw arg : string) :
  noParens head = true -> scanDecl 1 head = Some 0%nat ->
  noParens kw = true -> scanDecl 1 kw = Some 0%nat ->
  Quiet arg ->
  Quiet ("(" ++ head ++ "(" ++ kw ++ arg ++ "))" ++ nl).
Proof.
  intros Hh Sh Hk Sk (Ba & Sa). split.
  - assert (E : "(" ++ head ++ "(" ++ kw ++ arg ++ "))" ++ nl
                = ("(" ++ (head ++ "(" ++ (kw ++ arg) ++ ")") ++ ")") ++ nl).
    { norm_append. reflexivity. }
    rewrite E. apply balanced_app; [|reflexivity].
    apply balanced_wrap, balanced_app; [now apply noParens_balanced|].
    apply balanced_wrap, balanced_app; [now apply noParens_balanced | exact Ba].
  - change ("(" ++ head ++ "(" ++ kw ++ arg ++ "))" ++ nl)
      with (String "(" (head ++ String "(" (kw ++ arg ++ "))" ++ nl))).
    cbn [scanDecl]. change (Ascii.eqb "(" "(") with true. cbv iota.
    rewrite scanDecl_app, Sh. cbn [scanDecl].
    change (Ascii.eqb "(" "(") with true. cbv iota.
    rewrite scanDecl_app, Sk, scanDecl_app, Sa. reflexivity.
Qed.

Lemma tameAction_head (action : string) :
  tameAction action ->
  noParens (action ++ " ") = true /\ scanDecl 1 (action ++ " ") = Some 0%nat.
Proof.
  intros [Hn Hs]. split.
  - now rewrite noParens_app, Hn.
  - now rewrite scanDecl_app, Hs.
Qed.

Lemma subpathRule_Quiet (action path : string) :
  tameAction action -> noParens path = true -> Quiet (subpathRule action path).
Proof.
  intros Ha Hp. destruct (tameAction_head action Ha) as [Hn Hs].
  assert (E : subpathRule action path
              = "(" ++ (action ++ " ") ++ "(" ++ ("subpath " ++ dq)
                    ++ (path ++ dq) ++ "))" ++ nl).
  { unfold subpathRule, dq. norm_append. reflexivity. }
  rewrite E. apply Quiet_statement; try assumption; try reflexivity.
  apply noParens_Quiet. now rewrite noParens_app, Hp.
Qed.

Lemma regexRule_Quiet (action body : string) :
  tameAction action -> Resets body -> Quiet (regexRule action ("^" ++ body ++ "$")).
Proof.
  intros Ha [Qb _]. destruct (tameAction_head action Ha) as [Hn Hs].
  assert (E : regexRule action ("^" ++ body ++ "$")
              = "(" ++ (action ++ " ") ++ "(" ++ ("regex #" ++ dq ++ "^")
                    ++ (body ++ "$" ++ dq) ++ "))" ++ nl).
  { unfold regexRule, dq. norm_append. reflexivity. }
  rewrite E. apply Quiet_statement; try assumption; try reflexivity.
  apply Quiet_app; [exact Qb | split; reflexivity].
Qed.

Lemma loopbackRule_Quiet (port : Z) : Quiet (loopbackRule port).
Proof.
  assert (E : loopbackRule port
              = "(" ++ "allow network* " ++ "(" ++ ("remote ip " ++ dq ++ "localhost:")
                    ++ (itoa port ++ dq) ++ "))" ++ nl).
  { unfold loopbackRule, dq. norm_append. reflexivity. }
  rewrite E. apply Quiet_statement; try reflexivity.
  apply noParens_Quiet. now rewrite noParens_app, noParens_itoa.
Qed.

Lemma RuleFor_Quiet (env : Env) (action path rule : string) :
  TamePaths env -> tameAction action -> noParens path = true ->
  RuleFor env action path rule -> Quiet rule.
Proof.
  intros env_tame Ha Hp [regex _ Hre | _].
  - unfold GlobToRegex in Hre.
    destruct (GlobToRegexN_Resets env env_tame _ _ _ Hp Hre) as (body & -> & Hb).
    now apply regexRule_Quiet.
  - now apply subpathRule_Quiet.
Qed.

Lemma rules_Quiet (env : Env) (action : string) (paths rules : list string) :
  TamePaths env -> tameAction action ->
  Forall (fun p => noParens p = true) paths ->
  Forall2 (RuleFor env action) paths rules ->
  Quiet (concatAll rules).
Proof.
  intros env_tame Ha Hp H. induction H as [|path rule paths rules Hr _ IH].
  - apply Quiet_nil.
  - inversion Hp as [|? ? Hp1 Hp2]; subst.
    cbn [concatAll fold_right]. apply Quiet_app.
    + now apply (RuleFor_Quiet env action path).
    + now apply IH.
Qed.

Lemma block_Quiet (comment : string) (rules : list string) :
  noParens comment = true -> Quiet (concatAll rules) -> Quiet (block comment rules).
Proof.
  intros Hc Hr. unfold block. destruct rules as [|r rules].
  - apply Quiet_nil.
  - apply Quiet_app; [|apply Quiet_app; [exact Hr | split; reflexivity]].
    apply noParens_Quiet. now rewrite noParens_app, Hc.
Qed.

End QuietProfile.

Ltac quiet :=
  repeat first
    [ solve [split; reflexivity]
    | assumption
    | apply loopbackRule_Quiet
    | apply block_Quiet; [reflexivity|]
    | apply Quiet_app ].

Section QuietSections.
Import Filesystem Seatbelt Spec.

Lemma processSection_Quiet (allowFork allowSysctlRead allowMachLookup allowPosixShm : bool) :
  Quiet (processSection allowFork allowSysctlRead allowMachLookup allowPosixShm).
Proof.
  destruct allowFork, allowSysctlRead, allowMachLookup, allowPosixShm; split; reflexivity.
Qed.

Lemma networkSection_Quiet (enableProxy : bool) (httpProxyPort socksProxyPort : Z) :
  Quiet (networkSection enableProxy httpProxyPort socksProxyPort).
Proof. unfold networkSection. destruct enableProxy; quiet. Qed.

Lemma readSection_Quiet (denyRules : list string) :
  Quiet (concatAll denyRules) -> Quiet (readSection denyRules).
Proof. intros H. unfold readSection. quiet. Qed.

Lemma writeSection_Quiet (allowRules denyRules : list string) :
  Quiet (concatAll allowRules) -> Quiet (concatAll denyRules) ->
  Quiet (writeSection allowRules denyRules).
Proof. intros Ha Hd. unfold writeSection. quiet. Qed.

Lemma unlinkSection_Quiet (allowRules : list string) :
  Quiet (concatAll allowRules) -> Quiet (unlinkSection allowRules).
Proof. intros H. unfold unlinkSection. quiet. Qed.

Lemma processSection_allow (allowFork allowSysctlRead allowMachLookup allowPosixShm : bool) :
  Contains (processSection allowFork allowSysctlRead allowMachLookup allowPosixShm)
           "(allow " = true.
Proof.
  unfold processSection. do 2 apply Contains_app_r. now apply Contains_app_l.
Qed.

(** What follows the version declaration in a profile is quiet, when
    no path entry has a parenthesis. *)
Lemma GenerateSeatbeltProfile_Quiet
      (env : Env) (httpProxyPort socksProxyPort : Z) (enableProxy : bool)
      (denyReadPaths allowWritePaths denyWritePaths allowUnlinkPaths : list string)
      (allowFork allowSysctlRead allowMachLookup allowPosixShm : bool)
      (profile : string) :
  TamePaths env ->
  Forall (fun p => noParens p = true) denyReadPaths ->
  Forall (fun p => noParens p = true) allowWritePaths ->
  Forall (fun p => noParens p = true) denyWritePaths ->
  Forall (fun p => noParens p = true) allowUnlinkPaths ->
  GenerateSeatbeltProfile env httpProxyPort socksProxyPort enableProxy
    denyReadPaths allowWritePaths denyWritePaths allowUnlinkPaths
    allowFork allowSysctlRead allowMachLookup allowPosixShm = Some (Ok profile) ->
  exists rest,
    profile = versionDecl ++ rest /\ Quiet rest /\ Contains rest "(allow " = true.
Proof.
  intros Henv Pr Pa Pd Pu H.
  destruct (GenerateSeatbeltProfile_sections _ _ _ _ _ _ _ _ _ _ _ _ _ H)
    as (readRules & allowRules & denyRules & unlinkRules & Hr & Ha & Hd & Hu & ->).
  assert (Qr : Quiet (concatAll readRules)).
  { apply (rules_Quiet env _ _ _ Henv) with (3 := Hr); [split; reflexivity | exact Pr]. }
  assert (Qa : Quiet (concatAll allowRules)).
  { apply (rules_Quiet env _ _ _ Henv) with (3 := Ha); [split; reflexivity | exact Pa]. }
  assert (Qd : Quiet (concatAll denyRules)).
  { apply (rules_Quiet env _ _ _ Henv) with (3 := Hd); [split; reflexivity | exact Pd]. }
  assert (Qu : Quiet (concatAll unlinkRules)).
  { apply (rules_Quiet env _ _ _ Henv) with (3 := Hu); [split; reflexivity | exact Pu]. }
  exists (nl ++ nl
          ++ processSection allowFork allowSysctlRead allowMachLookup allowPosixShm
          ++ networkSection enableProxy httpProxyPort socksProxyPort
          ++ readSection readRules
          ++ writeSection allowRules denyRules
          ++ unlinkSection unlinkRules).
  split; [|split].
  - unfold versionLine, versionDecl. now rewrite !append_assoc.
  - apply Quiet_app; [split; reflexivity|]. apply Quiet_app; [split; reflexivity|].
    apply Quiet_app; [apply processSection_Quiet|].
    apply Quiet_app; [apply networkSection_Quiet|].
    apply Quiet_app; [now apply readSection_Quiet|].
    apply Quiet_app; [now apply writeSection_Quiet | now apply unlinkSection_Quiet].
  - do 2 apply Contains_app_r. apply Contains_app_l, processSection_allow.
Qed.

End QuietSections.

Lemma noParens_drop (n : nat) (s : string) :
  Spec.noParens s = true -> Spec.noParens (drop n s) = true.
Proof.
  revert s. induction n as [|n IH]; intros s H; [exact H|].
  destruct s as [|c s]; [reflexivity|]. cbn [drop].
  apply noParens_cons_inv in H as (_ & _ & H). now apply IH.
Qed.

Lemma exampleEnv_TamePaths : Spec.TamePaths Globs.exampleEnv.
Proof.
  intros p q Hp. rewrite exampleEnv_NormalisePath. cbv zeta.
  set (t := if HasPrefix p "~" then "/home/user" ++ drop 1 p else p).
  assert (Ht : Spec.noParens t = true).
  { subst t. destruct (HasPrefix p "~"); [|exact Hp].
    rewrite noParens_app, (noParens_drop 1 p Hp). reflexivity. }
  destruct (HasPrefix t "/") eqn:Et; intros H; injection H as <-.
  - split; [exact Ht | exact Et].
  - split.
    + change (Spec.noParens ("/work/" ++ t) = true).
      rewrite noParens_app, Ht. reflexivity.
    + change (HasPrefix (String "/" ("work/" ++ t)) "/" = true).
      rewrite HasPrefix_byte. reflexivity.
Qed.

(** C4.  For every policy input whose path entries have no
    parenthesis, on a machine where normalising a path without
    parentheses gives an absolute path without parentheses, a profile
    that [GenerateSeatbeltProfile] returns satisfies what the static
    phase of the validator checks: the version declaration occurs in it
    exactly once, its parentheses are balanced (the running counter
    never goes below zero and ends at zero), and it has an allow
    statement; so [ValidateProfile] goes on to the live test on it.
    The other regex-special bytes of a path entry do no harm: the
    groups that brace alternation writes are balanced. *)
Theorem GenerateSeatbeltProfile_static_checks
        (env : Filesystem.Env) (httpProxyPort socksProxyPort : Z) (enableProxy : bool)
        (denyReadPaths allowWritePaths denyWritePaths allowUnlinkPaths : list string)
        (allowFork allowSysctlRead allowMachLookup allowPosixShm : bool)
        (profile : string) :
  Spec.TamePaths env ->
  Forall (fun p => Spec.noParens p = true) denyReadPaths ->
  Forall (fun p => Spec.noParens p = true) allowWritePaths ->
  Forall (fun p => Spec.noParens p = true) denyWritePaths ->
  Forall (fun p => Spec.noParens p = true) allowUnlinkPaths ->
  Seatbelt.GenerateSeatbeltProfile env httpProxyPort socksProxyPort enableProxy
    denyReadPaths allowWritePaths denyWritePaths allowUnlinkPaths
    allowFork allowSysctlRead allowMachLookup allowPosixShm = Some (Ok profile) ->
  Spec.countOcc "(version 1)" profile = 1%nat
  /\ Seatbelt.hasBalancedParentheses profile = true
  /\ Spec.Balanced profile
  /\ Contains profile "(allow " = true
  /\ Seatbelt.staticChecks profile = true
  /\ forall (exec : Seatbelt.Exec) (profilePath : string),
       exec ["cat"; profilePath] = (profile, None) ->
       Seatbelt.ran (Seatbelt.ValidateProfile exec profilePath)
       = [["cat"; profilePath]; Seatbelt.sandboxExecTest profilePath].
Proof.
  intros Henv Pr Pa Pd Pu H.
  destruct (GenerateSeatbeltProfile_Quiet _ _ _ _ _ _ _ _ _ _ _ _ _
              Henv Pr Pa Pd Pu H) as (rest & -> & (Br & Sr) & Hallow).
  assert (Hcount : Spec.countOcc "(version 1)" (Spec.versionDecl ++ rest) = 1%nat)
    by exact (countOcc_versionDecl rest Sr).
  assert (Hbal : Seatbelt.hasBalancedParentheses (Spec.versionDecl ++ rest) = true)
    by (apply balanced_app; [reflexivity | exact Br]).
  assert (Hver : Contains (Spec.versionDecl ++ rest) "(version 1)" = true)
    by (apply Contains_app_l; reflexivity).
  assert (Hal : Contains (Spec.versionDecl ++ rest) "(allow " = true)
    by (apply Contains_app_r; exact Hallow).
  assert (Hst : Seatbelt.staticChecks (Spec.versionDecl ++ rest) = true).
  { unfold Seatbelt.staticChecks. rewrite Hver, Hbal, Hal. apply orb_true_r. }
  repeat split; try assumption.
  - now apply hasBalancedParentheses_spec.
  - now apply hasBalancedParentheses_spec.
  - intros exec profilePath Hcat. unfold Seatbelt.ValidateProfile.
    rewrite Hcat, Hver, Hbal, Hal. cbn [negb]. rewrite andb_false_r.
    now destruct (exec (Seatbelt.sandboxExecTest profilePath)) as [out [e|]].
Qed.

Lemma GenerateSeatbeltProfile_static_checks_witness :
  Spec.TamePaths Globs.exampleEnv
  /\ exists profile,
       Seatbelt.GenerateSeatbeltProfile Globs.exampleEnv 8080 1080 true
         ["~/.ssh"; "/etc/*.key"] ["/tmp/out"; "build/**"] ["/tmp/out/{a,b}?"]
         ["/tmp/out"] true false true false = Some (Ok profile)
       /\ Spec.countOcc "(version 1)" profile = 1%nat
       /\ Seatbelt.hasBalancedParentheses profile = true
       /\ Seatbelt.staticChecks profile = true.
Proof.
  split; [exact exampleEnv_TamePaths|].
  destruct (Seatbelt.GenerateSeatbeltProfile Globs.exampleEnv 8080 1080 true
              ["~/.ssh"; "/etc/*.key"] ["/tmp/out"; "build/**"] ["/tmp/out/{a,b}?"]
              ["/tmp/out"] true false true false) as [[profile|e]|] eqn:Hgen;
    [|vm_compute in Hgen; discriminate|vm_compute in Hgen; discriminate].
  exists profile. split; [reflexivity|].
  destruct (GenerateSeatbeltProfile_static_checks
              Globs.exampleEnv 8080 1080 true
              ["~/.ssh"; "/etc/*.key"] ["/tmp/out"; "build/**"] ["/tmp/out/{a,b}?"]
              ["/tmp/out"] true false true false profile exampleEnv_TamePaths
              ltac:(repeat constructor) ltac:(repeat constructor)
              ltac:(repeat constructor) ltac:(repeat constructor) Hgen)
    as (Hc & Hb & _ & _ & Hs & _).
  repeat split; assumption.
Defined.

(** A path entry with a parenthesis is written into the profile as it
    is: with one [(] the profile is unbalanced and the validator rejects
    it in the static phase; with the text of the version declaration in
    it the profile has the declaration twice. *)
Lemma GenerateSeatbeltProfile_static_counterexample :
  ~ (forall (env : Filesystem.Env) (httpProxyPort socksProxyPort : Z) (enableProxy : bool)
            (denyReadPaths allowWritePaths denyWritePaths allowUnlinkPaths : list string)
            (allowFork allowSysctlRead allowMachLookup allowPosixShm : bool)
            (profile : string),
        Seatbelt.GenerateSeatbeltProfile env httpProxyPort socksProxyPort enableProxy
          denyReadPaths allowWritePaths denyWritePaths allowUnlinkPaths
          allowFork allowSysctlRead allowMachLookup allowPosixShm = Some (Ok profile) ->
        Spec.countOcc "(version 1)" profile = 1%nat
        /\ Seatbelt.hasBalancedParentheses profile = true)
  /\ (exists profile,
        Seatbelt.GenerateSeatbeltProfile Globs.exampleEnv 0 0 false
          ["/tmp/a(b"] [] [] [] false false false false = Some (Ok profile)
        /\ Seatbelt.hasBalancedParentheses profile = false
        /\ Seatbelt.staticChecks profile = false)
  /\ (exists profile,
        Seatbelt.GenerateSeatbeltProfile Globs.exampleEnv 0 0 false
          ["/tmp/(version 1)"] [] [] [] false false false false = Some (Ok profile)
        /\ Spec.countOcc "(version 1)" profile = 2%nat).
Proof.
  split; [|split].
  - intros claim.
    destruct (Seatbelt.GenerateSeatbeltProfile Globs.exampleEnv 0 0 false
                ["/tmp/a(b"] [] [] [] false false false false) as [[profile|e]|] eqn:Hgen;
      [|vm_compute in Hgen; discriminate|vm_compute in Hgen; discriminate].
    destruct (claim _ _ _ _ _ _ _ _ _ _ _ _ _ Hgen) as [_ Hb].
    vm_compute in Hgen. injection Hgen as <-. vm_compute in Hb. discriminate.
  - eexists. split; [vm_compute; reflexivity|]. split; vm_compute; reflexivity.
  - eexists. split; [vm_compute; reflexivity|]. vm_compute; reflexivity.
Qed.

(** ** Merging configurations *)

Section MergeFacts.
Import Manager Configuration.

Lemma override_assoc {A} (set : A -> bool) (a b c : A) :
  override set (override set a b) c = override set a (override set b c).
Proof.
  unfold override. destruct (set c) eqn:Ec; [now rewrite Ec|].
  destruct (set b); reflexivity.
Qed.

Lemma override_same {A} (set : A -> bool) (a : A) : override set a a = a.
Proof. unfold override. now destruct (set a). Qed.

Lemma override_valid {A} (set : A -> bool) (P : A -> Prop) (a b : A) :
  P a -> P b -> P (override set a b).
Proof. unfold override. now destruct (set b). Qed.

End MergeFacts.

(** X1.  Merging the zero configuration into a configuration, or a
    configuration into itself, changes nothing: a settings file that
    sets no field leaves the defaults as they are. *)
Theorem Merge_nothing_set (c : Configuration.Config) :
  Configuration.Merge c Configuration.zeroConfig = c
  /\ Configuration.Merge c c = c.
Proof.
  destruct c as [[] [] [] ? ? ? [] ?]. split.
  - reflexivity.
  - unfold Configuration.Merge. cbn -[Configuration.override].
    rewrite !override_same.
    destruct AllowFork, AllowSysctlRead, AllowMachLookup, AllowPosixShm; reflexivity.
Qed.

(** X2.  Merging is associative: merging [b] and then [c] into [a]
    gives what merging into [a] the merge of [c] into [b] gives. *)
Theorem Merge_assoc (a b c : Configuration.Config) :
  Configuration.Merge (Configuration.Merge a b) c
  = Configuration.Merge a (Configuration.Merge b c).
Proof.
  destruct a as [[] [] pa ? ? ? [] ?], b as [[] [] pb ? ? ? [] ?],
           c as [[] [] pc ? ? ? [] ?].
  unfold Configuration.Merge. cbn -[Configuration.override Configuration.anyProcess].
  rewrite !override_assoc. f_equal.
  destruct pc as [c1 c2 c3 c4].
  cbn [Manager.AllowFork Manager.AllowSysctlRead Manager.AllowMachLookup
       Manager.AllowPosixShm].
  destruct (Configuration.anyProcess _) eqn:Ec.
  - cbn [Manager.AllowFork Manager.AllowSysctlRead Manager.AllowMachLookup
         Manager.AllowPosixShm]. now rewrite Ec.
  - destruct pb as [b1 b2 b3 b4].
    cbn [Manager.AllowFork Manager.AllowSysctlRead Manager.AllowMachLookup
         Manager.AllowPosixShm].
    now destruct (Configuration.anyProcess _).
Qed.

(** X3.  Merging never switches all four process permissions off:
    when one of them is on before a merge, one of them is on after
    it, whatever is merged in; and a merge changes neither
    [AllowLocalBinding] nor [Verbose]. *)
Theorem Merge_process_stays_on (c other : Configuration.Config) :
  (Configuration.anyProcess (Configuration.Process c) = true ->
   Configuration.anyProcess
     (Configuration.Process (Configuration.Merge c other)) = true)
  /\ Manager.AllowLocalBinding (Configuration.Network (Configuration.Merge c other))
     = Manager.AllowLocalBinding (Configuration.Network c)
  /\ Configuration.Verbose (Configuration.Merge c other) = Configuration.Verbose c.
Proof.
  split; [|split; reflexivity].
  intros H. cbn [Configuration.Merge Configuration.Process].
  destruct (Configuration.anyProcess (Configuration.Process other)) eqn:E; [|exact H].
  destruct (Configuration.Process other). exact E.
Qed.

Lemma Merge_process_stays_on_witness :
  let forking :=
    {| Configuration.Network := Configuration.Network Configuration.zeroConfig;
       Configuration.Filesystem := Configuration.Filesystem Configuration.zeroConfig;
       Configuration.Process :=
         {| Manager.AllowFork := true; Manager.AllowSysctlRead := false;
            Manager.AllowMachLookup := false; Manager.AllowPosixShm := false |};
       Configuration.ScanAndBlockFiles := []; Configuration.ScanAndBlockDirs := [];
       Configuration.Violations := ∅;
       Configuration.Ripgrep := Configuration.Ripgrep Configuration.zeroConfig;
       Configuration.Verbose := false |} in
  Configuration.anyProcess (Configuration.Process forking) = true
  /\ Configuration.anyProcess
       (Configuration.Process
          (Configuration.Merge forking Configuration.zeroConfig)) = true.
Proof.
  intros forking.
  assert (H : Configuration.anyProcess (Configuration.Process forking) = true)
    by reflexivity.
  split; [exact H|].
  exact (proj1 (Merge_process_stays_on forking Configuration.zeroConfig) H).
Defined.

(** ** Validating configurations *)

Section ValidateFacts.
Import Regexp Spec Props.

Lemma allBytes_app (P : ascii -> bool) (a b : string) :
  allBytes P (a ++ b) = allBytes P a && allBytes P b.
Proof.
  induction a as [|c a IH]; [reflexivity|].
  change (String c a ++ b) with (String c (a ++ b)). cbn [allBytes].
  now rewrite IH, andb_assoc.
Qed.

Lemma allBytes_impl (P Q : ascii -> bool) (s : string) :
  (forall c, P c = true -> Q c = true) -> allBytes P s = true -> allBytes Q s = true.
Proof.
  intros H. induction s as [|c s IH]; [reflexivity|]. cbn [allBytes].
  intros [Hc Hs]%andb_true_iff. now rewrite (H c Hc), IH.
Qed.

Lemma allBytes_or_l (P Q : ascii -> bool) (s : string) :
  allBytes P s = true -> allBytes (fun c => P c || Q c) s = true.
Proof. apply allBytes_impl. intros c ->. reflexivity. Qed.

Lemma allBytes_or_r (P Q : ascii -> bool) (s : string) :
  allBytes Q s = true -> allBytes (fun c => P c || Q c) s = true.
Proof. apply allBytes_impl. intros c ->. apply orb_true_r. Qed.

(** The strings of a regular expression are made of its alphabet. *)
Lemma lang_alphabet (r : regex) (s : string) :
  lang r s -> allBytes (alphabet r) s = true.
Proof.
  induction 1 as [|d|d Hd|neg items d Hd|r1 r2 s1 s2 H1 IH1 H2 IH2
                 |r1 r2 s0 H IH|r1 r2 s0 H IH|r0|r0 s1 s2 H1 IH1 H2 IH2];
    cbn [alphabet allBytes].
  - reflexivity.
  - now rewrite Ascii.eqb_refl.
  - now rewrite Hd.
  - now rewrite Hd.
  - rewrite allBytes_app, (allBytes_or_l _ _ _ IH1), (allBytes_or_r _ _ _ IH2). reflexivity.
  - now apply allBytes_or_l.
  - now apply allBytes_or_r.
  - reflexivity.
  - rewrite allBytes_app. apply andb_true_iff. split; [|exact IH2].
    revert IH1. apply allBytes_impl. intros c Hc. exact Hc.
Qed.

Lemma lang_Alt (r1 r2 : regex) (t : string) :
  lang (Alt r1 r2) t <-> lang r1 t \/ lang r2 t.
Proof.
  split.
  - intros H. inversion H; subst; auto.
  - intros [H|H]; [now apply LangAltL | now apply LangAltR].
Qed.

Lemma alphabet_upTo (n : nat) (r : regex) (c : ascii) :
  alphabet (Configuration.upTo n r) c = true -> alphabet r c = true.
Proof.
  induction n as [|n IH]; cbn [Configuration.upTo alphabet]; [discriminate|].
  rewrite orb_false_l. intros [H|H]%orb_true_iff; [exact H | now apply IH].
Qed.

Lemma alnum_hostByte (c : ascii) :
  alphabet Configuration.alnum c = true -> hostByte c = true.
Proof.
  unfold Configuration.alnum, hostByte. cbn [alphabet]. unfold classMatches.
  rewrite xorb_false_l. now intros ->.
Qed.

Lemma alnumHyphen_hostByte (c : ascii) :
  alphabet Configuration.alnumHyphen c = true -> hostByte c = true.
Proof.
  unfold Configuration.alnumHyphen, hostByte. cbn [alphabet]. unfold classMatches.
  rewrite xorb_false_l. unfold inItems. cbn [existsb fst snd].
  rewrite orb_false_r, !orb_assoc.
  intros [H|H]%orb_true_iff.
  - now rewrite H.
  - rewrite byte_le_antisym, Ascii.eqb_sym in H. rewrite H.
    rewrite orb_true_r. reflexivity.
Qed.

Lemma label_hostByte (c : ascii) :
  alphabet Configuration.label c = true -> hostByte c = true.
Proof.
  unfold Configuration.label, Configuration.opt. cbn [alphabet].
  rewrite orb_false_l.
  intros [H|[H|H]%orb_true_iff]%orb_true_iff.
  - now apply alnum_hostByte.
  - now apply alnumHyphen_hostByte, (alphabet_upTo 61).
  - now apply alnum_hostByte.
Qed.

Lemma lang_label_nonempty (t : string) : lang Configuration.label t -> t <> EmptyString.
Proof.
  unfold Configuration.label. intros (s1 & s2 & -> & H1 & _)%lang_Cat.
  apply lang_Class in H1 as (c & -> & _). discriminate.
Qed.

(** What [domainPattern] matches: an optional [*.] and then a host
    name, which is not empty and is made of letters, digits, hyphens
    and dots. *)
Lemma lang_domainPattern (d : string) :
  lang Configuration.domainPattern d ->
  exists wild host,
    d = wild ++ host /\ (wild = EmptyString \/ wild = "*.")
    /\ host <> EmptyString /\ allBytes hostByte host = true.
Proof.
  unfold Configuration.domainPattern.
  intros (wild & host & -> & Hw & Hh)%lang_Cat. exists wild, host.
  split; [reflexivity|]. split; [|split].
  - unfold Configuration.opt in Hw. apply lang_Alt in Hw as [Hw|Hw].
    + left. now apply lang_Eps.
    + right. apply lang_Cat in Hw as (a & b & -> & Ha & Hb).
      apply lang_Lit in Ha, Hb. now subst.
  - apply lang_Cat in Hh as (a & b & -> & Ha & _).
    apply lang_label_nonempty in Ha. destruct a; [congruence | discriminate].
  - apply lang_alphabet in Hh. revert Hh. apply allBytes_impl.
    intros c. cbn [alphabet].
    intros [H|[H|H]%orb_true_iff]%orb_true_iff.
    + now apply label_hostByte.
    + apply Ascii.eqb_eq in H. now subst.
    + now apply label_hostByte.
Qed.

Lemma Split_single (s : string) (sep : ascii) :
  mem sep s = false -> List.length (Split s sep) = 1%nat.
Proof.
  induction s as [|c s IH]; [reflexivity|].
  rewrite mem_cons. intros [Hc Hs]%orb_false_iff. cbn [Split].
  rewrite Ascii.eqb_sym, Hc. specialize (IH Hs).
  destruct (Split s sep) as [|p ps]; [reflexivity|].
  destruct ps; [reflexivity | discriminate].
Qed.

Lemma validateDomains_nil (msg : string) (domains : list string) :
  Configuration.validateDomains msg domains = None <->
  Forall (fun d => Configuration.validateDomain d = None) domains.
Proof.
  induction domains as [|d rest IH]; cbn [Configuration.validateDomains].
  - split; [constructor | reflexivity].
  - destruct (Configuration.validateDomain d) eqn:E.
    + split; [discriminate|]. intros H. inversion H; congruence.
    + rewrite IH. split; [now constructor | now inversion 1].
Qed.

Lemma noEmptyPath_nil (msg : string) (paths : list string) :
  Configuration.noEmptyPath msg paths = None <->
  Forall (fun p => p <> EmptyString) paths.
Proof.
  induction paths as [|p rest IH]; cbn [Configuration.noEmptyPath].
  - split; [constructor | reflexivity].
  - destruct (String.eqb p EmptyString) eqn:E.
    + apply String.eqb_eq in E. split; [discriminate|]. intros H. inversion H; congruence.
    + apply String.eqb_neq in E. rewrite IH. split; [now constructor | now inversion 1].
Qed.

Lemma badPort_false (port : Z) : Configuration.badPort port = false <-> portInRange port.
Proof. unfold Configuration.badPort, portInRange. lia. Qed.

Lemma validateNetwork_nil (nc : Manager.NetworkConfig) :
  Configuration.validateNetwork nc = None <->
  Forall (fun d => Configuration.validateDomain d = None) (Manager.AllowedDomains nc)
  /\ Forall (fun d => Configuration.validateDomain d = None) (Manager.DeniedDomains nc)
  /\ portInRange (Manager.HTTPProxyPort nc)
  /\ portInRange (Manager.SOCKSProxyPort nc).
Proof.
  unfold Configuration.validateNetwork.
  pose proof (validateDomains_nil "invalid allowed domain" (Manager.AllowedDomains nc)) as Ha.
  pose proof (validateDomains_nil "invalid denied domain" (Manager.DeniedDomains nc)) as Hd.
  pose proof (badPort_false (Manager.HTTPProxyPort nc)) as Hh.
  pose proof (badPort_false (Manager.SOCKSProxyPort nc)) as Hs.
  destruct (Configuration.validateDomains _ (Manager.AllowedDomains nc));
    [split; [discriminate | intros (H & _); apply Ha in H; discriminate]|].
  destruct (Configuration.validateDomains _ (Manager.DeniedDomains nc));
    [split; [discriminate | intros (_ & H & _); apply Hd in H; discriminate]|].
  destruct (Configuration.badPort (Manager.HTTPProxyPort nc));
    [split; [discriminate | intros (_ & _ & H & _); apply Hh in H; discriminate]|].
  destruct (Configuration.badPort (Manager.SOCKSProxyPort nc));
    [split; [discriminate | intros (_ & _ & _ & H); apply Hs in H; discriminate]|].
  split; [intros _|reflexivity].
  repeat split; first [now apply Ha | now apply Hd | now apply Hh | now apply Hs].
Qed.

Lemma validateFilesystem_nil (fc : Manager.FilesystemConfig) :
  Configuration.validateFilesystem fc = None <->
  Forall (fun p => p <> EmptyString) (Manager.DenyRead fc)
  /\ Forall (fun p => p <> EmptyString) (Manager.AllowWrite fc)
  /\ Forall (fun p => p <> EmptyString) (Manager.DenyWrite fc).
Proof.
  unfold Configuration.validateFilesystem.
  pose proof (noEmptyPath_nil "deny read path cannot be empty" (Manager.DenyRead fc)) as Hr.
  pose proof (noEmptyPath_nil "allow write path cannot be empty" (Manager.AllowWrite fc))
    as Ha.
  pose proof (noEmptyPath_nil "deny write path cannot be empty" (Manager.DenyWrite fc)) as Hd.
  destruct (Configuration.noEmptyPath _ (Manager.DenyRead fc));
    [split; [discriminate | intros (H & _); apply Hr in H; discriminate]|].
  destruct (Configuration.noEmptyPath _ (Manager.AllowWrite fc));
    [split; [discriminate | intros (_ & H & _); apply Ha in H; discriminate]|].
  rewrite Hd. split; [intros H|tauto].
  repeat split; first [now apply Hr | now apply Ha | exact H].
Qed.

End ValidateFacts.

(** The configurations that [Validate] accepts. *)
Lemma Validate_nil (cfg : Configuration.Config) :
  Configuration.Validate cfg = None <->
  Forall (fun d => Configuration.validateDomain d = None)
         (Manager.AllowedDomains (Configuration.Network cfg))
  /\ Forall (fun d => Configuration.validateDomain d = None)
            (Manager.DeniedDomains (Configuration.Network cfg))
  /\ Props.portInRange (Manager.HTTPProxyPort (Configuration.Network cfg))
  /\ Props.portInRange (Manager.SOCKSProxyPort (Configuration.Network cfg))
  /\ Forall (fun p => p <> EmptyString) (Manager.DenyRead (Configuration.Filesystem cfg))
  /\ Forall (fun p => p <> EmptyString) (Manager.AllowWrite (Configuration.Filesystem cfg))
  /\ Forall (fun p => p <> EmptyString) (Manager.DenyWrite (Configuration.Filesystem cfg)).
Proof.
  unfold Configuration.Validate.
  pose proof (validateNetwork_nil (Configuration.Network cfg)) as Hn.
  pose proof (validateFilesystem_nil (Configuration.Filesystem cfg)) as Hf.
  destruct (Configuration.validateNetwork _).
  - split; [discriminate|]. intros (H1 & H2 & H3 & H4 & _).
    assert (Some e = None) by (apply Hn; auto). discriminate.
  - destruct (Configuration.validateFilesystem _).
    + split; [discriminate|]. intros (_ & _ & _ & _ & H).
      assert (Some e = None) by (apply Hf; exact H). discriminate.
    + split; [intros _|reflexivity].
      destruct (proj1 Hn eq_refl) as (H1 & H2 & H3 & H4).
      destruct (proj1 Hf eq_refl) as (H5 & H6 & H7). auto 10.
Qed.

(** X4.  [Validate] accepts exactly the configurations in which
    every allowed and denied domain passes [validateDomain], both
    proxy ports are between 0 and 65535, and no deny-read,
    allow-write or deny-write path is the empty string.  The unlink
    paths, the Unix sockets and the default policy are not looked
    at. *)
Theorem Validate_accepts (cfg : Configuration.Config) :
  Configuration.Validate cfg = None <->
  Forall (fun d => Configuration.validateDomain d = None)
         (Manager.AllowedDomains (Configuration.Network cfg))
  /\ Forall (fun d => Configuration.validateDomain d = None)
            (Manager.DeniedDomains (Configuration.Network cfg))
  /\ Props.portInRange (Manager.HTTPProxyPort (Configuration.Network cfg))
  /\ Props.portInRange (Manager.SOCKSProxyPort (Configuration.Network cfg))
  /\ Forall (fun p => p <> EmptyString) (Manager.DenyRead (Configuration.Filesystem cfg))
  /\ Forall (fun p => p <> EmptyString) (Manager.AllowWrite (Configuration.Filesystem cfg))
  /\ Forall (fun p => p <> EmptyString) (Manager.DenyWrite (Configuration.Filesystem cfg)).
Proof. exact (Validate_nil cfg). Qed.

(** X5.  Merging a valid configuration into a valid configuration
    gives a valid configuration: every field that [Validate] looks
    at comes whole from one of the two. *)
Theorem Validate_Merge (c other : Configuration.Config) :
  Configuration.Validate c = None ->
  Configuration.Validate other = None ->
  Configuration.Validate (Configuration.Merge c other) = None.
Proof.
  rewrite !Validate_nil.
  intros (A1 & A2 & A3 & A4 & A5 & A6 & A7) (B1 & B2 & B3 & B4 & B5 & B6 & B7).
  cbn [Configuration.Merge Configuration.Network Configuration.Filesystem
       Manager.AllowedDomains Manager.DeniedDomains Manager.HTTPProxyPort
       Manager.SOCKSProxyPort Manager.DenyRead Manager.AllowWrite Manager.DenyWrite].
  refine (conj _ (conj _ (conj _ (conj _ (conj _ (conj _ _))))));
    apply override_valid; assumption.
Qed.

Lemma Validate_Merge_witness :
  let file :=
    {| Configuration.Network :=
         {| Manager.DefaultPolicy := "deny";
            Manager.AllowedDomains := ["example.com"; "*.github.com"];
            Manager.DeniedDomains := []; Manager.AllowUnixSockets := [];
            Manager.AllowLocalBinding := false;
            Manager.HTTPProxyPort := 8080; Manager.SOCKSProxyPort := 1080 |};
       Configuration.Filesystem :=
         {| Manager.DenyRead := ["~/.ssh"]; Manager.AllowWrite := ["."];
            Manager.DenyWrite := []; Manager.AllowUnlink := [] |};
       Configuration.Process := Configuration.Process Configuration.zeroConfig;
       Configuration.ScanAndBlockFiles := []; Configuration.ScanAndBlockDirs := [];
       Configuration.Violations := ∅;
       Configuration.Ripgrep := Configuration.Ripgrep Configuration.zeroConfig;
       Configuration.Verbose := false |} in
  Configuration.Validate Configuration.zeroConfig = None
  /\ Configuration.Validate file = None
  /\ Configuration.Validate (Configuration.Merge Configuration.zeroConfig file) = None.
Proof.
  intros file.
  assert (H0 : Configuration.Validate Configuration.zeroConfig = None) by reflexivity.
  assert (H1 : Configuration.Validate file = None) by (vm_compute; reflexivity).
  split; [exact H0|]. split; [exact H1|].
  exact (Validate_Merge Configuration.zeroConfig file H0 H1).
Defined.

(** X6.  A domain that [validateDomain] accepts is not empty and is a
    host name, with or without [*.] in front of it: the host name is
    not empty and holds only ASCII letters, digits, hyphens and dots,
    so a [*] stands nowhere but in a leading [*.]; and after a
    leading [*.] there are at least two labels. *)
Theorem validateDomain_accepts (d : string) :
  Configuration.validateDomain d = None ->
  d <> EmptyString
  /\ (exists wild host,
        d = wild ++ host /\ (wild = EmptyString \/ wild = "*.")
        /\ host <> EmptyString /\ Spec.allBytes Props.hostByte host = true)
  /\ (HasPrefix d "*." = true -> mem "." (drop 2 d) = true).
Proof.
  unfold Configuration.validateDomain.
  destruct (String.eqb d EmptyString) eqn:E0; [discriminate|].
  destruct (String.eqb d "*" || String.eqb d "*.*"); [discriminate|].
  destruct (HasPrefix d "*." && _) eqn:Et; [discriminate|].
  destruct (Regexp.matches Configuration.domainPattern d) eqn:Em; [|discriminate].
  intros _. split; [|split].
  - now apply String.eqb_neq.
  - now apply lang_domainPattern, matches_lang.
  - intros Hp. rewrite Hp in Et. cbn [andb] in Et.
    destruct (mem "." (drop 2 d)) eqn:Hm; [reflexivity|].
    rewrite (Split_single _ _ Hm) in Et. discriminate.
Qed.

Lemma validateDomain_accepts_witness :
  Configuration.validateDomain "*.example-site.co.uk" = None
  /\ mem "." (drop 2 "*.example-site.co.uk") = true.
Proof.
  assert (H : Configuration.validateDomain "*.example-site.co.uk" = None)
    by (vm_compute; reflexivity).
  split; [exact H|].
  exact (proj2 (proj2 (validateDomain_accepts _ H)) eq_refl).
Defined.

(** ** Normalising path lists *)

Section PathListFacts.
Import Filesystem Props.

Lemma NormalisePaths_cons (env : Env) (path : string) (rest : list string) :
  NormalisePaths env (path :: rest) =
  (expanded ← (if HasPrefix path "~" then
                 home ← wrapErr "failed to get home directory" (UserHomeDir env);
                 Ok (filepath_Join env home (drop 1 path))
               else Ok path);
   entry ← (if ContainsGlob expanded then Ok expanded
            else match NormalisePath env expanded with
                 | Ok normPath => Ok normPath
                 | Err err => Err (WrapQ "failed to normalise" expanded err)
                 end);
   normalised ← NormalisePaths env rest;
   Ok (entry :: normalised)).
Proof. reflexivity. Qed.

Lemma NormalisePaths_append (env : Env) (a b : list string) :
  NormalisePaths env (a ++ b) =
  (a' ← NormalisePaths env a; b' ← NormalisePaths env b; Ok (a' ++ b')%list).
Proof.
  induction a as [|path rest IH].
  - cbn [app NormalisePaths]. unfold mbind, result_bind, bindR.
    now destruct (NormalisePaths env b).
  - change ((path :: rest) ++ b)%list with (path :: (rest ++ b))%list.
    rewrite !NormalisePaths_cons, IH. unfold mbind, result_bind, bindR.
    destruct (if HasPrefix path "~" then _ else _) as [expanded|e]; [|reflexivity].
    destruct (if ContainsGlob expanded then _ else _) as [entry|e]; [|reflexivity].
    destruct (NormalisePaths env rest) as [rest'|e]; [|reflexivity].
    destruct (NormalisePaths env b) as [b'|e]; reflexivity.
Qed.

Lemma NormalisePaths_Normalised (env : Env) (paths out : list string) :
  NormalisePaths env paths = Ok out -> Forall2 (Normalised env) paths out.
Proof.
  revert out. induction paths as [|path rest IH]; intros out H.
  - injection H as <-. constructor.
  - rewrite NormalisePaths_cons in H. unfold mbind, result_bind, bindR in H.
    destruct (if HasPrefix path "~" then _ else _) as [expanded|e] eqn:Ex; [|discriminate].
    assert (Ht : TildeExpanded env path expanded).
    { unfold TildeExpanded. destruct (HasPrefix path "~").
      - left. split; [reflexivity|]. unfold wrapErr in Ex.
        destruct (UserHomeDir env) as [home|e]; [|discriminate].
        injection Ex as <-. eauto.
      - right. injection Ex as <-. auto. }
    destruct (ContainsGlob expanded) eqn:Eg.
    + destruct (NormalisePaths env rest) as [rest'|e]; [|discriminate].
      injection H as <-. constructor; [|now apply IH].
      now apply NormalisedGlob.
    + destruct (NormalisePath env expanded) as [normPath|e] eqn:En; [|discriminate].
      destruct (NormalisePaths env rest) as [rest'|e]; [|discriminate].
      injection H as <-. constructor; [|now apply IH].
      now apply (NormalisedPlain env path expanded).
Qed.

End PathListFacts.

(** X7.  [NormalisePaths] works entry by entry: the result for a list
    followed by another is the result for the first followed by the
    result for the second, and the first error met in that order is
    the error returned. *)
Theorem NormalisePaths_app (env : Filesystem.Env) (a b : list string) :
  Filesystem.NormalisePaths env (a ++ b) =
  (a' ← Filesystem.NormalisePaths env a;
   b' ← Filesystem.NormalisePaths env b;
   Ok (a' ++ b')%list).
Proof. exact (NormalisePaths_append env a b). Qed.

(** X8.  When [NormalisePaths] succeeds it gives one entry per path,
    in order.  The entry of a path that has a glob character once its
    tilde is expanded is that expanded text and nothing more: it is
    not made absolute and its symlinks are not resolved.  The entry of
    any other path is what [NormalisePath] gives for the expanded
    text. *)
Theorem NormalisePaths_entries (env : Filesystem.Env) (paths out : list string) :
  Filesystem.NormalisePaths env paths = Ok out ->
  Forall2 (Props.Normalised env) paths out
  /\ List.length out = List.length paths.
Proof.
  intros H. apply NormalisePaths_Normalised in H. split; [exact H|].
  symmetry. exact (Forall2_length _ _ _ H).
Qed.

Lemma NormalisePaths_entries_witness :
  Filesystem.NormalisePaths Globs.exampleEnv ["~/.ssh"; "build/**"; "src"]
  = Ok ["/home/user/.ssh"; "build/**"; "/work/src"]
  /\ Forall2 (Props.Normalised Globs.exampleEnv)
             ["~/.ssh"; "build/**"; "src"] ["/home/user/.ssh"; "build/**"; "/work/src"].
Proof.
  assert (H : Filesystem.NormalisePaths Globs.exampleEnv ["~/.ssh"; "build/**"; "src"]
              = Ok ["/home/user/.ssh"; "build/**"; "/work/src"]) by reflexivity.
  split; [exact H|].
  exact (proj1 (NormalisePaths_entries _ _ _ H)).
Defined.

(** ** Mandatory deny paths *)

Section BlockFacts.
Import Filesystem Block Props.

Lemma collectBlocks_contribution (env : Env) (d : Detector) (paths : list string) :
  forall allBlocks,
    collectBlocks env d paths allBlocks
    = (allBlocks ++ concat (map (contribution env d) paths))%list.
Proof.
  induction paths as [|path rest IH]; intros allBlocks; cbn [collectBlocks map concat].
  - now rewrite app_nil_r.
  - unfold contribution at 1.
    destruct (ContainsGlob path); [apply IH|].
    destruct (statNotExist d path); [apply IH|].
    destruct (Find env d path) as [block|e]; [|apply IH].
    rewrite IH. now rewrite <- app_assoc.
Qed.

End BlockFacts.

(** X9.  [GetMandatoryDenyPaths] never fails.  Its result is, path by
    path and in order, what the detector finds under each
    write-allowed path; a path with a glob character, a path that
    does not exist and a path on which the search fails add nothing.
    So the result for two lists, one after the other, is the two
    results, one after the other. *)
Theorem GetMandatoryDenyPaths_total
        (env : Filesystem.Env) (d : Block.Detector) (a b : list string) :
  Block.GetMandatoryDenyPaths env d a
  = Ok (concat (map (Props.contribution env d) a))
  /\ Block.GetMandatoryDenyPaths env d (a ++ b)
     = Ok (concat (map (Props.contribution env d) a)
           ++ concat (map (Props.contribution env d) b))%list
  /\ (Forall (fun p => Filesystem.ContainsGlob p = true) a ->
      Block.GetMandatoryDenyPaths env d a = Ok []).
Proof.
  unfold Block.GetMandatoryDenyPaths. rewrite !collectBlocks_contribution.
  cbn [app]. split; [reflexivity|]. split.
  - now rewrite map_app, concat_app.
  - intros H. f_equal. induction H as [|p rest Hp _ IH]; [reflexivity|].
    cbn [map concat]. unfold Props.contribution at 1. rewrite Hp. exact IH.
Qed.

Lemma GetMandatoryDenyPaths_total_witness :
  let d := {| Block.useRipgrep := false;
              Block.findWithRipgrep := fun _ => Ok [];
              Block.findWithWalk := fun root => Ok [root ++ "/.env"];
              Block.statNotExist := fun _ => false |} in
  Forall (fun p => Filesystem.ContainsGlob p = true) ["src/*"; "**/build"]
  /\ Block.GetMandatoryDenyPaths Globs.exampleEnv d ["src/*"; "**/build"] = Ok []
  /\ Block.GetMandatoryDenyPaths Globs.exampleEnv d ["src/*"; "/work"] = Ok ["/work/.env"].
Proof.
  intros d.
  assert (H : Forall (fun p => Filesystem.ContainsGlob p = true) ["src/*"; "**/build"])
    by (repeat constructor).
  split; [exact H|]. split; [|reflexivity].
  exact (proj2 (proj2 (GetMandatoryDenyPaths_total Globs.exampleEnv d _ [])) H).
Defined.

(** ** The validator and the generator, further *)

Section ProfileFurther.
Import Filesystem Seatbelt Spec.

Lemma writeRules_plain (env : Env) (action : string) (paths : list string) :
  Forall (fun p => ContainsGlob p = false) paths ->
  forall sb,
    writeRules env action paths sb
    = Some (Ok (sb ++ concatAll (map (subpathRule action) paths))).
Proof.
  induction 1 as [|path rest Hp _ IH]; intros sb; cbn [writeRules map].
  - unfold concatAll. cbn [fold_right]. now rewrite append_empty_r.
  - rewrite Hp, IH. unfold subpathRule, concatAll, nl, dq. cbn [fold_right].
    norm_append. reflexivity.
Qed.

Lemma writeGroup_plain (env : Env) (comment action : string) (paths : list string) :
  Forall (fun p => ContainsGlob p = false) paths ->
  forall sb,
    writeGroup env comment action paths sb
    = Some (Ok (sb ++ block comment (map (subpathRule action) paths))).
Proof.
  intros H sb. unfold writeGroup. destruct paths as [|path rest].
  - unfold block. cbn [map concatAll fold_right]. now rewrite !append_empty_r.
  - rewrite (writeRules_plain env action _ H). unfold block. cbn [map].
    norm_append. reflexivity.
Qed.

Lemma writeRules_returns (env : Env) (action : string) (paths : list string) :
  PlainPaths env -> forall sb, writeRules env action paths sb <> None.
Proof.
  intros Henv. induction paths as [|path rest IH]; intros sb; cbn [writeRules].
  - discriminate.
  - destruct (ContainsGlob path); [|apply IH].
    pose proof (GlobToRegex_returns env path Henv) as Hr.
    destruct (GlobToRegex env path) as [[regex|e]|]; [apply IH | discriminate | congruence].
Qed.

Lemma writeRules_unclosed (env : Env) (action : string) (paths : list string) :
  PlainPaths env -> Exists Unclosed paths ->
  forall sb, exists err, writeRules env action paths sb = Some (Err err).
Proof.
  intros Henv. induction paths as [|path rest IH]; intros Hex sb.
  - inversion Hex.
  - cbn [writeRules]. destruct (ContainsGlob path) eqn:Hg.
    + pose proof (GlobToRegex_returns env path Henv) as Hr.
      destruct (GlobToRegex env path) as [[regex|e]|] eqn:Hre; [|eauto|congruence].
      apply IH. inversion Hex as [? ? Hu|? ? Hu]; subst; [|exact Hu].
      exfalso. exact (GlobToRegexN_unclosed env _ path Hu regex Hre).
    + apply IH. inversion Hex as [? ? Hu|? ? Hu]; subst; [|exact Hu].
      apply Unclosed_glob in Hu. congruence.
Qed.

Lemma writeGroup_returns (env : Env) (comment action : string) (paths : list string) :
  PlainPaths env -> forall sb, writeGroup env comment action paths sb <> None.
Proof.
  intros Henv sb. unfold writeGroup. destruct paths as [|path rest]; [discriminate|].
  pose proof (writeRules_returns env action (path :: rest) Henv (sb ++ comment ++ nl)) as H.
  destruct (writeRules _ _ _ _) as [[?|?]|]; [discriminate | discriminate | congruence].
Qed.

Lemma writeGroup_unclosed (env : Env) (comment action : string) (paths : list string) :
  PlainPaths env -> Exists Unclosed paths ->
  forall sb, exists err, writeGroup env comment action paths sb = Some (Err err).
Proof.
  intros Henv Hex sb. unfold writeGroup. destruct paths as [|path rest]; [inversion Hex|].
  destruct (writeRules_unclosed env action _ Henv Hex (sb ++ comment ++ nl)) as [err ->].
  eauto.
Qed.

End ProfileFurther.

(** When [ValidateProfile] returns [nil]. *)
Lemma ValidateProfile_nil (exec : Seatbelt.Exec) (profilePath : string) :
  Seatbelt.verdict (Seatbelt.ValidateProfile exec profilePath) = None <->
  exists content,
    exec ["cat"; profilePath] = (content, None)
    /\ Seatbelt.staticChecks content = true
    /\ snd (exec (Seatbelt.sandboxExecTest profilePath)) = None.
Proof.
  unfold Seatbelt.ValidateProfile, Seatbelt.staticChecks.
  destruct (exec ["cat"; profilePath]) as [content [e|]] eqn:Hcat.
  - split; [discriminate|]. intros (c & H & _). discriminate.
  - destruct (Contains content "(version 1)") eqn:Ev; cbn [negb andb].
    2:{ split; [discriminate|]. intros (c & H & Hs & _).
        injection H as <-. rewrite Ev in Hs. discriminate. }
    destruct (Seatbelt.hasBalancedParentheses content) eqn:Eb; cbn [negb andb].
    2:{ split; [discriminate|]. intros (c & H & Hs & _).
        injection H as <-. rewrite Ev, Eb in Hs. discriminate. }
    destruct (Contains content "(deny ") eqn:Ed, (Contains content "(allow ") eqn:Ea;
      cbn [negb andb orb].
    4:{ split; [discriminate|]. intros (c & H & Hs & _).
        injection H as <-. rewrite Ev, Eb, Ed, Ea in Hs. discriminate. }
    all: destruct (exec (Seatbelt.sandboxExecTest profilePath)) as [out [e|]];
      cbn [Seatbelt.verdict snd];
      (split;
       [ first [discriminate | intros _; exists content; rewrite ?Ev, ?Eb, ?Ed, ?Ea; auto]
       | first [ reflexivity
               | intros (c & _ & _ & H); discriminate ] ]).
Qed.

(** X10.  [ValidateProfile] returns [nil] exactly when the profile was
    read, its text passes the three static checks, and the live test
    with [sandbox-exec] ends without an error. *)
Theorem ValidateProfile_accepts (exec : Seatbelt.Exec) (profilePath : string) :
  Seatbelt.verdict (Seatbelt.ValidateProfile exec profilePath) = None <->
  exists content,
    exec ["cat"; profilePath] = (content, None)
    /\ Seatbelt.staticChecks content = true
    /\ snd (exec (Seatbelt.sandboxExecTest profilePath)) = None.
Proof. exact (ValidateProfile_nil exec profilePath). Qed.

(** X11.  When no path entry has a glob character
    [GenerateSeatbeltProfile] succeeds, on every machine, and the
    profile has one subpath rule per entry with the entry written as
    it is: the generator neither normalises nor escapes a literal
    path. *)
Theorem GenerateSeatbeltProfile_literal_paths
        (env : Filesystem.Env) (httpProxyPort socksProxyPort : Z) (enableProxy : bool)
        (denyReadPaths allowWritePaths denyWritePaths allowUnlinkPaths : list string)
        (allowFork allowSysctlRead allowMachLookup allowPosixShm : bool) :
  Forall (fun p => Filesystem.ContainsGlob p = false) denyReadPaths ->
  Forall (fun p => Filesystem.ContainsGlob p = false) allowWritePaths ->
  Forall (fun p => Filesystem.ContainsGlob p = false) denyWritePaths ->
  Forall (fun p => Filesystem.ContainsGlob p = false) allowUnlinkPaths ->
  Seatbelt.GenerateSeatbeltProfile env httpProxyPort socksProxyPort enableProxy
    denyReadPaths allowWritePaths denyWritePaths allowUnlinkPaths
    allowFork allowSysctlRead allowMachLookup allowPosixShm
  = Some (Ok (Spec.versionLine
              ++ Spec.processSection allowFork allowSysctlRead allowMachLookup allowPosixShm
              ++ Spec.networkSection enableProxy httpProxyPort socksProxyPort
              ++ Spec.readSection (map (Spec.subpathRule "deny file-read*") denyReadPaths)
              ++ Spec.writeSection
                   (map (Spec.subpathRule "allow file-write*") allowWritePaths)
                   (map (Spec.subpathRule "deny file-write*") denyWritePaths)
              ++ Spec.unlinkSection
                   (map (Spec.subpathRule "allow file-write-unlink") allowUnlinkPaths))).
Proof.
  intros Hr Ha Hd Hu. unfold Seatbelt.GenerateSeatbeltProfile. cbv zeta.
  rewrite (writeGroup_plain env _ _ _ Hr). cbn [Seatbelt.andThen].
  rewrite (writeGroup_plain env _ _ _ Ha). cbn [Seatbelt.andThen].
  rewrite (writeGroup_plain env _ _ _ Hd). cbn [Seatbelt.andThen].
  rewrite (writeGroup_plain env _ _ _ Hu). cbn [Seatbelt.andThen].
  do 2 f_equal.
  unfold Spec.versionLine, Spec.processSection, Spec.networkSection, Spec.loopbackRule,
    Spec.readSection, Spec.writeSection, Spec.unlinkSection.
  destruct allowFork, allowSysctlRead, allowMachLookup, allowPosixShm, enableProxy;
    unfold nl, dq; norm_append; reflexivity.
Qed.

Lemma GenerateSeatbeltProfile_literal_paths_witness :
  Forall (fun p => Filesystem.ContainsGlob p = false) ["~/.ssh"; "/etc/a(b"]
  /\ exists profile,
       Seatbelt.GenerateSeatbeltProfile Globs.starEnv 0 0 false
         ["~/.ssh"; "/etc/a(b"] [] [] [] false false false false = Some (Ok profile)
       /\ Contains profile ("(deny file-read* (subpath " ++ dq ++ "~/.ssh" ++ dq ++ "))")
          = true.
Proof.
  assert (H : Forall (fun p => Filesystem.ContainsGlob p = false) ["~/.ssh"; "/etc/a(b"])
    by (repeat constructor).
  split; [exact H|].
  eexists. split.
  - exact (GenerateSeatbeltProfile_literal_paths Globs.starEnv 0 0 false
             _ [] [] [] false false false false H ltac:(constructor) ltac:(constructor)
             ltac:(constructor)).
  - vm_compute. reflexivity.
Defined.

(** X12.  Where normalising a plain path brings in no glob character
    [GenerateSeatbeltProfile] always returns, and it returns an error,
    not a profile, when any entry of the four path lists is a glob
    pattern with an unclosed bracket class or brace group. *)
Theorem GenerateSeatbeltProfile_unclosed_entry
        (env : Filesystem.Env) (httpProxyPort socksProxyPort : Z) (enableProxy : bool)
        (denyReadPaths allowWritePaths denyWritePaths allowUnlinkPaths : list string)
        (allowFork allowSysctlRead allowMachLookup allowPosixShm : bool) :
  Spec.PlainPaths env ->
  let generated :=
    Seatbelt.GenerateSeatbeltProfile env httpProxyPort socksProxyPort enableProxy
      denyReadPaths allowWritePaths denyWritePaths allowUnlinkPaths
      allowFork allowSysctlRead allowMachLookup allowPosixShm in
  generated <> None
  /\ (Exists Spec.Unclosed denyReadPaths \/ Exists Spec.Unclosed allowWritePaths
      \/ Exists Spec.Unclosed denyWritePaths \/ Exists Spec.Unclosed allowUnlinkPaths ->
      exists err, generated = Some (Err err)).
Proof.
  intros Henv generated. subst generated.
  unfold Seatbelt.GenerateSeatbeltProfile. cbv zeta.
  match goal with
  | |- context [Seatbelt.writeGroup env ?c ?a denyReadPaths ?sb] =>
      pose proof (writeGroup_returns env c a denyReadPaths Henv sb) as R1;
      pose proof (fun H => writeGroup_unclosed env c a denyReadPaths Henv H sb) as U1;
      destruct (Seatbelt.writeGroup env c a denyReadPaths sb) as [[sb1|e1]|]
  end; cbn [Seatbelt.andThen];
    [ | split; [discriminate | eauto] | congruence ].
  match goal with
  | |- context [Seatbelt.writeGroup env ?c ?a allowWritePaths ?sb] =>
      pose proof (writeGroup_returns env c a allowWritePaths Henv sb) as R2;
      pose proof (fun H => writeGroup_unclosed env c a allowWritePaths Henv H sb) as U2;
      destruct (Seatbelt.writeGroup env c a allowWritePaths sb) as [[sb2|e2]|]
  end; cbn [Seatbelt.andThen];
    [ | split; [discriminate | eauto] | congruence ].
  match goal with
  | |- context [Seatbelt.writeGroup env ?c ?a denyWritePaths ?sb] =>
      pose proof (writeGroup_returns env c a denyWritePaths Henv sb) as R3;
      pose proof (fun H => writeGroup_unclosed env c a denyWritePaths Henv H sb) as U3;
      destruct (Seatbelt.writeGroup env c a denyWritePaths sb) as [[sb3|e3]|]
  end; cbn [Seatbelt.andThen];
    [ | split; [discriminate | eauto] | congruence ].
  match goal with
  | |- context [Seatbelt.writeGroup env ?c ?a allowUnlinkPaths ?sb] =>
      pose proof (writeGroup_returns env c a allowUnlinkPaths Henv sb) as R4;
      pose proof (fun H => writeGroup_unclosed env c a allowUnlinkPaths Henv H sb) as U4;
      destruct (Seatbelt.writeGroup env c a allowUnlinkPaths sb) as [[sb4|e4]|]
  end; cbn [Seatbelt.andThen];
    [ | split; [discriminate | eauto] | congruence ].
  split; [discriminate|].
  intros [H|[H|[H|H]]].
  - destruct (U1 H) as [err E]. discriminate.
  - destruct (U2 H) as [err E]. discriminate.
  - destruct (U3 H) as [err E]. discriminate.
  - destruct (U4 H) as [err E]. discriminate.
Qed.

Lemma GenerateSeatbeltProfile_unclosed_entry_witness :
  Spec.PlainPaths Globs.exampleEnv
  /\ Exists Spec.Unclosed ["/tmp/out"; "src/[ab"]
  /\ exists err,
       Seatbelt.GenerateSeatbeltProfile Globs.exampleEnv 0 0 false
         ["~/.ssh/*"] ["/tmp/out"; "src/[ab"] [] [] true false false false
       = Some (Err err).
Proof.
  assert (Hu : Exists Spec.Unclosed ["/tmp/out"; "src/[ab"]).
  { apply Exists_cons_tl, Exists_cons_hd.
    do 4 (apply Spec.UnclosedAfterByte; [discriminate | discriminate |]).
    apply Spec.UnclosedBracket. reflexivity. }
  split; [exact exampleEnv_PlainPaths|]. split; [exact Hu|].
  exact (proj2 (GenerateSeatbeltProfile_unclosed_entry Globs.exampleEnv 0 0 false
                  ["~/.ssh/*"] ["/tmp/out"; "src/[ab"] [] [] true false false false
                  exampleEnv_PlainPaths)
               (or_intror (or_introl Hu))).
Defined.

(** ** Violations, further *)

Section ViolationFurther.
Import Violations.

Lemma anyContained_In (target : string) (patterns : list string) :
  anyContained target patterns = true <->
  exists pattern, In pattern patterns /\ Contains target pattern = true.
Proof.
  induction patterns as [|p rest IH]; cbn [anyContained].
  - split; [discriminate | intros (? & [] & _)].
  - destruct (Contains target p) eqn:E.
    + split; [|reflexivity]. intros _. exists p. split; [now left | exact E].
    + rewrite IH. split.
      * intros (q & Hin & Hq). exists q. split; [now right | exact Hq].
      * intros (q & [<-|Hin] & Hq); [congruence|]. eauto.
Qed.

End ViolationFurther.

(** X13.  [ShouldIgnoreViolation] is true exactly when the target of
    the violation contains a pattern listed under the name of its
    process or under the key ["*"].  With no list under either key,
    and so with an empty map, no violation is ignored. *)
Theorem ShouldIgnoreViolation_patterns
        (v : Violations.Violation) (ignoreMap : gmap string (list string)) :
  (Violations.ShouldIgnoreViolation v ignoreMap = true <->
   exists key patterns pattern,
     (key = Violations.Process v \/ key = "*")
     /\ ignoreMap !! key = Some patterns
     /\ In pattern patterns
     /\ Contains (Violations.Target v) pattern = true)
  /\ (ignoreMap !! Violations.Process v = None -> ignoreMap !! "*" = None ->
      Violations.ShouldIgnoreViolation v ignoreMap = false).
Proof.
  unfold Violations.ShouldIgnoreViolation. split.
  - destruct (ignoreMap !! Violations.Process v) as [ps|] eqn:Ep.
    + destruct (Violations.anyContained (Violations.Target v) ps) eqn:Ea.
      * split; [|reflexivity]. intros _.
        apply anyContained_In in Ea as (pattern & Hin & Hc).
        exists (Violations.Process v), ps, pattern. auto.
      * destruct (ignoreMap !! "*") as [gs|] eqn:Eg.
        -- destruct (Violations.anyContained (Violations.Target v) gs) eqn:Eb.
           ++ split; [|reflexivity]. intros _.
              apply anyContained_In in Eb as (pattern & Hin & Hc).
              exists "*", gs, pattern. auto.
           ++ split; [discriminate|].
              intros (key & patterns & pattern & [->| ->] & Hk & Hin & Hc).
              ** rewrite Ep in Hk. injection Hk as <-.
                 assert (Violations.anyContained (Violations.Target v) ps = true)
                   by (apply anyContained_In; eauto). congruence.
              ** rewrite Eg in Hk. injection Hk as <-.
                 assert (Violations.anyContained (Violations.Target v) gs = true)
                   by (apply anyContained_In; eauto). congruence.
        -- split; [discriminate|].
           intros (key & patterns & pattern & [->| ->] & Hk & Hin & Hc).
           ** rewrite Ep in Hk. injection Hk as <-.
              assert (Violations.anyContained (Violations.Target v) ps = true)
                by (apply anyContained_In; eauto). congruence.
           ** rewrite Eg in Hk. discriminate.
    + destruct (ignoreMap !! "*") as [gs|] eqn:Eg.
      * destruct (Violations.anyContained (Violations.Target v) gs) eqn:Eb.
        -- split; [|reflexivity]. intros _.
           apply anyContained_In in Eb as (pattern & Hin & Hc).
           exists "*", gs, pattern. auto.
        -- split; [discriminate|].
           intros (key & patterns & pattern & [->| ->] & Hk & Hin & Hc).
           ** rewrite Ep in Hk. discriminate.
           ** rewrite Eg in Hk. injection Hk as <-.
              assert (Violations.anyContained (Violations.Target v) gs = true)
                by (apply anyContained_In; eauto). congruence.
      * split; [discriminate|].
        intros (key & patterns & pattern & [->| ->] & Hk & Hin & Hc).
        -- rewrite Ep in Hk. discriminate.
        -- rewrite Eg in Hk. discriminate.
  - intros -> ->. reflexivity.
Qed.

Lemma ShouldIgnoreViolation_patterns_witness :
  let v := {| Violations.Process := "git"; Violations.Message := "deny file-read /etc/hosts";
              Violations.Timestamp := 0%Z; Violations.Target := "/etc/hosts";
              Violations.Operation := "file-read" |} in
  let ignoreMap : gmap string (list string) := {[ "curl" := ["/etc"] ]} in
  ignoreMap !! Violations.Process v = None
  /\ ignoreMap !! "*" = None
  /\ Violations.ShouldIgnoreViolation v ignoreMap = false.
Proof.
  intros v ignoreMap.
  assert (H1 : ignoreMap !! Violations.Process v = None) by reflexivity.
  assert (H2 : ignoreMap !! "*" = None) by reflexivity.
  split; [exact H1|]. split; [exact H2|].
  exact (proj2 (ShouldIgnoreViolation_patterns v ignoreMap) H1 H2).
Defined.

(** X14.  [parseViolation] changes only the operation and the target
    of a violation, and parsing a parsed violation changes nothing
    more. *)
Theorem parseViolation_idempotent (v : Violations.Violation) :
  Violations.Process (Violations.parseViolation v) = Violations.Process v
  /\ Violations.Message (Violations.parseViolation v) = Violations.Message v
  /\ Violations.Timestamp (Violations.parseViolation v) = Violations.Timestamp v
  /\ Violations.parseViolation (Violations.parseViolation v)
     = Violations.parseViolation v.
Proof.
  repeat split. unfold Violations.parseViolation.
  cbn [Violations.Process Violations.Message Violations.Timestamp
       Violations.Target Violations.Operation].
  f_equal.
  - now destruct (Violations.lastPart (Fields (Violations.Message v))).
  - destruct (Contains (Violations.Message v) "file-read"); [reflexivity|].
    destruct (Contains (Violations.Message v) "file-write"); [reflexivity|].
    now destruct (Contains (Violations.Message v) "network").
Qed.

(** ** The domain filter, further *)

Section FilterFurther.
Import Network.

Variable L : Lib.

Lemma lastIndexFrom_none (c : ascii) (s : string) :
  mem c s = false -> forall i, lastIndexFrom i s (String c EmptyString) = None.
Proof.
  induction s as [|x s IH]; intros Hm i; [reflexivity|].
  rewrite mem_cons in Hm. apply orb_false_iff in Hm as [Hx Hs].
  cbn [lastIndexFrom]. rewrite (IH Hs), prefix_cons, Hx. reflexivity.
Qed.

Lemma lastIndexFrom_last (c : ascii) (a b : string) :
  mem c b = false ->
  forall i, lastIndexFrom i (a ++ String c b) (String c EmptyString)
            = Some (i + String.length a)%nat.
Proof.
  intros Hb. induction a as [|x a IH]; intros i.
  - change (EmptyString ++ String c b) with (String c b). cbn [lastIndexFrom].
    rewrite (lastIndexFrom_none c b Hb), prefix_cons, prefix_empty, Ascii.eqb_refl.
    cbn [andb String.length]. now rewrite Nat.add_0_r.
  - change (String x a ++ String c b) with (String x (a ++ String c b)).
    cbn [lastIndexFrom]. rewrite IH. cbn [String.length]. f_equal. lia.
Qed.

Lemma normaliseDomain_no_port (host : string) :
  mem ":" host = false -> normaliseDomain L host = ToLower L (TrimSpace L host).
Proof.
  intros H. unfold normaliseDomain, LastIndex.
  now rewrite (lastIndexFrom_none ":" host H).
Qed.

Lemma normaliseDomain_port (host port : string) :
  mem ":" port = false ->
  normaliseDomain L (host ++ ":" ++ port) = ToLower L (TrimSpace L host).
Proof.
  intros H. unfold normaliseDomain, LastIndex.
  change (host ++ ":" ++ port) with (host ++ String ":" port).
  rewrite (lastIndexFrom_last ":" host port H). cbn [Nat.add].
  destruct (Z.of_nat (String.length host) =? -1)%Z eqn:E; [apply Z.eqb_eq in E; lia|].
  now rewrite Nat2Z.id, take_app_length.
Qed.

Lemma compileAll_acc (domains : list string) :
  forall acc out, compileAll L domains acc = Ok out ->
                  forall p, In p acc -> In p out.
Proof.
  induction domains as [|d rest IH]; intros acc out H p Hin; cbn [compileAll] in H.
  - injection H as <-. exact Hin.
  - unfold mbind, result_bind, bindR in H.
    destruct (compileDomainPattern L d) as [q|e]; [|discriminate].
    apply (IH _ _ H). apply in_or_app. now left.
Qed.

Lemma compileAll_In (domains : list string) :
  forall acc out d,
    compileAll L domains acc = Ok out -> In d domains ->
    exists p, compileDomainPattern L d = Ok p /\ In p out.
Proof.
  induction domains as [|x rest IH]; intros acc out d H Hin; [destruct Hin|].
  cbn [compileAll] in H. unfold mbind, result_bind, bindR in H.
  destruct (compileDomainPattern L x) as [q|e] eqn:Eq; [|discriminate].
  destruct Hin as [->|Hin].
  - exists q. split; [exact Eq|].
    apply (compileAll_acc _ _ _ H). apply in_or_app. right. now left.
  - exact (IH _ _ _ H Hin).
Qed.

Lemma NewDomainFilter_denied (policy : string) (allowedDomains deniedDomains : list string)
      (f : DomainFilter) (d : string) :
  NewDomainFilter L policy allowedDomains deniedDomains = Ok f ->
  In d deniedDomains ->
  exists p, compileDomainPattern L d = Ok p /\ In p (denied f).
Proof.
  unfold NewDomainFilter, mbind, result_bind, bindR.
  destruct (compileAll L allowedDomains []) as [al|e]; [|discriminate].
  destruct (compileAll L deniedDomains []) as [de|e] eqn:Ed; [|discriminate].
  intros H Hin. injection H as <-. cbn [denied].
  exact (compileAll_In _ _ _ _ Ed Hin).
Qed.

(** A denied domain without a wildcard refuses what normalises to it. *)
Lemma denied_exact (policy : string) (allowedDomains deniedDomains : list string)
      (f : DomainFilter) (pat d : string) :
  NewDomainFilter L policy allowedDomains deniedDomains = Ok f ->
  In pat deniedDomains ->
  Contains (ToLower L (TrimSpace L pat)) "*" = false ->
  normaliseDomain L (normaliseDomain L d) = ToLower L (TrimSpace L pat) ->
  IsAllowed L f d = false.
Proof.
  intros Hnew Hin Hstar Hnorm.
  destruct (NewDomainFilter_denied _ _ _ _ _ Hnew Hin) as (p & Hp & Hpin).
  unfold compileDomainPattern in Hp. rewrite Hstar in Hp. injection Hp as <-.
  unfold IsAllowed.
  assert (firstMatch L (denied f) (normaliseDomain L d) = true) as ->; [|reflexivity].
  rewrite firstMatch_existsb. apply existsb_exists.
  eexists. split; [exact Hpin|].
  unfold Matches. cbn [isGlob pattern]. rewrite Hnorm. apply String.eqb_refl.
Qed.

Lemma Split_head (sep : ascii) (host rest : string) :
  mem sep host = false ->
  Split (host ++ String sep rest) sep = host :: Split rest sep.
Proof.
  induction host as [|x host IH]; intros Hm.
  - change (EmptyString ++ String sep rest) with (String sep rest).
    cbn [Split]. now rewrite Ascii.eqb_refl.
  - rewrite mem_cons in Hm. apply orb_false_iff in Hm as [Hx Hh].
    change (String x host ++ String sep rest) with (String x (host ++ String sep rest)).
    cbn [Split]. rewrite Ascii.eqb_sym, Hx, (IH Hh). reflexivity.
Qed.

Lemma Split_whole (sep : ascii) (host : string) :
  mem sep host = false -> Split host sep = [host].
Proof.
  induction host as [|x host IH]; intros Hm; [reflexivity|].
  rewrite mem_cons in Hm. apply orb_false_iff in Hm as [Hx Hh].
  cbn [Split]. rewrite Ascii.eqb_sym, Hx, (IH Hh). reflexivity.
Qed.

End FilterFurther.

(** X15.  [IsAllowed] does not look at a port: for a host name and a
    port without colons, the answer for [host:port] is the answer for
    the host name alone. *)
Theorem IsAllowed_ignores_port
        (L : Network.Lib) (f : Network.DomainFilter) (host port : string) :
  mem ":" host = false -> mem ":" port = false ->
  Network.IsAllowed L f (host ++ ":" ++ port) = Network.IsAllowed L f host.
Proof.
  intros Hh Hp. unfold Network.IsAllowed.
  now rewrite (normaliseDomain_port L host port Hp), (normaliseDomain_no_port L host Hh).
Qed.

Lemma IsAllowed_ignores_port_witness :
  exists f,
    Network.NewDomainFilter Network.exampleLib "deny" ["*.github.com"] [] = Ok f
    /\ Network.IsAllowed Network.exampleLib f "api.github.com:443"
       = Network.IsAllowed Network.exampleLib f "api.github.com"
    /\ Network.IsAllowed Network.exampleLib f "api.github.com" = true.
Proof.
  eexists. split; [reflexivity|]. split; [|reflexivity].
  exact (IsAllowed_ignores_port Network.exampleLib _ "api.github.com" "443"
           eq_refl eq_refl).
Defined.

(** X16.  A default policy other than the exact text [deny] counts as
    [allow]: a filter built with it lets through every domain that
    no denied pattern matches, whether an allowed pattern matches it
    or not. *)
Theorem IsAllowed_unknown_policy
        (L : Network.Lib) (policy : string) (allowedDomains deniedDomains : list string)
        (f : Network.DomainFilter) (d : string) :
  Network.NewDomainFilter L policy allowedDomains deniedDomains = Ok f ->
  policy <> "deny" ->
  (forall p, In p (Network.denied f) ->
             Network.Matches L p (Network.normaliseDomain L d) = false) ->
  Network.IsAllowed L f d = true.
Proof.
  intros Hnew Hpol Hno.
  destruct (NewDomainFilter_fields L _ _ _ _ Hnew) as (_ & _ & Hdef).
  unfold Network.IsAllowed. rewrite !firstMatch_existsb.
  assert (existsb (fun p => Network.Matches L p (Network.normaliseDomain L d))
                  (Network.denied f) = false) as ->.
  { apply not_true_is_false. intros (q & Hq & Hm)%existsb_exists.
    rewrite (Hno q Hq) in Hm. discriminate. }
  destruct (existsb _ (Network.allowed f)); [reflexivity|].
  rewrite Hdef.
  destruct (String.eqb policy "allow") eqn:Ea; cbn [negb andb]; [exact Ea|].
  destruct (String.eqb policy "deny") eqn:Ed; cbn [negb]; [|reflexivity].
  apply String.eqb_eq in Ed. contradiction.
Qed.

Lemma IsAllowed_unknown_policy_witness :
  exists f,
    Network.NewDomainFilter Network.exampleLib "DENY" ["example.com"] ["bad.example.com"]
    = Ok f
    /\ Network.IsAllowed Network.exampleLib f "elsewhere.org" = true.
Proof.
  eexists. split; [reflexivity|].
  apply (IsAllowed_unknown_policy Network.exampleLib "DENY"
           ["example.com"] ["bad.example.com"] _ "elsewhere.org" eq_refl).
  - discriminate.
  - intros p [<-|[]]. reflexivity.
Defined.

(** X17.  A denied domain written without a wildcard is refused
    whatever the default policy and the allowed domains are:
    [IsAllowed] is false for every domain whose normal form,
    normalised once more as [Matches] does, is the denied domain in
    lower case and without the white space around it. *)
Theorem IsAllowed_denied_exact
        (L : Network.Lib) (policy : string) (allowedDomains deniedDomains : list string)
        (f : Network.DomainFilter) (pat d : string) :
  Network.NewDomainFilter L policy allowedDomains deniedDomains = Ok f ->
  In pat deniedDomains ->
  Contains (Network.ToLower L (Network.TrimSpace L pat)) "*" = false ->
  Network.normaliseDomain L (Network.normaliseDomain L d)
  = Network.ToLower L (Network.TrimSpace L pat) ->
  Network.IsAllowed L f d = false.
Proof. exact (denied_exact L policy allowedDomains deniedDomains f pat d). Qed.

Lemma IsAllowed_denied_exact_witness :
  exists f,
    Network.NewDomainFilter Network.exampleLib "allow" ["*.example.com"; "example.com"]
      ["tracker.net"; " Example.COM "] = Ok f
    /\ Network.IsAllowed Network.exampleLib f "EXAMPLE.com:443" = false.
Proof.
  eexists. split; [reflexivity|].
  apply (IsAllowed_denied_exact Network.exampleLib "allow"
           ["*.example.com"; "example.com"] ["tracker.net"; " Example.COM "] _
           " Example.COM " "EXAMPLE.com:443" eq_refl).
  - right. left. reflexivity.
  - reflexivity.
  - reflexivity.
Defined.

(** X18.  Both proxies refuse a denied domain.  For a filter with a
    denied domain without a wildcard and a host name without colons
    that normalises to it, [handleRequest] answers 403, with or
    without a port after the host name and whatever the method, and
    the SOCKS rule set refuses a request to that name. *)
Theorem proxies_refuse_denied
        (L : Network.Lib) (policy : string) (allowedDomains deniedDomains : list string)
        (f : Network.DomainFilter) (pat host : string) :
  Network.NewDomainFilter L policy allowedDomains deniedDomains = Ok f ->
  In pat deniedDomains ->
  Contains (Network.ToLower L (Network.TrimSpace L pat)) "*" = false ->
  host <> EmptyString ->
  mem ":" host = false ->
  Network.normaliseDomain L (Network.normaliseDomain L host)
  = Network.ToLower L (Network.TrimSpace L pat) ->
  (forall port urlHost method,
      Proxies.handleRequest L f
        {| Proxies.Host := host ++ ":" ++ port; Proxies.URLHost := urlHost;
           Proxies.Method := method |}
      = Proxies.Forbidden "X-Proxy-Error" "blocked-by-allowlist"
          "Domain not allowed by sandbox policy")
  /\ (forall urlHost method,
         Proxies.handleRequest L f
           {| Proxies.Host := host; Proxies.URLHost := urlHost; Proxies.Method := method |}
         = Proxies.Forbidden "X-Proxy-Error" "blocked-by-allowlist"
             "Domain not allowed by sandbox policy")
  /\ (forall ip,
         Proxies.Allow L f (Some {| Proxies.FQDN := host; Proxies.IP := ip |}) = false).
Proof.
  intros Hnew Hin Hstar Hne Hcolon Hnorm.
  pose proof (denied_exact L _ _ _ _ _ _ Hnew Hin Hstar Hnorm) as Hdeny.
  assert (Heq : String.eqb host EmptyString = false) by now apply String.eqb_neq.
  split; [|split].
  - intros port urlHost method. unfold Proxies.handleRequest.
    cbn [Proxies.Host Proxies.URLHost Proxies.Method].
    assert (String.eqb (host ++ ":" ++ port) EmptyString = false) as ->.
    { apply String.eqb_neq. destruct host; [congruence | discriminate]. }
    unfold Proxies.firstPart.
    change (host ++ ":" ++ port) with (host ++ String ":" port).
    rewrite (Split_head ":" host port Hcolon), Hdeny. reflexivity.
  - intros urlHost method. unfold Proxies.handleRequest.
    cbn [Proxies.Host Proxies.URLHost Proxies.Method].
    rewrite Heq. unfold Proxies.firstPart.
    rewrite (Split_whole ":" host Hcolon), Hdeny. reflexivity.
  - intros ip. unfold Proxies.Allow. cbn [Proxies.FQDN Proxies.IP].
    rewrite Heq. exact Hdeny.
Qed.

Lemma proxies_refuse_denied_witness :
  exists f,
    Network.NewDomainFilter Network.exampleLib "allow" [] ["tracker.net"] = Ok f
    /\ Proxies.handleRequest Network.exampleLib f
         {| Proxies.Host := "Tracker.net:8443"; Proxies.URLHost := EmptyString;
            Proxies.Method := "CONNECT" |}
       = Proxies.Forbidden "X-Proxy-Error" "blocked-by-allowlist"
           "Domain not allowed by sandbox policy"
    /\ Proxies.Allow Network.exampleLib f
         (Some {| Proxies.FQDN := "Tracker.net"; Proxies.IP := None |}) = false.
Proof.
  eexists. split; [reflexivity|].
  destruct (proxies_refuse_denied Network.exampleLib "allow" [] ["tracker.net"] _
              "tracker.net" "Tracker.net" eq_refl (or_introl eq_refl) eq_refl
              ltac:(discriminate) eq_refl eq_refl) as (H1 & _ & H3).
  split; [exact (H1 "8443" EmptyString "CONNECT") | exact (H3 None)].
Defined.

(** ** The manager, further *)



(** X20.  [Execute] builds the command only after the profile has
    been generated, written and validated.  When it returns a command
    there is a profile that [GenerateSeatbeltProfile] made from the
    normalised path lists (the detected package-manager paths added
    to the write-allowed and to the unlink-allowed paths, the
    mandatory deny paths to the write-denied ones), that was written
    to the profile file, that passes the static checks and on which
    the live test succeeded; and the command is [sandbox-exec -f]
    with the profile file and then the user's command, unchanged. *)
Theorem Execute_validated
        (w : Manager.World) (m : Manager.Manager) (command : list string)
        (cmd : Manager.Cmd) :
  Manager.Execute w m command = Some (Ok cmd) ->
  let cfg := Manager.config m in
  command <> []
  /\ Manager.args cmd = "-f" :: Manager.profileFile w :: command
  /\ exists denyReadPaths allowWritePaths denyWritePaths allowUnlinkPaths profile,
       Filesystem.NormalisePaths (Manager.w_env w) (Manager.DenyRead (Manager.Fs cfg))
       = Ok denyReadPaths
       /\ Filesystem.NormalisePaths (Manager.w_env w)
            (Manager.AllowWrite (Manager.Fs cfg) ++ Manager.detectedPaths w)
          = Ok allowWritePaths
       /\ Filesystem.NormalisePaths (Manager.w_env w) (Manager.DenyWrite (Manager.Fs cfg))
          = Ok denyWritePaths
       /\ Filesystem.NormalisePaths (Manager.w_env w)
            (Manager.AllowUnlink (Manager.Fs cfg) ++ Manager.detectedPaths w)
          = Ok allowUnlinkPaths
       /\ Seatbelt.GenerateSeatbeltProfile (Manager.w_env w)
            (Manager.HTTPProxyPort (Manager.Net cfg))
            (Manager.SOCKSProxyPort (Manager.Net cfg))
            (match Manager.httpProxy m, Manager.socksProxy m with
             | Some _, Some _ => true
             | _, _ => false
             end)
            denyReadPaths allowWritePaths
            (match Manager.mandatoryDeny w allowWritePaths with
             | Ok extra => denyWritePaths ++ extra
             | Err _ => denyWritePaths
             end)
            allowUnlinkPaths
            (Manager.AllowFork (Manager.Proc cfg))
            (Manager.AllowSysctlRead (Manager.Proc cfg))
            (Manager.AllowMachLookup (Manager.Proc cfg))
            (Manager.AllowPosixShm (Manager.Proc cfg))
          = Some (Ok profile)
       /\ Manager.writeFile w (Manager.profileFile w) profile = None
       /\ Seatbelt.staticChecks profile = true
       /\ snd (Manager.sandboxTest w profile) = None.
Proof.
  intros H cfg. subst cfg. unfold Manager.Execute in H.
  destruct command as [|c0 command]; [discriminate|].
  split; [discriminate|].
  unfold Manager.bindO, Manager.liftR, wrapErr in H.
  destruct (Filesystem.NormalisePaths _ (Manager.DenyRead _)) as [dr|e]; [|discriminate].
  destruct (Filesystem.NormalisePaths _ (Manager.AllowWrite _ ++ _)) as [aw|e];
    [|discriminate].
  destruct (Filesystem.NormalisePaths _ (Manager.DenyWrite _)) as [dw|e]; [|discriminate].
  destruct (Filesystem.NormalisePaths _ (Manager.AllowUnlink _ ++ _)) as [au|e];
    [|discriminate].
  destruct (Seatbelt.GenerateSeatbeltProfile _ _ _ _ _ _ _ _ _ _ _ _)
    as [[profile|e]|] eqn:Hgen; [|discriminate|discriminate].
  destruct (Manager.writeFile w _ _) eqn:Hw; [discriminate|].
  destruct (Seatbelt.verdict _) eqn:Hv; [discriminate|].
  injection H as <-. split; [reflexivity|].
  exists dr, aw, dw, au, profile. repeat (split; [reflexivity|]).
  split; [exact Hgen|]. split; [exact Hw|].
  apply ValidateProfile_nil in Hv as (content & Hcat & Hstatic & Hlive).
  destruct (decide (_ = _)) as [_|Hne] in Hcat; [|congruence].
  injection Hcat as <-.
  split; [exact Hstatic|].
  destruct (decide (_ = _)) as [Heq|_] in Hlive; [discriminate Heq | exact Hlive].
Qed.

Lemma Execute_validated_witness :
  let w := Manager.exampleWorld ["PATH=/usr/bin"] in
  let cfg := Manager.exampleConfig "deny" [] in
  exists m cmd,
    Manager.NewManager w cfg = Ok m
    /\ Manager.Execute w m ["npm"; "test"] = Some (Ok cmd)
    /\ Manager.args cmd = ["-f"; "/tmp/srt-profile-4242.sb"; "npm"; "test"].
Proof.
  intros w cfg.
  destruct (Manager.NewManager w cfg) as [m|e] eqn:Hnew;
    [|vm_compute in Hnew; discriminate].
  exists m.
  destruct (Manager.Execute w m ["npm"; "test"]) as [[cmd|e]|] eqn:Hexec.
  - exists cmd. split; [reflexivity|]. split; [reflexivity|].
    exact (proj1 (proj2 (Execute_validated w m _ cmd Hexec))).
  - vm_compute in Hnew. injection Hnew as <-. vm_compute in Hexec. discriminate.
  - vm_compute in Hnew. injection Hnew as <-. vm_compute in Hexec. discriminate.
Defined.

(** ** The macOS version *)

Section PlatformFacts.
Import Platform.

(** What [GetMacOSVersion] returns once [sw_vers] has run. *)
Lemma GetMacOSVersion_output (h : Host) (output : string) :
  sw_vers h = Ok output ->
  let versionStr := TrimSpace h output in
  let parts := Split versionStr "." in
  GetMacOSVersion h =
  match Atoi h (hd EmptyString parts) with
  | (_, Some _) => Err (Errorf ("invalid major version: " ++ hd EmptyString parts))
  | (major, None) =>
      Ok {| Major := major;
            Minor := match parts with _ :: part1 :: _ => fst (Atoi h part1) | _ => 0%Z end;
            Patch := match parts with
                     | _ :: _ :: part2 :: _ => fst (Atoi h part2)
                     | _ => 0%Z
                     end;
            Full := versionStr |}
  end.
Proof.
  intros Hout versionStr parts. unfold GetMacOSVersion. rewrite Hout.
  fold versionStr. fold parts.
  pose proof (Split_nonempty versionStr ".") as Hne. fold parts in Hne.
  destruct parts as [|part0 rest]; [congruence|]. reflexivity.
Qed.

End PlatformFacts.

(** X21.  [GetMacOSVersion] fails only when [sw_vers] fails or the
    text before the first dot of its trimmed output is not a number:
    the error for an invalid version format is never returned, and a
    minor or patch part that is missing or is not a number is read as
    whatever [Atoi] gives for it, without an error.  On success the
    full version is the trimmed output. *)
Theorem GetMacOSVersion_failures (h : Platform.Host) :
  (forall text, Platform.GetMacOSVersion h
                <> Err (Errorf ("invalid version format: " ++ text)))
  /\ (isOk (Platform.GetMacOSVersion h) = true <->
      exists output,
        Platform.sw_vers h = Ok output
        /\ snd (Platform.Atoi h
                  (hd EmptyString (Split (Platform.TrimSpace h output) "."))) = None)
  /\ (forall version output,
         Platform.GetMacOSVersion h = Ok version ->
         Platform.sw_vers h = Ok output ->
         Platform.Full version = Platform.TrimSpace h output
         /\ Platform.Major version
            = fst (Platform.Atoi h
                     (hd EmptyString (Split (Platform.TrimSpace h output) ".")))).
Proof.
  destruct (Platform.sw_vers h) as [output|e] eqn:Hout.
  - rewrite (GetMacOSVersion_output h output Hout). cbv zeta.
    destruct (Platform.Atoi h _) as [major [err|]] eqn:Ea.
    + split; [|split].
      * intros text H. injection H as H. cbn in H. discriminate.
      * split; [discriminate|]. intros (o & Ho & Hs). injection Ho as <-.
        rewrite Ea in Hs. discriminate.
      * intros version o H. discriminate.
    + split; [|split].
      * intros text H. discriminate.
      * split; [|reflexivity]. intros _. exists output. rewrite Ea. auto.
      * intros version o H Ho. injection Ho as <-. injection H as <-.
        rewrite Ea. auto.
  - unfold Platform.GetMacOSVersion. rewrite Hout. split; [|split].
    + intros text H. discriminate.
    + split; [discriminate|]. intros (o & Ho & _). discriminate.
    + intros version o H. discriminate.
Qed.

(** X22.  [CheckSystemRequirements] accepts exactly when the system is
    [darwin], [sw_vers] ran, and the text before the first dot of its
    trimmed output is a number that is at least 26.  The minor and
    the patch version play no part. *)
Theorem CheckSystemRequirements_accepts (h : Platform.Host) :
  Platform.CheckSystemRequirements h = None <->
  Platform.GOOS h = "darwin"
  /\ exists output major,
       Platform.sw_vers h = Ok output
       /\ Platform.Atoi h (hd EmptyString (Split (Platform.TrimSpace h output) "."))
          = (major, None)
       /\ (26 <= major)%Z.
Proof.
  unfold Platform.CheckSystemRequirements.
  destruct (String.eqb (Platform.GOOS h) "darwin") eqn:Eg; cbn [negb].
  2:{ apply String.eqb_neq in Eg. split; [discriminate|]. intros [H _]. contradiction. }
  apply String.eqb_eq in Eg.
  destruct (Platform.sw_vers h) as [output|e] eqn:Hout.
  - rewrite (GetMacOSVersion_output h output Hout). cbv zeta.
    destruct (Platform.Atoi h _) as [major [err|]] eqn:Ea.
    + split; [discriminate|]. intros (_ & o & mj & Ho & Hm & _).
      injection Ho as <-. rewrite Ea in Hm. discriminate.
    + cbn [Platform.Major].
      destruct (major <? 26)%Z eqn:El.
      * split; [discriminate|]. intros (_ & o & mj & Ho & Hm & Hge).
        injection Ho as <-. rewrite Ea in Hm. injection Hm as <-.
        apply Z.ltb_lt in El. lia.
      * split; [|reflexivity]. intros _. split; [exact Eg|].
        exists output, major. apply Z.ltb_ge in El. auto.
  - unfold Platform.GetMacOSVersion. rewrite Hout.
    split; [discriminate|]. intros (_ & o & mj & Ho & _). discriminate.
Qed.

(** ** Matching, further *)

(** X23.  [MatchGlob] gives no verdict on a pattern with an unclosed
    bracket class or brace group: it never answers true or false,
    and where normalising a plain path brings in no glob character it
    returns the error of the conversion. *)
Theorem MatchGlob_unclosed (env : Filesystem.Env) (pattern path : string) :
  Spec.Unclosed pattern ->
  (forall matched, Globs.MatchGlob env pattern path <> Some (Ok matched))
  /\ (Spec.PlainPaths env ->
      exists err, Filesystem.GlobToRegex env pattern = Some (Err err)
                  /\ Globs.MatchGlob env pattern path = Some (Err err)).
Proof.
  intros Hu. unfold Globs.MatchGlob.
  pose proof (GlobToRegexN_unclosed env (S (String.length pattern)) pattern Hu) as Hno.
  fold (Filesystem.GlobToRegex env pattern) in Hno.
  split.
  - intros matched.
    destruct (Filesystem.GlobToRegex env pattern) as [[regex|e]|]; try discriminate.
    exfalso. exact (Hno regex eq_refl).
  - intros Henv. pose proof (GlobToRegex_returns env pattern Henv) as Hr.
    destruct (Filesystem.GlobToRegex env pattern) as [[regex|e]|]; [|eauto|congruence].
    exfalso. exact (Hno regex eq_refl).
Qed.

Lemma MatchGlob_unclosed_witness :
  Spec.Unclosed "*.{js,ts"
  /\ exists err, Globs.MatchGlob Globs.exampleEnv "*.{js,ts" "main.js" = Some (Err err).
Proof.
  assert (Hu : Spec.Unclosed "*.{js,ts").
  { do 2 (apply Spec.UnclosedAfterByte; [discriminate | discriminate |]).
    apply Spec.UnclosedBrace. intros n.
    do 5 (destruct n as [|n]; [simpl; lia|]). destruct n; simpl; lia. }
  split; [exact Hu|].
  destruct (proj2 (MatchGlob_unclosed Globs.exampleEnv "*.{js,ts" "main.js" Hu)
              exampleEnv_PlainPaths) as (err & _ & H).
  exists err. exact H.
Defined.

Lemma GetMacOSVersion_failures_witness :
  let h := Platform.exampleHost ("26.beta.x" ++ nl) in
  isOk (Platform.GetMacOSVersion h) = true
  /\ Platform.GetMacOSVersion h
     = Ok {| Platform.Major := 26; Platform.Minor := 0; Platform.Patch := 0;
             Platform.Full := "26.beta.x" |}.
Proof.
  intros h. split; [|reflexivity].
  apply (proj1 (proj2 (GetMacOSVersion_failures h))).
  exists ("26.beta.x" ++ nl). split; reflexivity.
Defined.

Lemma CheckSystemRequirements_accepts_witness :
  Platform.CheckSystemRequirements (Platform.exampleHost ("26.0.1" ++ nl)) = None
  /\ Platform.CheckSystemRequirements (Platform.exampleHost ("15.7.2" ++ nl)) <> None.
Proof.
  split.
  - apply CheckSystemRequirements_accepts. split; [reflexivity|].
    exists ("26.0.1" ++ nl), 26%Z. repeat split. discriminate.
  - intros H. apply CheckSystemRequirements_accepts in H as (_ & o & mj & Ho & Hm & Hge).
    injection Ho as <-. vm_compute in Hm. injection Hm as <-. lia.
Defined.

(** ** The patterns of a filter *)

Section FilterPatterns.
Import Network.

Variable L : Lib.

Lemma compileAll_Forall2 (domains : list string) :
  forall acc out,
    compileAll L domains acc = Ok out ->
    exists ps, out = (acc ++ ps)%list
               /\ Forall2 (fun d p => compileDomainPattern L d = Ok p) domains ps.
Proof.
  induction domains as [|d rest IH]; intros acc out H; cbn [compileAll] in H.
  - injection H as <-. exists []. split; [now rewrite app_nil_r | constructor].
  - unfold mbind, result_bind, bindR in H.
    destruct (compileDomainPattern L d) as [p|e] eqn:Ep; [|discriminate].
    apply IH in H as (ps & -> & Hps). exists (p :: ps). split.
    + now rewrite <- app_assoc.
    + now constructor.
Qed.

Lemma compileAll_succeeds (domains : list string) :
  Forall (fun d => isOk (compileDomainPattern L d) = true) domains ->
  forall acc, exists out, compileAll L domains acc = Ok out.
Proof.
  induction 1 as [|d rest Hd _ IH]; intros acc; cbn [compileAll]; [eauto|].
  unfold mbind, result_bind, bindR.
  destruct (compileDomainPattern L d) as [p|e]; [apply IH | discriminate].
Qed.

Lemma compileDomainPattern_exact (d : string) :
  Contains (ToLower L (TrimSpace L d)) "*" = false ->
  isOk (compileDomainPattern L d) = true.
Proof. intros H. unfold compileDomainPattern. now rewrite H. Qed.

End FilterPatterns.

(** X24.  A filter that [NewDomainFilter] returns has one pattern per
    allowed domain and one per denied domain, in the order of the
    configuration, each the compiled form of its domain.
    [NewDomainFilter] fails only when compiling a domain fails, and
    so never when no domain has a [*] once it is in lower case and
    trimmed. *)
Theorem NewDomainFilter_patterns
        (L : Network.Lib) (policy : string) (allowedDomains deniedDomains : list string) :
  (forall f,
      Network.NewDomainFilter L policy allowedDomains deniedDomains = Ok f ->
      Forall2 (fun d p => Network.compileDomainPattern L d = Ok p)
              allowedDomains (Network.allowed f)
      /\ Forall2 (fun d p => Network.compileDomainPattern L d = Ok p)
                 deniedDomains (Network.denied f))
  /\ (Forall (fun d => isOk (Network.compileDomainPattern L d) = true)
             (allowedDomains ++ deniedDomains) ->
      exists f, Network.NewDomainFilter L policy allowedDomains deniedDomains = Ok f)
  /\ (Forall (fun d => Contains (Network.ToLower L (Network.TrimSpace L d)) "*" = false)
             (allowedDomains ++ deniedDomains) ->
      exists f, Network.NewDomainFilter L policy allowedDomains deniedDomains = Ok f).
Proof.
  assert (Hall : Forall (fun d => isOk (Network.compileDomainPattern L d) = true)
                        (allowedDomains ++ deniedDomains) ->
                 exists f, Network.NewDomainFilter L policy allowedDomains deniedDomains
                           = Ok f).
  { intros [Ha Hd]%Forall_app. unfold Network.NewDomainFilter, mbind, result_bind, bindR.
    destruct (compileAll_succeeds L _ Ha []) as [al ->].
    destruct (compileAll_succeeds L _ Hd []) as [de ->]. eauto. }
  split; [|split; [exact Hall|]].
  - intros f. unfold Network.NewDomainFilter, mbind, result_bind, bindR.
    destruct (Network.compileAll L allowedDomains []) as [al|e] eqn:Ea; [|discriminate].
    destruct (Network.compileAll L deniedDomains []) as [de|e] eqn:Ed; [|discriminate].
    intros H. injection H as <-. cbn [Network.allowed Network.denied].
    apply compileAll_Forall2 in Ea as (ps & -> & Hps).
    apply compileAll_Forall2 in Ed as (qs & -> & Hqs). auto.
  - intros H. apply Hall. eapply Forall_impl; [exact H|].
    intros d. apply compileDomainPattern_exact.
Qed.

Lemma NewDomainFilter_patterns_witness :
  Forall (fun d => Contains (Network.ToLower Network.exampleLib
                               (Network.TrimSpace Network.exampleLib d)) "*" = false)
         (["github.com"; "Example.org "] ++ ["tracker.net"])
  /\ exists f,
       Network.NewDomainFilter Network.exampleLib "deny"
         ["github.com"; "Example.org "] ["tracker.net"] = Ok f
       /\ map Network.pattern (Network.allowed f) = ["github.com"; "example.org"].
Proof.
  assert (H : Forall (fun d => Contains (Network.ToLower Network.exampleLib
                                           (Network.TrimSpace Network.exampleLib d)) "*"
                               = false)
                     (["github.com"; "Example.org "] ++ ["tracker.net"]))
    by (repeat constructor).
  split; [exact H|].
  destruct (proj2 (proj2 (NewDomainFilter_patterns Network.exampleLib "deny"
                            ["github.com"; "Example.org "] ["tracker.net"])) H)
    as [f Hf].
  exists f. split; [exact Hf|].
  vm_compute in Hf. injection Hf as <-. reflexivity.
Defined.

(** ** Hop-by-hop headers *)

(** X25.  [removeHopByHopHeaders] deletes the eight headers it names
    and no other: after it each of the eight is absent and every
    other header has the values it had; doing it twice is doing it
    once. *)
Theorem removeHopByHopHeaders_lookup (h : Headers.Header) (name : string) :
  Headers.removeHopByHopHeaders h !! name
  = (if bool_decide (name ∈ Headers.hopByHop) then None else h !! name)
  /\ Headers.removeHopByHopHeaders (Headers.removeHopByHopHeaders h)
     = Headers.removeHopByHopHeaders h.
Proof.
  assert (Hlook : forall h' n,
             Headers.removeHopByHopHeaders h' !! n
             = if bool_decide (n ∈ Headers.hopByHop) then None else h' !! n).
  { intros h' n. unfold Headers.removeHopByHopHeaders, Headers.Del, Headers.hopByHop.
    cbv zeta. unfold Headers.Header in *.
    match goal with
    | |- context [bool_decide ?P] =>
        destruct (decide P) as [Hin|Hin];
        [rewrite (bool_decide_eq_true_2 _ Hin) | rewrite (bool_decide_eq_false_2 _ Hin)]
    end.
    - repeat (apply elem_of_cons in Hin as [->|Hin];
              [repeat first [apply lookup_delete_eq | rewrite lookup_delete_ne by done]|]).
      inversion Hin.
    - repeat (rewrite lookup_delete_ne;
              [|intros Heq; apply Hin; rewrite <- Heq;
                solve [repeat first [apply list_elem_of_here
                                     | apply list_elem_of_further]]]).
      reflexivity. }
  split; [apply Hlook|].
  unfold Headers.Header in *. apply map_eq. intros n. rewrite !Hlook.
  now destruct (bool_decide (n ∈ Headers.hopByHop)).
Qed.

(** ** Balanced text and the baseline of a profile *)

(** X26.  [hasBalancedParentheses] accepts two accepted texts put one
    after the other, and an accepted text put between a [(] and a
    [)]; it accepts every text without parentheses and rejects every
    text that has a [)] before any [(]. *)
Theorem hasBalancedParentheses_compose (a b : string) :
  (Seatbelt.hasBalancedParentheses a = true ->
   Seatbelt.hasBalancedParentheses b = true ->
   Seatbelt.hasBalancedParentheses (a ++ b) = true)
  /\ (Seatbelt.hasBalancedParentheses a = true ->
      Seatbelt.hasBalancedParentheses ("(" ++ a ++ ")") = true)
  /\ (Spec.noParens a = true -> Seatbelt.hasBalancedParentheses a = true)
  /\ (Spec.noParens a = true ->
      Seatbelt.hasBalancedParentheses (a ++ ")" ++ b) = false).
Proof.
  split; [apply balanced_app|]. split; [apply balanced_wrap|].
  split; [apply noParens_balanced|].
  intros Ha. unfold Seatbelt.hasBalancedParentheses.
  induction a as [|c a IH].
  - reflexivity.
  - apply noParens_cons_inv in Ha as (H1 & H2 & Ha).
    change (String c a ++ ")" ++ b) with (String c (a ++ ")" ++ b)).
    cbn [Seatbelt.balancedFrom]. rewrite H1, H2. exact (IH Ha).
Qed.

Lemma hasBalancedParentheses_compose_witness :
  Seatbelt.hasBalancedParentheses "(allow file-read*)" = true
  /\ Seatbelt.hasBalancedParentheses "(deny network*)" = true
  /\ Seatbelt.hasBalancedParentheses ("(allow file-read*)" ++ "(deny network*)") = true
  /\ Seatbelt.hasBalancedParentheses ("deny" ++ ")" ++ "(") = false.
Proof.
  assert (Ha : Seatbelt.hasBalancedParentheses "(allow file-read*)" = true) by reflexivity.
  assert (Hb : Seatbelt.hasBalancedParentheses "(deny network*)" = true) by reflexivity.
  split; [exact Ha|]. split; [exact Hb|]. split.
  - exact (proj1 (hasBalancedParentheses_compose _ _) Ha Hb).
  - exact (proj2 (proj2 (proj2 (hasBalancedParentheses_compose "deny" "("))) eq_refl).
Defined.

(** X27.  Every profile that [GenerateSeatbeltProfile] returns has the
    baseline statements, whatever the policy: it allows process
    execution and file reads and denies the network, file writes and
    unlinking; the entries of the policy only add rules to this. *)
Theorem GenerateSeatbeltProfile_baseline
        (env : Filesystem.Env) (httpProxyPort socksProxyPort : Z) (enableProxy : bool)
        (denyReadPaths allowWritePaths denyWritePaths allowUnlinkPaths : list string)
        (allowFork allowSysctlRead allowMachLookup allowPosixShm : bool)
        (profile : string) :
  Seatbelt.GenerateSeatbeltProfile env httpProxyPort socksProxyPort enableProxy
    denyReadPaths allowWritePaths denyWritePaths allowUnlinkPaths
    allowFork allowSysctlRead allowMachLookup allowPosixShm = Some (Ok profile) ->
  HasPrefix profile "(version 1)" = true
  /\ Contains profile "(allow process-exec*)" = true
  /\ Contains profile "(deny network*)" = true
  /\ Contains profile "(allow file-read*)" = true
  /\ Contains profile "(deny file-write*)" = true
  /\ Contains profile "(deny file-write-unlink)" = true.
Proof.
  intros H.
  destruct (GenerateSeatbeltProfile_sections _ _ _ _ _ _ _ _ _ _ _ _ _ H)
    as (readRules & allowRules & denyRules & unlinkRules & _ & _ & _ & _ & ->).
  split; [|split; [|split; [|split; [|split]]]].
  - unfold HasPrefix, Spec.versionLine. rewrite append_assoc. apply prefix_append.
  - apply Contains_app_r, Contains_app_l. unfold Spec.processSection.
    apply Contains_app_r, Contains_app_r, Contains_app_l. reflexivity.
  - do 2 apply Contains_app_r. apply Contains_app_l. unfold Spec.networkSection.
    apply Contains_app_r, Contains_app_r, Contains_app_l. reflexivity.
  - do 3 apply Contains_app_r. apply Contains_app_l. unfold Spec.readSection.
    apply Contains_app_r, Contains_app_r, Contains_app_l. reflexivity.
  - do 4 apply Contains_app_r. apply Contains_app_l. unfold Spec.writeSection.
    apply Contains_app_r, Contains_app_r, Contains_app_l. reflexivity.
  - do 5 apply Contains_app_r. unfold Spec.unlinkSection.
    apply Contains_app_r, Contains_app_r, Contains_app_l. reflexivity.
Qed.

Lemma GenerateSeatbeltProfile_baseline_witness :
  exists profile,
    Seatbelt.GenerateSeatbeltProfile Globs.exampleEnv 8080 1080 true
      [] ["/tmp/**"] [] [] false false false false = Some (Ok profile)
    /\ Contains profile "(deny network*)" = true
    /\ Contains profile "(deny file-write*)" = true.
Proof.
  destruct (Seatbelt.GenerateSeatbeltProfile Globs.exampleEnv 8080 1080 true
              [] ["/tmp/**"] [] [] false false false false) as [[profile|e]|] eqn:Hgen;
    [|vm_compute in Hgen; discriminate|vm_compute in Hgen; discriminate].
  exists profile. split; [reflexivity|].
  destruct (GenerateSeatbeltProfile_baseline _ _ _ _ _ _ _ _ _ _ _ _ _ Hgen)
    as (_ & _ & Hn & _ & Hw & _).
  split; assumption.
Defined.

(** ** Allowed domains *)

Section AllowedFacts.
Import Network.

Variable L : Lib.

Lemma NewDomainFilter_allowed (policy : string) (allowedDomains deniedDomains : list string)
      (f : DomainFilter) (d : string) :
  NewDomainFilter L policy allowedDomains deniedDomains = Ok f ->
  In d allowedDomains ->
  exists p, compileDomainPattern L d = Ok p /\ In p (allowed f).
Proof.
  unfold NewDomainFilter, mbind, result_bind, bindR.
  destruct (compileAll L allowedDomains []) as [al|e] eqn:Ea; [|discriminate].
  destruct (compileAll L deniedDomains []) as [de|e]; [|discriminate].
  intros H Hin. injection H as <-. cbn [allowed].
  exact (compileAll_In L _ _ _ _ Ea Hin).
Qed.

End AllowedFacts.

(** X28.  An allowed domain written without a wildcard is let
    through under every default policy, unless a denied pattern
    matches: [IsAllowed] is true for every domain that no denied
    pattern matches and whose normal form, normalised once more as
    [Matches] does, is the allowed domain in lower case and without
    the white space around it. *)
Theorem IsAllowed_allowed_exact
        (L : Network.Lib) (policy : string) (allowedDomains deniedDomains : list string)
        (f : Network.DomainFilter) (pat d : string) :
  Network.NewDomainFilter L policy allowedDomains deniedDomains = Ok f ->
  In pat allowedDomains ->
  Contains (Network.ToLower L (Network.TrimSpace L pat)) "*" = false ->
  Network.normaliseDomain L (Network.normaliseDomain L d)
  = Network.ToLower L (Network.TrimSpace L pat) ->
  (forall p, In p (Network.denied f) ->
             Network.Matches L p (Network.normaliseDomain L d) = false) ->
  Network.IsAllowed L f d = true.
Proof.
  intros Hnew Hin Hstar Hnorm Hno.
  destruct (NewDomainFilter_allowed L _ _ _ _ _ Hnew Hin) as (p & Hp & Hpin).
  unfold Network.compileDomainPattern in Hp. rewrite Hstar in Hp. injection Hp as <-.
  unfold Network.IsAllowed. rewrite !firstMatch_existsb.
  assert (existsb (fun p => Network.Matches L p (Network.normaliseDomain L d))
                  (Network.denied f) = false) as ->.
  { apply not_true_is_false. intros (q & Hq & Hm)%existsb_exists.
    rewrite (Hno q Hq) in Hm. discriminate. }
  assert (existsb (fun p => Network.Matches L p (Network.normaliseDomain L d))
                  (Network.allowed f) = true) as ->; [|reflexivity].
  apply existsb_exists. eexists. split; [exact Hpin|].
  unfold Network.Matches. cbn [Network.isGlob Network.pattern].
  rewrite Hnorm. apply String.eqb_refl.
Qed.

Lemma IsAllowed_allowed_exact_witness :
  exists f,
    Network.NewDomainFilter Network.exampleLib "deny" ["Registry.npmjs.org"]
      ["*.tracker.net"] = Ok f
    /\ Network.IsAllowed Network.exampleLib f "registry.npmjs.org:443" = true.
Proof.
  eexists. split; [reflexivity|].
  apply (IsAllowed_allowed_exact Network.exampleLib "deny" ["Registry.npmjs.org"]
           ["*.tracker.net"] _ "Registry.npmjs.org" "registry.npmjs.org:443" eq_refl).
  - left. reflexivity.
  - reflexivity.
  - reflexivity.
  - intros p [<-|[]]. vm_compute. reflexivity.
Defined.
